(** * pykons: the HD-01 .KIT codec ([src/pykons/kit_tools.py])

    A shallow embedding of [Voice], [Kit] and [mix_kits].  Python objects
    that the program mutates live in an explicit store: a [Voice] is a
    record held in a heap of objects and a [Kit] refers to its four voices
    by address, so that two kits holding the same [Voice] object see each
    other's writes exactly as they do in Python.  Exceptions are values:
    every method is a state transformer that returns either its result or
    the exception it raised, together with the state it left behind. *)

From Stdlib Require Import ZArith Lia Strings.Byte Strings.String.
From Stdlib Require Import DecimalString DecimalFacts DecimalZ.
From stdpp Require Import base option list strings.

(** ** Python values *)

Abbreviation byte := Byte.byte.
Abbreviation bytes := (list byte).

#[global] Instance byte_eq_decision : EqDecision byte := Byte.byte_eq_dec.

(** [b[i]] on a bytes object yields an int in [range(256)]. *)
Definition int_of_byte (b : byte) : Z := Z.of_N (Byte.to_N b).

(** Storing an int into a bytearray: only ints in [range(256)] fit. *)
Definition byte_of_int (z : Z) : option byte :=
  if decide (0 ≤ z)%Z then Byte.of_N (Z.to_N z) else None.

(** [str(n)] for an int. *)
Definition str (z : Z) : string := NilZero.string_of_int (Z.to_int z).

(** [len(x)] as a Python int. *)
Definition len {A} (l : list A) : Z := Z.of_nat (length l).

(** [range(n)]: empty when [n <= 0]. *)
Definition range (n : Z) : list Z := Z.of_nat <$> seq 0 (Z.to_nat n).

(** Clamping of one slice bound, as [PySlice_AdjustIndices] does for step 1:
    a negative bound counts from the end, and both ends saturate. *)
Definition adjust_index (n i : Z) : Z :=
  if decide (i < 0)%Z then Z.max 0 (i + n) else Z.min i n.

(** [l[lo:hi]] with Python's treatment of negative and oversized bounds. *)
Definition slice {A} (l : list A) (lo hi : Z) : list A :=
  let start := adjust_index (len l) lo in
  let stop := adjust_index (len l) hi in
  take (Z.to_nat (stop - start)) (drop (Z.to_nat start) l).

(** [l[i]] for a list, a negative index counting from the end; [None] stands
    for the [IndexError]. *)
Definition getitem {A} (l : list A) (i : Z) : option A :=
  if decide (i < 0)%Z
  then (if decide (0 ≤ i + len l)%Z then l !! Z.to_nat (i + len l) else None)
  else l !! Z.to_nat i.

(** ** Exceptions and the state-and-exception monad *)

Inductive exn :=
| ValueError (msg : string)
| IndexError (msg : string)
| FileNotFoundError (filename : string)
| OverflowError (msg : string)
| MemoryError
| NoSuchObject.  (* an address outside the store; no Python program gets one *)

Inductive outcome (A : Type) :=
| Return (a : A)
| Raise (e : exn).
Arguments Return {A} a.
Arguments Raise {A} e.

(** A computation over a mutable state [S]: the state after the call is
    returned in both cases, so what a failed call left behind is visible. *)
Definition M (S A : Type) : Type := S → outcome A * S.

Definition ret {S A} (a : A) : M S A := λ s, (Return a, s).
Definition raise {S A} (e : exn) : M S A := λ s, (Raise e, s).
Definition bind {S A B} (m : M S A) (k : A → M S B) : M S B :=
  λ s, match m s with
       | (Return a, s') => k a s'
       | (Raise e, s') => (Raise e, s')
       end.
Definition get {S} : M S S := λ s, (Return s, s).
Definition put {S} (s : S) : M S unit := λ _, (Return tt, s).

Notation "x <- m ;; k" := (bind m (λ x, k))
  (at level 100, m at next level, right associativity, only parsing).
Notation "m ;;; k" := (bind m (λ _, k))
  (at level 100, right associativity, only parsing).

(** Running a computation on a component of the state (an attribute of
    [self], an object of the heap). *)
Definition zoom {S T A} (proj : S → T) (upd : T → S → S) (m : M T A) : M S A :=
  λ s, let '(r, t) := m (proj s) in (r, upd t s).

(** The result of a computation that does not use the state. *)
Definition lift {S A} (o : outcome A) : M S A := λ s, (o, s).

(** A computation that also mutates a local object [l], run from a context
    where only the rest of the state is threaded; the object as the call
    left it is returned alongside the result. *)
Definition with_local {S L A} (l : L) (m : M (L * S) A) : M S (A * L) :=
  λ s, let '(r, (l', s')) := m (l, s) in
       (match r with Return a => Return (a, l') | Raise e => Raise e end, s').

(** The result and the final state of a computation. *)
Definition result_of {S A} (m : M S A) (s : S) : outcome A := (m s).1.
Definition state_after {S A} (m : M S A) (s : S) : S := (m s).2.

(** [for x in xs: body(x)] *)
Fixpoint for_each {S A} (xs : list A) (body : A → M S unit) : M S unit :=
  match xs with
  | [] => ret tt
  | x :: xs' => body x ;;; for_each xs' body
  end.

(** [[f(x) for x in xs]] *)
Fixpoint list_comp {S A B} (xs : list A) (f : A → M S B) : M S (list B) :=
  match xs with
  | [] => ret []
  | x :: xs' => y <- f x ;; ys <- list_comp xs' f ;; ret (y :: ys)
  end.

(** ** bytearray *)

(** [ba[i] = value] for a non-negative literal index [i]; the value is
    converted before the index is checked. *)
Definition bytearray_setitem (i : nat) (value : Z) : M bytes unit :=
  ba <- get ;;
  match byte_of_int value with
  | Some b =>
      if decide (i < length ba) then put (<[i := b]> ba)
      else raise (IndexError "bytearray index out of range")
  | None => raise (ValueError "byte must be in range(0, 256)")
  end.

(** [ba[i]] for a non-negative literal index [i]. *)
Definition bytearray_getitem (i : nat) : M bytes Z :=
  ba <- get ;;
  match ba !! i with
  | Some b => ret (int_of_byte b)
  | None => raise (IndexError "bytearray index out of range")
  end.

(** [ba[lo:hi] = value] for literal bounds [lo <= hi] and a bytes value. *)
Definition bytearray_setslice (lo hi : nat) (value : bytes) : M bytes unit :=
  ba <- get ;;
  put (take lo ba ++ value ++ drop hi ba).

(** [ba.extend(value)] *)
Definition bytearray_extend (value : bytes) : M bytes unit :=
  ba <- get ;; put (ba ++ value).

(** ** class Voice *)

Definition marker : bytes := ["026"; "024"; "010"; "022"]%byte.

Record Voice := mkVoice {
  data : bytes;
  is_voice4 : bool;
  has_sampler : bool
}.

(** [self.data] as the state of a bytearray computation. *)
Definition self_data {A} : M bytes A → M Voice A :=
  zoom data (λ d self, mkVoice d (is_voice4 self) (has_sampler self)).

(** Whether [Voice.__init__] prints its marker warning; the warning goes to
    standard output and changes nothing in the object. *)
Definition marker_warning (d : bytes) : bool :=
  bool_decide (slice d 4 8 ≠ marker).

(** [Voice.__init__] *)
Definition Voice_init (d : bytes) : outcome Voice :=
  if bool_decide (len d ∉ [26; 30; 32]%Z) then
    Raise (ValueError ("Voice data must be 26, 30, or 32 bytes, got " +:+ str (len d)))
  else
    Return {| data := d;
              is_voice4 := bool_decide (len d ∈ [30; 32]%Z);
              has_sampler := bool_decide (len d = 32%Z) |}.

(** *** Section accessors *)

Definition Voice_pre_marker_params : M Voice bytes :=
  self <- get ;; ret (slice (data self) 0 4).

Definition Voice_set_pre_marker_params (value : bytes) : M Voice unit :=
  if bool_decide (len value ≠ 4%Z) then
    raise (ValueError "Pre-marker params must be 4 bytes")
  else self_data (bytearray_setslice 0 4 value).

Definition Voice_marker : M Voice bytes :=
  self <- get ;; ret (slice (data self) 4 8).

Definition Voice_parameters : M Voice bytes :=
  self <- get ;; ret (slice (data self) 8 26).

Definition Voice_set_parameters (value : bytes) : M Voice unit :=
  if bool_decide (len value ≠ 18%Z) then
    raise (ValueError "Parameters must be 18 bytes")
  else self_data (bytearray_setslice 8 26 value).

Definition Voice_extra_params : M Voice (option bytes) :=
  self <- get ;;
  if is_voice4 self then ret (Some (slice (data self) 26 30)) else ret None.

Definition Voice_set_extra_params (value : bytes) : M Voice unit :=
  self <- get ;;
  if negb (is_voice4 self) then
    raise (ValueError "Only voice 4 has extra parameters")
  else if bool_decide (len value ≠ 4%Z) then
    raise (ValueError "Extra params must be 4 bytes")
  else self_data (bytearray_setslice 26 30 value).

Definition Voice_sampler_params : M Voice (option bytes) :=
  self <- get ;;
  if has_sampler self then ret (Some (slice (data self) 30 32)) else ret None.

Definition Voice_set_sampler_params (value : bytes) : M Voice unit :=
  self <- get ;;
  if negb (has_sampler self) then
    raise (ValueError "Only FORMAT 2 voice 4 has sampler parameters")
  else if bool_decide (len value ≠ 2%Z) then
    raise (ValueError "Sampler params must be 2 bytes")
  else self_data (bytearray_setslice 30 32 value).

(** *** Toggle switches *)

Definition Voice_algo : M Voice Z := self_data (bytearray_getitem 0).

Definition Voice_set_algo (value : Z) : M Voice unit :=
  if bool_decide (value ∉ [0; 1; 2]%Z) then
    raise (ValueError "ALGO must be 0, 1, or 2")
  else self_data (bytearray_setitem 0 value).

Definition Voice_mode : M Voice Z := self_data (bytearray_getitem 2).

Definition Voice_set_mode (value : Z) : M Voice unit :=
  if bool_decide (value ∉ [0; 1; 2]%Z) then
    raise (ValueError "MODE must be 0, 1, or 2")
  else self_data (bytearray_setitem 2 value).

Definition Voice_vcf : M Voice Z := self_data (bytearray_getitem 24).

Definition Voice_set_vcf (value : Z) : M Voice unit :=
  if bool_decide (value ∉ [0; 1; 2]%Z) then
    raise (ValueError "VCF must be 0, 1, or 2")
  else self_data (bytearray_setitem 24 value).

(** *** Potentiometers *)

Definition Voice_tune : M Voice Z := self_data (bytearray_getitem 9).

Definition Voice_set_tune (value : Z) : M Voice unit :=
  if negb (bool_decide (0 ≤ value ≤ 255)%Z) then
    raise (ValueError "TUNE must be 0-255")
  else self_data (bytearray_setitem 9 value).

Definition Voice_decay : M Voice Z := self_data (bytearray_getitem 17).

Definition Voice_set_decay (value : Z) : M Voice unit :=
  if negb (bool_decide (0 ≤ value ≤ 255)%Z) then
    raise (ValueError "DECAY must be 0-255")
  else self_data (bytearray_setitem 17 value).

Definition Voice_param1 : M Voice Z := self_data (bytearray_getitem 11).

Definition Voice_set_param1 (value : Z) : M Voice unit :=
  if negb (bool_decide (0 ≤ value ≤ 255)%Z) then
    raise (ValueError "PARAM1 must be 0-255")
  else self_data (bytearray_setitem 11 value).

Definition Voice_param2 : M Voice Z := self_data (bytearray_getitem 13).

Definition Voice_set_param2 (value : Z) : M Voice unit :=
  if negb (bool_decide (0 ≤ value ≤ 255)%Z) then
    raise (ValueError "PARAM2 must be 0-255")
  else self_data (bytearray_setitem 13 value).

Definition Voice_cutoff : M Voice Z := self_data (bytearray_getitem 19).

Definition Voice_set_cutoff (value : Z) : M Voice unit :=
  if negb (bool_decide (0 ≤ value ≤ 255)%Z) then
    raise (ValueError "CUTOFF must be 0-255")
  else self_data (bytearray_setitem 19 value).

Definition Voice_drive : M Voice Z := self_data (bytearray_getitem 21).

Definition Voice_set_drive (value : Z) : M Voice unit :=
  if negb (bool_decide (0 ≤ value ≤ 255)%Z) then
    raise (ValueError "DRIVE must be 0-255")
  else self_data (bytearray_setitem 21 value).

Definition Voice_fx_send : M Voice Z := self_data (bytearray_getitem 15).

Definition Voice_set_fx_send (value : Z) : M Voice unit :=
  if negb (bool_decide (0 ≤ value ≤ 255)%Z) then
    raise (ValueError "FX_SEND must be 0-255")
  else self_data (bytearray_setitem 15 value).

Definition Voice_level : M Voice Z := self_data (bytearray_getitem 23).

Definition Voice_set_level (value : Z) : M Voice unit :=
  if negb (bool_decide (0 ≤ value ≤ 255)%Z) then
    raise (ValueError "LEVEL must be 0-255")
  else self_data (bytearray_setitem 23 value).

(** [Voice.to_bytes] *)
Definition Voice_to_bytes : M Voice bytes :=
  self <- get ;; ret (data self).

(** ** The object store *)

Abbreviation loc := nat.
Abbreviation heap := (list Voice).

(** [Voice(data)]: a new object, at an address not used before. *)
Definition new_Voice (d : bytes) : M heap loc :=
  self <- lift (Voice_init d) ;;
  h <- get ;;
  put (h ++ [self]) ;;;
  ret (length h).

(** A method call [voice.m(...)] on the object at address [l]. *)
Definition call {A} (l : loc) (m : M Voice A) : M heap A :=
  λ h, match h !! l with
       | Some self => let '(r, self') := m self in (r, <[l := self']> h)
       | None => (Raise NoSuchObject, h)
       end.

(** The attribute read [voice.data]. *)
Definition Voice_data : M Voice bytes :=
  self <- get ;; ret (data self).

(** ** class Kit *)

Record Kit := mkKit {
  header : bytes;
  voices : list loc
}.

(** [bytearray(n)] for an int [n]: [n] zero bytes.  The allocation is the
    one step of this module whose outcome depends on the machine and not
    only on the arguments: [memory] is the largest buffer the machine
    grants.  A size above [sys.maxsize] (64-bit build) is refused with
    [OverflowError] before any allocation, and [sys.maxsize] itself always
    with [MemoryError]. *)
Definition PY_SSIZE_T_MAX : Z := 2 ^ 63 - 1.

Definition bytearray_new (memory : Z) (n : Z) : outcome bytes :=
  if bool_decide (n > PY_SSIZE_T_MAX)%Z then
    Raise (OverflowError "cannot fit 'int' into an index-sized integer")
  else if bool_decide (n < 0)%Z then
    Raise (ValueError "negative count")
  else if bool_decide (n = PY_SSIZE_T_MAX ∨ n > memory)%Z then
    Raise MemoryError
  else Return (replicate (Z.to_nat n) "000"%byte).

(** [Kit.create_header] on a machine that grants buffers of up to [memory]
    bytes: the header is a local bytearray filled in place. *)
Definition Kit_create_header_on (memory : Z) (header_size voice_format : Z)
    : outcome bytes :=
  if bool_decide (header_size < 7)%Z then
    Raise (ValueError "Header size must be at least 7 bytes")
  else if bool_decide (voice_format ∉ [1; 2]%Z) then
    Raise (ValueError "voice_format must be 1 or 2")
  else
    match bytearray_new memory header_size with
    | Raise e => Raise e
    | Return header =>
        let voice_data_size :=
          (if bool_decide (voice_format = 1%Z) then 108 else 110)%Z in
        let total_size := (header_size + voice_data_size)%Z in
        result_of
          (bytearray_setitem 0 (total_size - 2) ;;;
           bytearray_setitem 1 1 ;;;
           bytearray_setitem 2 8 ;;;
           bytearray_setitem 3 1 ;;;
           bytearray_setitem 4 18 ;;;
           bytearray_setitem 5 (header_size - 2) ;;;
           bytearray_setitem 6 13 ;;;
           get)
          header
    end.

(** [Kit.create_header] where memory is no concern, as in the calls of
    the constructor and of the scripts, which ask for 57 bytes. *)
Definition Kit_create_header (header_size voice_format : Z) : outcome bytes :=
  Kit_create_header_on PY_SSIZE_T_MAX header_size voice_format.

(** The marker scan of [Kit._find_voice_boundaries]. *)
Definition marker_positions (d : bytes) : list Z :=
  filter (λ i, slice d i (i + len marker) = marker)
         (range (len d - len marker + 1)).

(** [Kit._find_voice_boundaries] *)
Definition Kit_find_voice_boundaries (d : bytes) : outcome (list (Z * Z)) :=
  let marker_positions := marker_positions d in
  if bool_decide (len marker_positions ≠ 4%Z) then
    Raise (ValueError ("Expected 4 voice markers, found " +:+ str (len marker_positions)))
  else
    let voice_starts := (λ pos, pos - 4)%Z <$> marker_positions in
    let voice_ends := drop 1 voice_starts ++ [len d] in
    Return (zip voice_starts voice_ends).

(** [bytearray(n)] with the marker written at [4:8], as [Kit.__init__] builds
    its empty voices. *)
Definition empty_voice (n : nat) : bytes :=
  state_after (bytearray_setslice 4 8 marker) (replicate n "000"%byte).

(** [Kit.__init__(data, header)] *)
Definition Kit_init (d : option bytes) (hdr : option bytes) : M heap Kit :=
  match d with
  | Some d =>
      boundaries <- lift (Kit_find_voice_boundaries d) ;;
      match boundaries !! 0 with
      | None => raise (IndexError "list index out of range")
      | Some (header_size, _) =>
          let header := slice d 0 header_size in
          voices <- list_comp boundaries
                      (λ '(start, stop), new_Voice (slice d start stop)) ;;
          ret (mkKit header voices)
      end
  | None =>
      header <- match hdr with
                | Some h => ret h
                | None => lift (Kit_create_header 57 1)
                end ;;
      let empty_voice_26 := empty_voice 26 in
      let empty_voice_30 := empty_voice 30 in
      v1 <- new_Voice empty_voice_26 ;;
      v2 <- new_Voice empty_voice_26 ;;
      v3 <- new_Voice empty_voice_26 ;;
      v4 <- new_Voice empty_voice_30 ;;
      ret (mkKit header [v1; v2; v3; v4])
  end.

(** The file system as the program sees it: the content read from a path. *)
Definition filesystem := string → option bytes.

(** [Kit.from_file] *)
Definition Kit_from_file (fs : filesystem) (filename : string) : M heap Kit :=
  match fs filename with
  | Some d => Kit_init (Some d) None
  | None => raise (FileNotFoundError filename)
  end.

(** [Kit.to_bytes] *)
Fixpoint Kit_to_bytes_loop (result : bytes) (vs : list loc) : M heap bytes :=
  match vs with
  | [] => ret result
  | voice :: vs' =>
      b <- call voice Voice_to_bytes ;;
      Kit_to_bytes_loop (result ++ b) vs'
  end.

Definition Kit_to_bytes (self : Kit) : M heap bytes :=
  Kit_to_bytes_loop (header self) (voices self).

(** [Kit.get_voice]: reads [self] only. *)
Definition Kit_get_voice (self : Kit) (index : Z) : outcome loc :=
  if negb (bool_decide (0 ≤ index < 4)%Z) then
    Raise (ValueError "Voice index must be 0-3")
  else
    match getitem (voices self) index with
    | Some voice => Return voice
    | None => Raise (IndexError "list index out of range")
    end.

(** Methods that mutate a kit run on the kit and the store together. *)
Definition in_heap {A} : M heap A → M (Kit * heap) A :=
  zoom snd (λ h s, (s.1, h)).

Definition get_self : M (Kit * heap) Kit :=
  s <- get ;; ret s.1.

(** [self.voices[index] = voice] for [index >= 0]. *)
Definition voices_setitem (index : Z) (voice : loc) : M (Kit * heap) unit :=
  s <- get ;;
  let '(self, h) := s in
  if decide (Z.to_nat index < length (voices self)) then
    put (mkKit (header self) (<[Z.to_nat index := voice]> (voices self)), h)
  else raise (IndexError "list assignment index out of range").

(** [Kit.set_voice]; the rebinding of the local [voice] is the value the
    first block returns. *)
Definition Kit_set_voice (index : Z) (voice : loc) : M (Kit * heap) unit :=
  if negb (bool_decide (0 ≤ index < 4)%Z) then
    raise (ValueError "Voice index must be 0-3")
  else
    voice' <-
      (if bool_decide (index < 3)%Z then
         d <- in_heap (call voice Voice_data) ;;
         if bool_decide (len d ≠ 26%Z) then
           if bool_decide (len d ∈ [30; 32]%Z) then
             in_heap (new_Voice (slice d 0 26))
           else
             raise (ValueError ("Voice " +:+ str (index + 1) +:+ " must be 26 bytes"))
         else ret voice
       else
         d <- in_heap (call voice Voice_data) ;;
         if bool_decide (len d = 26%Z) then
           self <- get_self ;;
           current_v4_size <-
             (if bool_decide (len (voices self) > 3)%Z then
                match voices self !! 3 with
                | Some v4 => d4 <- in_heap (call v4 Voice_data) ;; ret (len d4)
                | None => raise (IndexError "list index out of range")
                end
              else ret 30%Z) ;;
           let new_data :=
             state_after
               (bytearray_extend ["001"; "000"; "001"; "000"]%byte ;;;
                if bool_decide (current_v4_size = 32%Z)
                then bytearray_extend ["000"; "000"]%byte
                else ret tt)
               d in
           in_heap (new_Voice new_data)
         else if bool_decide (len d ∉ [30; 32]%Z) then
           raise (ValueError "Voice 4 must be 26, 30, or 32 bytes")
         else ret voice) ;;
    voices_setitem index voice'.

(** ** mix_kits *)

(** [enumerate(xs)] *)
Definition enumerate {A} (xs : list A) : list (Z * A) :=
  zip (range (len xs)) xs.

(** The body of the loop of [mix_kits], run on the new kit and the store. *)
Definition mix_kits_body (kits : list Kit) (item : Z * (Z * Z))
    : M (Kit * heap) unit :=
  let '(target_idx, (kit_idx, voice_idx)) := item in
  if bool_decide (kit_idx >= len kits)%Z then
    raise (ValueError ("Kit index " +:+ str kit_idx +:+ " out of range"))
  else if negb (bool_decide (0 ≤ voice_idx < 4)%Z) then
    raise (ValueError ("Voice index " +:+ str voice_idx +:+ " must be 0-3"))
  else
    match getitem kits kit_idx with
    | None => raise (IndexError "list index out of range")
    | Some kit =>
        source_voice <- lift (Kit_get_voice kit voice_idx) ;;
        Kit_set_voice target_idx source_voice
    end.

Definition mix_kits (fs : filesystem) (kit_files : list string)
    (voice_selections : list (Z * Z)) : M heap Kit :=
  if bool_decide (len voice_selections ≠ 4%Z) then
    raise (ValueError "Must select exactly 4 voices")
  else
    kits <- list_comp kit_files (Kit_from_file fs) ;;
    new_kit <- Kit_init None None ;;
    match kits !! 0 with
    | None => raise (IndexError "list index out of range")
    | Some kit0 =>
        let new_kit := mkKit (header kit0) (voices new_kit) in
        r <- with_local new_kit
               (for_each (enumerate voice_selections) (mix_kits_body kits)) ;;
        ret r.2
    end.

(** ** The scripts' helpers ([src/pykons/scripts]) *)

(** The format specification [{n:02d}]: decimal, padded with a zero to two
    characters; a sign counts towards the width. *)
Definition format_02d (n : Z) : string :=
  if decide (String.length (str n) < 2) then "0" +:+ str n else str n.

(** [format_kit_filename] of [randomise_kits.py] and [vary_kit.py] *)
Definition format_kit_filename (kit_number : Z) : string :=
  format_02d kit_number +:+ ".KIT".

(** [format_kit_ranges] of [list_card.py]; the loop state is
    [(ranges, start, end)]. *)
Definition format_kit_ranges_step (st : list string * Z * Z) (num : Z)
    : list string * Z * Z :=
  let '(ranges, start, end_) := st in
  if decide (num = end_ + 1)%Z then (ranges, start, num)
  else
    (ranges ++ [if decide (start = end_) then str start
                else str start +:+ ".." +:+ str end_],
     num, num).

Definition format_kit_ranges (kit_numbers : list Z) : string :=
  match kit_numbers with
  | [] => ""
  | first :: rest =>
      let '(ranges, start, end_) :=
        foldl format_kit_ranges_step ([], first, first) rest in
      let ranges :=
        ranges ++ [if decide (start = end_) then str start
                   else str start +:+ ".." +:+ str end_] in
      String.concat ", " ranges
  end.

(** A run [start..end] as [format_kit_ranges] prints it, and the numbers it
    stands for. *)
Definition show_run (r : Z * Z) : string :=
  if decide (r.1 = r.2) then str r.1 else str r.1 +:+ ".." +:+ str r.2.

Definition expand_run (r : Z * Z) : list Z :=
  (λ i, r.1 + Z.of_nat i)%Z <$> seq 0 (Z.to_nat (r.2 - r.1 + 1)).

(** No run could have been merged with the one before it. *)
Definition runs_maximal (rs : list (Z * Z)) : Prop :=
  ∀ i r1 r2, rs !! i = Some r1 → rs !! S i = Some r2 → r2.1 ≠ (r1.2 + 1)%Z.

(** *** The generators of [randomise_kits.py] and [vary_kit.py] *)

(** The state of the [random] module: the stream of raw numbers the
    generator is going to draw. *)
Definition rng : Type := nat → nat.

(** [_randbelow(n)], for [n > 0]: a number below [n]; the generator moves
    on by one draw. *)
Definition randbelow (n : nat) : M rng nat :=
  λ g, (Return (g 0 mod n), λ i, g (S i)).

(** [random.choice(seq)] *)
Definition random_choice {A} (seq : list A) : M rng A :=
  if decide (length seq = 0) then
    raise (IndexError "Cannot choose from an empty sequence")
  else
    j <- randbelow (length seq) ;;
    match seq !! j with
    | Some x => ret x
    | None => raise (IndexError "list index out of range")
    end.

(** [random.sample(population, k)] for a population of at most 21 elements:
    round [i] draws [j] below [n - i], takes [pool[j]] as [result[i]] and
    moves [pool[n - i - 1]] into the vacancy. *)
Fixpoint random_sample_loop {A} (n : nat) (rounds : list nat)
    (pool result : list A) : M rng (list A) :=
  match rounds with
  | [] => ret result
  | i :: rounds' =>
      j <- randbelow (n - i) ;;
      match pool !! j, pool !! (n - i - 1) with
      | Some x, Some y =>
          random_sample_loop n rounds' (<[j := y]> pool) (result ++ [x])
      | _, _ => raise (IndexError "list index out of range")
      end
  end.

Definition random_sample {A} (population : list A) (k : Z) : M rng (list A) :=
  let n := length population in
  if negb (bool_decide (0 ≤ k ≤ Z.of_nat n)%Z) then
    raise (ValueError "Sample larger than population or is negative")
  else random_sample_loop n (seq 0 (Z.to_nat k)) population [].

(** The scripts run on the store and the generator; inside a loop the kit
    being built is a local object beside them. *)
Definition on_heap {A} : M heap A → M (heap * rng) A :=
  zoom fst (λ h s, (h, s.2)).

Definition with_rng {A} : M rng A → M (Kit * (heap * rng)) A :=
  zoom (λ s, s.2.2) (λ g s, (s.1, (s.2.1, g))).

Definition with_kit {A} : M (Kit * heap) A → M (Kit * (heap * rng)) A :=
  zoom (λ s, (s.1, s.2.1)) (λ t s, (t.1, (t.2, s.2.2))).

(** [select_header_for_format2] of [randomise_kits.py]; the comprehension
    [[kit for kit in input_kits if len(kit.voices[3].data) == 32]] first. *)
Fixpoint format2_kits (input_kits : list Kit) : M heap (list Kit) :=
  match input_kits with
  | [] => ret []
  | kit :: input_kits' =>
      keep <- match voices kit !! 3 with
              | Some v4 =>
                  d <- call v4 Voice_data ;; ret (bool_decide (len d = 32%Z))
              | None => raise (IndexError "list index out of range")
              end ;;
      rest <- format2_kits input_kits' ;;
      ret (if keep : bool then kit :: rest else rest)
  end.

Definition select_header_for_format2 (input_kits : list Kit)
    : M heap bytes :=
  format2_kits <- format2_kits input_kits ;;
  match format2_kits with
  | template_kit :: _ => ret (header template_kit)
  | [] => lift (Kit_create_header 57 2)
  end.

(** [generate_random_kit] of [randomise_kits.py] *)
Definition generate_random_kit_body (input_kits : list Kit) (voice_idx : Z)
    : M (Kit * (heap * rng)) unit :=
  source_kit <- with_rng (random_choice input_kits) ;;
  source_voice <- lift (Kit_get_voice source_kit voice_idx) ;;
  with_kit (Kit_set_voice voice_idx source_voice).

Definition generate_random_kit (input_kits : list Kit) (output_format : Z)
    (template_header : option bytes) : M (heap * rng) Kit :=
  new_kit <-
    match template_header with
    | Some template_header => on_heap (Kit_init None (Some template_header))
    | None =>
        new_kit <- on_heap (Kit_init None None) ;;
        header <- lift (Kit_create_header 57 output_format) ;;
        ret (mkKit header (voices new_kit))
    end ;;
  r <- with_local new_kit
         (for_each (range 4) (generate_random_kit_body input_kits)) ;;
  ret r.2.

(** [generate_variation] of [vary_kit.py]; the body of its second loop
    first. *)
Definition generate_variation_body (mutation_kits : list Kit) (voice_idx : Z)
    : M (Kit * (heap * rng)) unit :=
  mutation_source <- with_rng (random_choice mutation_kits) ;;
  replacement_voice <- lift (Kit_get_voice mutation_source voice_idx) ;;
  with_kit (Kit_set_voice voice_idx replacement_voice).

Definition generate_variation (source_kit : Kit) (mutation_kits : list Kit)
    (n_mutations : Z) : M (heap * rng) (Kit * list Z) :=
  variation <- on_heap (Kit_init None None) ;;
  let variation := mkKit (header source_kit) (voices variation) in
  r <- with_local variation
         (for_each (range 4)
            (λ i, voice <- lift (Kit_get_voice source_kit i) ;;
                  with_kit (Kit_set_voice i voice)) ;;;
          let voice_indices := range 4 in
          voices_to_mutate <- with_rng (random_sample voice_indices n_mutations) ;;
          for_each voices_to_mutate (generate_variation_body mutation_kits) ;;;
          ret voices_to_mutate) ;;
  ret (r.2, r.1).

(** *** [delete_bank.py] *)

(** [range(lo, hi)] *)
Definition range2 (lo hi : Z) : list Z :=
  (λ i, lo + Z.of_nat i)%Z <$> seq 0 (Z.to_nat (hi - lo)).

(** The [KITS] directory of a bank: the file names present in it. *)
Definition directory : Type := string → bool.

(** [kit_path.unlink()] when it succeeds. *)
Definition unlink (name : string) (d : directory) : directory :=
  λ n, if String.eqb n name then false else d n.

Definition newline : string := String (Ascii.ascii_of_nat 10) "".

(** [get_kit_ranges_for_cleaning]; [None] stands for the triple of
    [None]s. *)
Definition get_kit_ranges_for_cleaning (bank_id : string)
    : option (list Z * list Z * string) :=
  if String.eqb bank_id "01" then
    Some (range2 0 32, range2 32 64, "kits 32-63")
  else if String.eqb bank_id "02" then
    Some (range2 0 32, range2 32 64, "kits 00-31")
  else None.

(** [clean_source_bank]: [kits_path] is the [KITS] directory, if it
    exists; [failure name] is the text of the exception [unlink] raises on
    the file, if it raises.  The loop state is
    [(directory, deleted_count, errors)]. *)
Definition clean_source_bank_step (failure : string → option string)
    (st : directory * Z * list string) (kit_num : Z)
    : directory * Z * list string :=
  let '(d, deleted_count, errors) := st in
  let kit_filename := format_02d kit_num +:+ ".KIT" in
  if d kit_filename then
    match failure kit_filename with
    | None => (unlink kit_filename d, (deleted_count + 1)%Z, errors)
    | Some e =>
        (d, deleted_count,
         errors ++ ["Failed to delete " +:+ kit_filename +:+ ": " +:+ e])
    end
  else st.

Definition clean_source_bank (failure : string → option string)
    (kits_path : option directory) (bank_id : string)
    : (bool * string * Z) * option directory :=
  match get_kit_ranges_for_cleaning bank_id with
  | None => ((false, "Invalid bank ID for cleaning", 0%Z), kits_path)
  | Some (keep_range, delete_range, description) =>
      match kits_path with
      | None =>
          ((true,
            "Bank " +:+ bank_id +:+ " has no KITS directory (nothing to clean)",
            0%Z), None)
      | Some d =>
          let '(d', deleted_count, errors) :=
            foldl (clean_source_bank_step failure) (d, 0%Z, []) delete_range in
          match errors with
          | _ :: _ =>
              let error_msg := String.concat (newline +:+ "  ") errors in
              ((false,
                "Partial clean - some errors occurred:" +:+ newline +:+ "  "
                  +:+ error_msg,
                deleted_count), Some d')
          | [] =>
              ((true,
                "Successfully cleaned bank " +:+ bank_id +:+ " ("
                  +:+ description +:+ " removed)",
                deleted_count), Some d')
          end
      end
  end.

(** ** Vocabulary of the specification *)

(** The eight potentiometer fields, with the getter and setter of each. *)
Inductive pot := TUNE | DECAY | PARAM1 | PARAM2 | CUTOFF | DRIVE | FX_SEND | LEVEL.

Definition pot_get (f : pot) : M Voice Z :=
  match f with
  | TUNE => Voice_tune | DECAY => Voice_decay
  | PARAM1 => Voice_param1 | PARAM2 => Voice_param2
  | CUTOFF => Voice_cutoff | DRIVE => Voice_drive
  | FX_SEND => Voice_fx_send | LEVEL => Voice_level
  end.

Definition pot_set (f : pot) : Z → M Voice unit :=
  match f with
  | TUNE => Voice_set_tune | DECAY => Voice_set_decay
  | PARAM1 => Voice_set_param1 | PARAM2 => Voice_set_param2
  | CUTOFF => Voice_set_cutoff | DRIVE => Voice_set_drive
  | FX_SEND => Voice_set_fx_send | LEVEL => Voice_set_level
  end.

(** The three toggle fields. *)
Inductive toggle := ALGO | MODE | VCF.

Definition toggle_set (t : toggle) : Z → M Voice unit :=
  match t with
  | ALGO => Voice_set_algo | MODE => Voice_set_mode | VCF => Voice_set_vcf
  end.

(** Every setter of [Voice], with its argument. *)
Inductive setter :=
| SetToggle (t : toggle) (value : Z)
| SetPot (f : pot) (value : Z)
| SetPreMarkerParams (value : bytes)
| SetParameters (value : bytes)
| SetExtraParams (value : bytes)
| SetSamplerParams (value : bytes).

Definition apply_setter (op : setter) : M Voice unit :=
  match op with
  | SetToggle t value => toggle_set t value
  | SetPot f value => pot_set f value
  | SetPreMarkerParams value => Voice_set_pre_marker_params value
  | SetParameters value => Voice_set_parameters value
  | SetExtraParams value => Voice_set_extra_params value
  | SetSamplerParams value => Voice_set_sampler_params value
  end.

(** A voice over its lifetime: setters applied one after the other, each to
    the object as the previous call left it, whether that call returned or
    raised. *)
Definition apply_setters (ops : list setter) (self : Voice) : Voice :=
  foldl (λ v op, state_after (apply_setter op) v) self ops.

(** The kind of a voice, derived from the length of its buffer. *)
Inductive kind := Standard | Extended | Sampler.

Definition kind_of (self : Voice) : option kind :=
  if decide (length (data self) = 26) then Some Standard
  else if decide (length (data self) = 30) then Some Extended
  else if decide (length (data self) = 32) then Some Sampler
  else None.

(** A voice as [Voice.__init__] leaves it. *)
Definition Voice_ok (self : Voice) : Prop :=
  (length (data self) = 26 ∨ length (data self) = 30 ∨ length (data self) = 32) ∧
  is_voice4 self = bool_decide (length (data self) = 30 ∨ length (data self) = 32) ∧
  has_sampler self = bool_decide (length (data self) = 32).

(** Whether a section getter returns bytes rather than [None]. *)
Definition available (getter : M Voice (option bytes)) (self : Voice) : bool :=
  match result_of getter self with
  | Return (Some _) => true
  | _ => false
  end.

(** [ValueOutOfRange]: the [ValueError] of a potentiometer setter. *)
Definition ValueOutOfRange (f : pot) : exn :=
  ValueError (match f with
              | TUNE => "TUNE" | DECAY => "DECAY"
              | PARAM1 => "PARAM1" | PARAM2 => "PARAM2"
              | CUTOFF => "CUTOFF" | DRIVE => "DRIVE"
              | FX_SEND => "FX_SEND" | LEVEL => "LEVEL"
              end +:+ " must be 0-255").

(** [MalformedKitError]: the [ValueError] of the marker count. *)
Definition MalformedKitError (found : Z) : exn :=
  ValueError ("Expected 4 voice markers, found " +:+ str found).

(** [decode] and [encode] of the specification. *)
Definition decode (b : bytes) : M heap Kit := Kit_init (Some b) None.
Definition encode (k : Kit) : M heap bytes := Kit_to_bytes k.

(** The bytes a kit holds: its header and the buffer of each of its voices,
    read through the store. *)
Definition voice_bytes (h : heap) (l : loc) : option bytes := data <$> h !! l.
Definition kit_bytes (k : Kit) (h : heap) : bytes * list (option bytes) :=
  (header k, voice_bytes h <$> voices k).

(** The number of positions at which the marker occurs in a buffer, every
    position counted. *)
Definition marker_count (b : bytes) : nat :=
  length (filter (λ i, take 4 (drop i b) = marker) (seq 0 (length b))).

(** The bytes [set_voice] is to store at [index] for a supplied buffer [d],
    [d4] being the buffer of the kit's current slot-3 voice: the first 26
    bytes in slots 0-2; in slot 3 a 26-byte buffer followed by [1,0,1,0] and,
    iff [d4] has 32 bytes, by [0,0], and any other buffer as it is. *)
Definition placed (index : Z) (d4 d : bytes) : bytes :=
  if decide (index < 3)%Z then take 26 d
  else if decide (length d = 26) then
    d ++ ["001"; "000"; "001"; "000"]%byte
      ++ (if decide (length d4 = 32) then ["000"; "000"]%byte else [])
  else d.

(** Every mutating operation on a kit and its voices. *)
Inductive mutation :=
| OnVoice (voice : loc) (op : setter)
| SetVoice (index : Z) (voice : loc).

Definition mutate (m : mutation) : M (Kit * heap) unit :=
  match m with
  | OnVoice voice op => in_heap (call voice (apply_setter op))
  | SetVoice index voice => Kit_set_voice index voice
  end.

(** ** Further vocabulary: fields and sections of a voice *)

Definition toggle_get (t : toggle) : M Voice Z :=
  match t with
  | ALGO => Voice_algo | MODE => Voice_mode | VCF => Voice_vcf
  end.

(** The [ValueError] of a toggle setter. *)
Definition ToggleOutOfRange (t : toggle) : exn :=
  ValueError (match t with ALGO => "ALGO" | MODE => "MODE" | VCF => "VCF" end
              +:+ " must be 0, 1, or 2").

(** The eleven scalar fields, and the byte the module's layout table gives
    each (docstring of [kit_tools.py], "Each voice structure"). *)
Inductive field :=
| FToggle (t : toggle)
| FPot (f : pot).

Definition field_get (f : field) : M Voice Z :=
  match f with FToggle t => toggle_get t | FPot p => pot_get p end.

Definition field_set (f : field) : Z → M Voice unit :=
  match f with FToggle t => toggle_set t | FPot p => pot_set p end.

Definition field_offset (f : field) : nat :=
  match f with
  | FToggle ALGO => 0 | FToggle MODE => 2 | FToggle VCF => 24
  | FPot TUNE => 9 | FPot PARAM1 => 11 | FPot PARAM2 => 13
  | FPot FX_SEND => 15 | FPot DECAY => 17 | FPot CUTOFF => 19
  | FPot DRIVE => 21 | FPot LEVEL => 23
  end.

(** The values a field accepts. *)
Definition field_accepts (f : field) (value : Z) : Prop :=
  match f with
  | FToggle _ => value = 0%Z ∨ value = 1%Z ∨ value = 2%Z
  | FPot _ => (0 ≤ value ≤ 255)%Z
  end.

(** The four sections with a setter. *)
Inductive section := PreMarker | Parameters | ExtraParams | SamplerParams.

Definition section_get (s : section) : M Voice (option bytes) :=
  match s with
  | PreMarker => b <- Voice_pre_marker_params ;; ret (Some b)
  | Parameters => b <- Voice_parameters ;; ret (Some b)
  | ExtraParams => Voice_extra_params
  | SamplerParams => Voice_sampler_params
  end.

Definition section_set (s : section) : bytes → M Voice unit :=
  match s with
  | PreMarker => Voice_set_pre_marker_params
  | Parameters => Voice_set_parameters
  | ExtraParams => Voice_set_extra_params
  | SamplerParams => Voice_set_sampler_params
  end.

(** First byte and width of a section, and the buffer lengths that have it. *)
Definition section_start (s : section) : nat :=
  match s with
  | PreMarker => 0 | Parameters => 8 | ExtraParams => 26 | SamplerParams => 30
  end.

Definition section_width (s : section) : nat :=
  match s with
  | PreMarker => 4 | Parameters => 18 | ExtraParams => 4 | SamplerParams => 2
  end.

Definition section_present (s : section) (n : nat) : Prop :=
  match s with
  | PreMarker | Parameters => True
  | ExtraParams => n = 30 ∨ n = 32
  | SamplerParams => n = 32
  end.

(** The two errors of a section setter. *)
Definition SectionUnavailable (s : section) : exn :=
  ValueError (match s with
              | ExtraParams => "Only voice 4 has extra parameters"
              | SamplerParams => "Only FORMAT 2 voice 4 has sampler parameters"
              | _ => ""
              end).

Definition SectionLengthMismatch (s : section) : exn :=
  ValueError (match s with
              | PreMarker => "Pre-marker params must be 4 bytes"
              | Parameters => "Parameters must be 18 bytes"
              | ExtraParams => "Extra params must be 4 bytes"
              | SamplerParams => "Sampler params must be 2 bytes"
              end).

(** The bytes a setter may write: first byte and width. *)
Definition footprint (op : setter) : nat * nat :=
  match op with
  | SetToggle t _ => (field_offset (FToggle t), 1)
  | SetPot f _ => (field_offset (FPot f), 1)
  | SetPreMarkerParams _ => (section_start PreMarker, section_width PreMarker)
  | SetParameters _ => (section_start Parameters, section_width Parameters)
  | SetExtraParams _ => (section_start ExtraParams, section_width ExtraParams)
  | SetSamplerParams _ => (section_start SamplerParams, section_width SamplerParams)
  end.

(** ** Further vocabulary: kits *)

(** A kit with four voices, each an object of the store. *)
Definition kit_in_store (k : Kit) (h : heap) : Prop :=
  length (voices k) = 4 ∧ ∀ l, l ∈ voices k → is_Some (h !! l).

(** The buffer length a slot is meant to hold: 26 bytes in slots 0-2, 30 or
    32 bytes in slot 3 (note of [Kit.set_voice]). *)
Definition slot_length_ok (i : nat) (n : nat) : Prop :=
  if decide (i < 3) then n = 26 else n = 30 ∨ n = 32.

Definition kit_shape (k : Kit) (h : heap) : Prop :=
  length (voices k) = 4 ∧
  ∀ i l, voices k !! i = Some l →
         ∃ v, h !! l = Some v ∧ slot_length_ok i (length (data v)).

(** The [ValueError] of [Voice.__init__]. *)
Definition InvalidVoiceLength (got : Z) : exn :=
  ValueError ("Voice data must be 26, 30, or 32 bytes, got " +:+ str got).

(** The positions at which the marker occurs in a buffer, and the four
    empty voices [Kit.__init__] builds, as they are encoded. *)
Definition occurrences (b : bytes) : list nat :=
  filter (λ i, take 4 (drop i b) = marker) (seq 0 (length b)).

Definition empty_voices : bytes :=
  empty_voice 26 ++ empty_voice 26 ++ empty_voice 26 ++ empty_voice 30.

(** A kit whose slot-3 voice has the 32 bytes of sub-format 2. *)
Definition is_format2 (h : heap) (kit : Kit) : Prop :=
  ∃ l v, voices kit !! 3 = Some l ∧ h !! l = Some v ∧ length (data v) = 32.

(** ** Example objects *)

Definition standard_voice : Voice := mkVoice (empty_voice 26) false false.
Definition extended_voice : Voice := mkVoice (empty_voice 30) true false.
Definition sampler_voice : Voice := mkVoice (empty_voice 32) true true.

(** A store with the four voices of a sub-format 2 kit at addresses 0-3 and
    three further voices, one of each kind, at addresses 4-6. *)
Definition example_store : heap :=
  [standard_voice; standard_voice; standard_voice; sampler_voice;
   standard_voice; extended_voice; sampler_voice].

Definition example_kit : Kit :=
  {| header := replicate 57 "000"%byte; voices := [0; 1; 2; 3] |}.

(** The file of a kit with a synthesized 57-byte header and empty voices. *)
Definition example_file (sub_format : Z) : bytes :=
  match Kit_create_header 57 sub_format with
  | Return hdr =>
      hdr ++ empty_voice 26 ++ empty_voice 26 ++ empty_voice 26
          ++ empty_voice (if decide (sub_format = 1%Z) then 30 else 32)
  | Raise _ => []
  end.

(** A file system with a sub-format 1 kit and a sub-format 2 kit. *)
Definition example_fs : filesystem :=
  λ filename,
    if String.eqb filename "a.kit" then Some (example_file 1)
    else if String.eqb filename "b.kit" then Some (example_file 2)
    else None.

(** * Properties *)

(** ** The monad and Python's sequences *)

Ltac unfold_monad :=
  unfold bind, ret, raise, get, put, lift, zoom, result_of, state_after,
         with_local in *.

Lemma Voice_eta (self : Voice) :
  mkVoice (data self) (is_voice4 self) (has_sampler self) = self.
Proof. by destruct self. Qed.

Lemma len_nonneg {A} (l : list A) : (0 ≤ len l)%Z.
Proof. unfold len. lia. Qed.

Lemma adjust_index_bounds n i :
  (0 ≤ n)%Z → (0 ≤ adjust_index n i ≤ n)%Z.
Proof. intros. unfold adjust_index. case_decide; lia. Qed.

Lemma length_slice {A} (l : list A) lo hi :
  len (slice l lo hi) =
  Z.max 0 (adjust_index (len l) hi - adjust_index (len l) lo).
Proof.
  unfold slice, len.
  pose proof (adjust_index_bounds (len l) lo (len_nonneg l)) as Hlo.
  pose proof (adjust_index_bounds (len l) hi (len_nonneg l)) as Hhi.
  unfold len in *. rewrite length_take, length_drop. lia.
Qed.

Lemma slice_take_drop {A} (l : list A) lo hi :
  (0 ≤ lo)%Z → (0 ≤ hi ≤ len l)%Z →
  slice l lo hi = take (Z.to_nat hi - Z.to_nat lo) (drop (Z.to_nat lo) l).
Proof.
  intros Hlo Hhi. unfold slice, adjust_index.
  repeat case_decide; try lia.
  destruct (decide (lo ≤ len l)%Z).
  - f_equal; [lia|]. f_equal. lia.
  - rewrite !drop_ge by (unfold len in *; lia). by rewrite !take_nil.
Qed.

(** ** Voice *)

Lemma Voice_init_Return d self :
  Voice_init d = Return self ↔
  (length d = 26 ∨ length d = 30 ∨ length d = 32) ∧
  self = mkVoice d (bool_decide (len d ∈ [30; 32]%Z)) (bool_decide (len d = 32%Z)).
Proof.
  unfold Voice_init. case_bool_decide as Hl.
  - split; [done|]. intros [Hd _]. exfalso. apply Hl.
    unfold len. rewrite !elem_of_cons. lia.
  - unfold len in Hl. rewrite !elem_of_cons in Hl.
    split.
    + intros [= <-]. split; [|done]. rewrite elem_of_nil in Hl. lia.
    + by intros [_ ->].
Qed.

Lemma Voice_init_ok d self : Voice_init d = Return self → Voice_ok self ∧ data self = d.
Proof.
  intros [Hl ->]%Voice_init_Return. split; [|done]. split; [done|]. simpl.
  split; apply bool_decide_ext; unfold len; rewrite ?elem_of_cons, ?elem_of_nil; lia.
Qed.

Lemma apply_setter_raise op self e self' :
  apply_setter op self = (Raise e, self') → self' = self.
Proof.
  destruct op as [[]|[]| | | |]; simpl;
    unfold Voice_set_algo, Voice_set_mode, Voice_set_vcf, Voice_set_tune,
      Voice_set_decay, Voice_set_param1, Voice_set_param2, Voice_set_cutoff,
      Voice_set_drive, Voice_set_fx_send, Voice_set_level,
      Voice_set_pre_marker_params, Voice_set_parameters,
      Voice_set_extra_params, Voice_set_sampler_params, self_data,
      bytearray_setitem, bytearray_setslice;
    unfold_monad; simpl;
    repeat first [case_bool_decide | case_decide | case_match]; simpl;
    intros; simplify_eq; try done; by rewrite ?Voice_eta.
Qed.

Ltac unfold_setters :=
  unfold Voice_set_algo, Voice_set_mode, Voice_set_vcf, Voice_set_tune,
    Voice_set_decay, Voice_set_param1, Voice_set_param2, Voice_set_cutoff,
    Voice_set_drive, Voice_set_fx_send, Voice_set_level,
    Voice_set_pre_marker_params, Voice_set_parameters,
    Voice_set_extra_params, Voice_set_sampler_params, self_data,
    bytearray_setitem, bytearray_setslice in *.

Lemma apply_setter_length op self :
  Voice_ok self →
  let self' := state_after (apply_setter op) self in
  length (data self') = length (data self) ∧
  is_voice4 self' = is_voice4 self ∧
  has_sampler self' = has_sampler self.
Proof.
  intros (Hlen & H4 & Hs). destruct self as [d v4 s]. simpl in *. subst v4 s.
  destruct op as [[]|[]| | | |]; simpl; unfold_setters; unfold_monad; simpl;
    repeat first [case_bool_decide | case_decide | case_match]; simpl in *;
    simplify_eq; try done;
    rewrite ?length_insert, ?length_app, ?length_take, ?length_drop;
    unfold len in *; (split; [|done]); lia.
Qed.

Lemma apply_setter_ok op self :
  Voice_ok self → Voice_ok (state_after (apply_setter op) self).
Proof.
  intros Hok. destruct (apply_setter_length op self Hok) as (Hl & H4 & Hs).
  destruct Hok as (? & ? & ?). unfold Voice_ok. rewrite Hl, H4, Hs. done.
Qed.

Lemma apply_setters_length ops self :
  Voice_ok self →
  Voice_ok (apply_setters ops self) ∧
  length (data (apply_setters ops self)) = length (data self) ∧
  is_voice4 (apply_setters ops self) = is_voice4 self ∧
  has_sampler (apply_setters ops self) = has_sampler self.
Proof.
  unfold apply_setters. revert self.
  induction ops as [|op ops IH]; intros self Hok; simpl; [done|].
  destruct (IH _ (apply_setter_ok op self Hok)) as (Hok' & -> & -> & ->).
  split; [done|]. by apply apply_setter_length.
Qed.

Lemma kind_of_length v w :
  length (data v) = length (data w) → kind_of v = kind_of w.
Proof. unfold kind_of. by intros ->. Qed.

Lemma available_extra_params self :
  available Voice_extra_params self = is_voice4 self.
Proof. unfold available, Voice_extra_params. unfold_monad. by destruct (is_voice4 self). Qed.

Lemma available_sampler_params self :
  available Voice_sampler_params self = has_sampler self.
Proof. unfold available, Voice_sampler_params. unfold_monad. by destruct (has_sampler self). Qed.

(** C10: a voice built by [Voice.__init__] has a buffer of 26, 30 or 32
    bytes, and whatever setters are then called on it, in any number and
    each returning or raising, the buffer keeps the length it was built
    with; so the kind derived from the length and the availability of the
    extra-params and sampler-params sections stay what they were. *)
Theorem voice_length_invariant (d : bytes) (self : Voice) (ops : list setter) :
  Voice_init d = Return self →
  (length d = 26 ∨ length d = 30 ∨ length d = 32) ∧
  length (data (apply_setters ops self)) = length d ∧
  kind_of (apply_setters ops self) = kind_of self ∧
  is_Some (kind_of self) ∧
  available Voice_extra_params (apply_setters ops self)
    = available Voice_extra_params self ∧
  available Voice_sampler_params (apply_setters ops self)
    = available Voice_sampler_params self.
Proof.
  intros [Hok Hd]%Voice_init_ok.
  destruct (apply_setters_length ops self Hok) as (_ & Hl & H4 & Hs).
  rewrite !available_extra_params, !available_sampler_params.
  destruct Hok as (Hlen & _).
  repeat split; try done.
  - by rewrite <- Hd.
  - by rewrite Hl, Hd.
  - by apply kind_of_length.
  - unfold kind_of. repeat case_decide; eauto. lia.
Qed.

Lemma voice_length_invariant_witness :
  Voice_init (empty_voice 30) = Return (mkVoice (empty_voice 30) true false) ∧
  length (data (apply_setters
                  [SetPot TUNE 7; SetPot LEVEL 256; SetExtraParams marker;
                   SetSamplerParams []; SetToggle VCF 2]
                  (mkVoice (empty_voice 30) true false))) = 30.
Proof.
  split; [reflexivity|].
  apply (voice_length_invariant (empty_voice 30)). reflexivity.
Defined.

Lemma byte_of_int_Some value b :
  byte_of_int value = Some b → int_of_byte b = value.
Proof.
  unfold byte_of_int, int_of_byte. case_decide; [|done].
  intros ->%Byte.to_of_N. lia.
Qed.

Lemma byte_of_int_is_Some value :
  (0 ≤ value ≤ 255)%Z → is_Some (byte_of_int value).
Proof.
  intros Hv. unfold byte_of_int. case_decide; [|lia].
  destruct (Byte.of_N (Z.to_N value)) eqn:E; [eauto|].
  apply Byte.of_N_None_iff in E. lia.
Qed.

Lemma byte_of_int_None value :
  byte_of_int value = None ↔ ¬ (0 ≤ value ≤ 255)%Z.
Proof.
  split.
  - intros E Hv. destruct (byte_of_int_is_Some value Hv). congruence.
  - intros Hv. unfold byte_of_int. case_decide; [|done].
    apply Byte.of_N_None_iff. lia.
Qed.

Ltac unfold_getters :=
  unfold Voice_tune, Voice_decay, Voice_param1, Voice_param2, Voice_cutoff,
    Voice_drive, Voice_fx_send, Voice_level, Voice_algo, Voice_mode,
    Voice_vcf, self_data, bytearray_getitem in *.

(** C8: on every voice built by [Voice.__init__] and for each of the eight
    potentiometer fields, the setter raises exactly when the value lies
    outside 0..255, the exception then being the field's [ValueError]
    (the specification's ValueOutOfRange); so 256 is refused and 0 and 255
    are accepted.  When the setter returns, the getter of the same field
    returns the value that was set. *)
Theorem potentiometer_range_and_readback
    (d : bytes) (self : Voice) (f : pot) (value : Z) :
  Voice_init d = Return self →
  ((∃ e, result_of (pot_set f value) self = Raise e) ↔ ¬ (0 ≤ value ≤ 255)%Z) ∧
  (∀ e, result_of (pot_set f value) self = Raise e → e = ValueOutOfRange f) ∧
  (result_of (pot_set f value) self = Return tt →
   result_of (pot_get f) (state_after (pot_set f value) self) = Return value).
Proof.
  intros [(Hlen & _) _]%Voice_init_ok.
  destruct self as [ds v4 s]. simpl in Hlen.
  destruct (decide (0 ≤ value ≤ 255)%Z) as [Hv|Hv].
  - destruct (byte_of_int_is_Some value Hv) as [b Hb].
    pose proof (byte_of_int_Some _ _ Hb) as Hrb.
    destruct f; simpl; unfold_setters; unfold_getters; unfold_monad; simpl;
      rewrite bool_decide_true by done; simpl;
      rewrite Hb; (case_decide; [|lia]); simpl;
      rewrite list_lookup_insert_eq by lia; rewrite Hrb;
      (split; [split; [by intros [? ?]|done]|]); (split; [done|done]).
  - destruct f; simpl; unfold_setters; unfold_getters; unfold_monad; simpl;
      rewrite bool_decide_false by done; simpl;
      (split; [split; [done|eauto]|]); (split; [by intros ? [= <-]|done]).
Qed.

Lemma potentiometer_range_and_readback_witness :
  Voice_init (empty_voice 26) = Return (mkVoice (empty_voice 26) false false) ∧
  result_of (pot_get LEVEL)
    (state_after (pot_set LEVEL 255) (mkVoice (empty_voice 26) false false))
  = Return 255%Z.
Proof.
  split; [reflexivity|].
  apply (potentiometer_range_and_readback (empty_voice 26)); reflexivity.
Defined.

(** ** Kit.create_header *)

Lemma bytearray_setitem_Some i value b ba :
  i < length ba → byte_of_int value = Some b →
  bytearray_setitem i value ba = (Return tt, <[i := b]> ba).
Proof.
  intros Hi Hb. unfold bytearray_setitem. unfold_monad.
  rewrite Hb. by case_decide.
Qed.

Lemma bytearray_setitem_None i value ba :
  i < length ba → byte_of_int value = None →
  bytearray_setitem i value ba
  = (Raise (ValueError "byte must be in range(0, 256)"), ba).
Proof.
  intros Hi Hb. unfold bytearray_setitem. unfold_monad.
  by rewrite Hb.
Qed.

Lemma bind_Return {S A B} (m : M S A) (k : A → M S B) s a s' :
  m s = (Return a, s') → bind m k s = k a s'.
Proof. unfold bind. by intros ->. Qed.

Lemma bind_Raise {S A B} (m : M S A) (k : A → M S B) s e s' :
  m s = (Raise e, s') → bind m k s = (Raise e, s').
Proof. unfold bind. by intros ->. Qed.

Lemma bytearray_new_Return memory n :
  (0 ≤ n < PY_SSIZE_T_MAX)%Z → (n ≤ memory)%Z →
  bytearray_new memory n = Return (replicate (Z.to_nat n) "000"%byte).
Proof.
  intros Hn Hm. unfold bytearray_new.
  rewrite !bool_decide_false by lia. done.
Qed.

Lemma Kit_create_header_ok memory header_size voice_format :
  (7 ≤ header_size)%Z → (voice_format = 1 ∨ voice_format = 2)%Z →
  let total_size :=
    (header_size + (if decide (voice_format = 1%Z) then 108 else 110))%Z in
  (total_size - 2 ≤ 255)%Z → (header_size ≤ memory)%Z →
  ∃ header,
    Kit_create_header_on memory header_size voice_format = Return header ∧
    len header = header_size ∧
    int_of_byte <$> take 7 header
      = [total_size - 2; 1; 8; 1; 18; header_size - 2; 13]%Z ∧
    drop 7 header = replicate (Z.to_nat header_size - 7) "000"%byte.
Proof.
  intros Hhs Hvf total_size Htot Hmem. unfold Kit_create_header_on.
  rewrite bool_decide_false by lia.
  rewrite bool_decide_false by (rewrite !elem_of_cons, elem_of_nil; lia).
  rewrite bytearray_new_Return
    by (unfold PY_SSIZE_T_MAX; subst total_size; case_decide; lia).
  assert (bool_decide (voice_format = 1%Z)
          = if decide (voice_format = 1%Z) then true else false) as ->
    by (by case_decide; [rewrite bool_decide_true|rewrite bool_decide_false]).
  destruct (byte_of_int_is_Some (total_size - 2)) as [b0 Hb0];
    [subst total_size; case_decide; lia|].
  destruct (byte_of_int_is_Some (header_size - 2)) as [b5 Hb5];
    [subst total_size; case_decide; lia|].
  destruct (Z.to_nat header_size) as [|[|[|[|[|[|[|m]]]]]]] eqn:Hn; try lia.
  unfold result_of.
  assert ((if decide (voice_format = 1%Z) then true else false) = true ∧
          (header_size + 108)%Z = total_size ∨
          (if decide (voice_format = 1%Z) then true else false) = false ∧
          (header_size + 110)%Z = total_size) as [[-> Ht]|[-> Ht]]
    by (subst total_size; case_decide; [left|right]; done).
  all: rewrite Ht.
  all: erewrite bind_Return by (apply bytearray_setitem_Some; [simpl; lia|done]).
  all: erewrite bind_Return
         by (apply (bytearray_setitem_Some _ _ "001"%byte); [simpl; lia|done]).
  all: erewrite bind_Return
         by (apply (bytearray_setitem_Some _ _ "008"%byte); [simpl; lia|done]).
  all: erewrite bind_Return
         by (apply (bytearray_setitem_Some _ _ "001"%byte); [simpl; lia|done]).
  all: erewrite bind_Return
         by (apply (bytearray_setitem_Some _ _ "018"%byte); [simpl; lia|done]).
  all: erewrite bind_Return by (apply bytearray_setitem_Some; [simpl; lia|done]).
  all: erewrite bind_Return
         by (apply (bytearray_setitem_Some _ _ "013"%byte); [simpl; lia|done]).
  all: simpl; eexists; split; [done|].
  all: split; [unfold len; simpl; rewrite length_replicate; lia|].
  all: simpl; rewrite (byte_of_int_Some _ _ Hb0), (byte_of_int_Some _ _ Hb5).
  all: split; [done|].
  all: by rewrite drop_0, Nat.sub_0_r.
Qed.

Lemma Kit_create_header_overflow memory header_size voice_format :
  (7 ≤ header_size)%Z → (voice_format = 1 ∨ voice_format = 2)%Z →
  (header_size + (if decide (voice_format = 1%Z) then 108 else 110) - 2 > 255)%Z →
  (header_size < PY_SSIZE_T_MAX)%Z → (header_size ≤ memory)%Z →
  Kit_create_header_on memory header_size voice_format
  = Raise (ValueError "byte must be in range(0, 256)").
Proof.
  intros Hhs Hvf Htot Hmax Hmem. unfold Kit_create_header_on.
  rewrite bool_decide_false by lia.
  rewrite bool_decide_false by (rewrite !elem_of_cons, elem_of_nil; lia).
  rewrite bytearray_new_Return by lia.
  unfold result_of. erewrite bind_Raise; [done|].
  apply bytearray_setitem_None.
  - rewrite length_replicate. lia.
  - apply byte_of_int_None. case_bool_decide; case_decide; lia.
Qed.

(** When the buffer is not granted, the exception of the allocation is
    what the call raises. *)
Lemma Kit_create_header_unallocated memory header_size voice_format :
  (7 ≤ header_size)%Z → (voice_format = 1 ∨ voice_format = 2)%Z →
  (header_size > PY_SSIZE_T_MAX →
   Kit_create_header_on memory header_size voice_format
   = Raise (OverflowError "cannot fit 'int' into an index-sized integer"))%Z ∧
  (header_size ≤ PY_SSIZE_T_MAX →
   header_size = PY_SSIZE_T_MAX ∨ header_size > memory →
   Kit_create_header_on memory header_size voice_format = Raise MemoryError)%Z.
Proof.
  intros Hhs Hvf. unfold Kit_create_header_on.
  rewrite bool_decide_false by lia.
  rewrite bool_decide_false by (rewrite !elem_of_cons, elem_of_nil; lia).
  unfold bytearray_new. split.
  - intros Hmax. by rewrite bool_decide_true.
  - intros Hmax Hmem. rewrite bool_decide_false by lia.
    rewrite bool_decide_false by lia. by rewrite bool_decide_true.
Qed.

(** C6, as stated, fails: a header of 200 bytes for sub-format 1 would need
    byte 0 = 306, which no byte holds, and [create_header] raises the
    bytearray's own [ValueError] instead of returning 200 bytes. *)
Lemma create_header_200_raises :
  (7 ≤ 200)%Z ∧ 1%Z ∈ [1; 2]%Z ∧
  Kit_create_header 200 1 = Raise (ValueError "byte must be in range(0, 256)") ∧
  ¬ (∃ header, Kit_create_header 200 1 = Return header ∧ len header = 200%Z).
Proof.
  split; [lia|]. split; [constructor|].
  assert (Kit_create_header 200 1
          = Raise (ValueError "byte must be in range(0, 256)")) as E
    by (vm_compute; reflexivity).
  split; [done|]. rewrite E. by intros (? & ? & _).
Qed.

(** C6, amended: [create_header] raises its header-size error exactly when
    [header_size < 7], and its sub-format error exactly when
    [header_size >= 7] and the sub-format is neither 1 nor 2.  For
    [header_size >= 7] and a sub-format in {1,2} it returns a buffer of
    [header_size] bytes with byte 0 = header_size + (108 or 110) - 2,
    bytes 1-4 = [1,8,1,18], byte 5 = header_size - 2, byte 6 = 13 and zeros
    from offset 7 on, provided byte 0 fits a byte, that is
    header_size + (108 or 110) - 2 <= 255, and the machine grants the
    buffer.  It returns in no other case: when byte 0 does not fit, the
    call raises the bytearray's [ValueError] if the buffer was granted; and
    whenever the buffer is not granted it raises the error of the
    allocation, [OverflowError] above [sys.maxsize] and [MemoryError]
    otherwise. *)
Theorem create_header_spec (memory header_size voice_format : Z) :
  let total_size :=
    (header_size + (if decide (voice_format = 1%Z) then 108 else 110))%Z in
  (Kit_create_header_on memory header_size voice_format
     = Raise (ValueError "Header size must be at least 7 bytes")
   ↔ (header_size < 7)%Z) ∧
  (Kit_create_header_on memory header_size voice_format
     = Raise (ValueError "voice_format must be 1 or 2")
   ↔ (7 ≤ header_size)%Z ∧ voice_format ∉ [1; 2]%Z) ∧
  ((7 ≤ header_size)%Z → voice_format ∈ [1; 2]%Z →
   (total_size - 2 ≤ 255)%Z → (header_size ≤ memory)%Z →
   ∃ header,
     Kit_create_header_on memory header_size voice_format = Return header ∧
     len header = header_size ∧
     int_of_byte <$> take 7 header
       = [total_size - 2; 1; 8; 1; 18; header_size - 2; 13]%Z ∧
     drop 7 header = replicate (Z.to_nat header_size - 7) "000"%byte) ∧
  ((7 ≤ header_size)%Z → voice_format ∈ [1; 2]%Z →
   ∀ header,
     Kit_create_header_on memory header_size voice_format = Return header →
     (total_size - 2 ≤ 255)%Z ∧ (header_size ≤ memory)%Z) ∧
  ((7 ≤ header_size)%Z → voice_format ∈ [1; 2]%Z →
   (total_size - 2 > 255)%Z →
   (header_size < PY_SSIZE_T_MAX)%Z → (header_size ≤ memory)%Z →
   Kit_create_header_on memory header_size voice_format
   = Raise (ValueError "byte must be in range(0, 256)")) ∧
  ((7 ≤ header_size)%Z → voice_format ∈ [1; 2]%Z →
   (header_size > PY_SSIZE_T_MAX →
    Kit_create_header_on memory header_size voice_format
    = Raise (OverflowError "cannot fit 'int' into an index-sized integer"))%Z ∧
   (header_size ≤ PY_SSIZE_T_MAX →
    header_size = PY_SSIZE_T_MAX ∨ header_size > memory →
    Kit_create_header_on memory header_size voice_format
    = Raise MemoryError)%Z).
Proof.
  intros total_size.
  assert (voice_format ∈ [1; 2]%Z ↔ voice_format = 1%Z ∨ voice_format = 2%Z)
    as Hin by (rewrite !elem_of_cons, elem_of_nil; lia).
  assert ((7 ≤ header_size)%Z → voice_format ∈ [1; 2]%Z →
          ((total_size - 2 ≤ 255)%Z ∧ (header_size ≤ memory)%Z ∧
           ∃ header,
             Kit_create_header_on memory header_size voice_format
             = Return header) ∨
          Kit_create_header_on memory header_size voice_format
          = Raise (ValueError "byte must be in range(0, 256)") ∨
          Kit_create_header_on memory header_size voice_format
          = Raise (OverflowError "cannot fit 'int' into an index-sized integer") ∨
          Kit_create_header_on memory header_size voice_format
          = Raise MemoryError) as Hcases.
  { intros Hhs Hvf%Hin.
    destruct (Kit_create_header_unallocated memory header_size voice_format
                Hhs Hvf) as [Hover Hmemory].
    destruct (decide (header_size > PY_SSIZE_T_MAX)%Z); [by auto|].
    destruct (decide (header_size = PY_SSIZE_T_MAX ∨ header_size > memory)%Z);
      [right; right; right; apply Hmemory; [lia|done]|].
    destruct (decide (total_size - 2 ≤ 255)%Z).
    - left. split; [done|]. split; [lia|].
      destruct (Kit_create_header_ok memory header_size voice_format)
        as (? & ? & _); eauto; lia.
    - right. left. apply Kit_create_header_overflow; [done..| | |];
        subst total_size; lia. }
  assert ((7 ≤ header_size)%Z → voice_format ∉ [1; 2]%Z →
          Kit_create_header_on memory header_size voice_format
          = Raise (ValueError "voice_format must be 1 or 2")) as Hbad.
  { intros Hhs Hvf. unfold Kit_create_header_on.
    rewrite bool_decide_false by lia. by rewrite bool_decide_true. }
  assert ((header_size < 7)%Z →
          Kit_create_header_on memory header_size voice_format
          = Raise (ValueError "Header size must be at least 7 bytes")) as Hsmall.
  { intros Hhs. unfold Kit_create_header_on. by rewrite bool_decide_true. }
  split; [split|split; [split|split; [|split; [|split]]]].
  - intros E. destruct (decide (header_size < 7)%Z) as [|Hhs]; [done|].
    exfalso. revert E.
    destruct (decide (voice_format ∈ [1; 2]%Z)) as [Hvf|Hvf].
    + destruct Hcases as [(_ & _ & ? & ->)|[->|[->| ->]]]; [lia|done..].
    + by rewrite Hbad by (done || lia).
  - done.
  - intros E. destruct (decide (header_size < 7)%Z) as [Hhs|Hhs].
    { by rewrite Hsmall in E. }
    split; [lia|]. intros Hvf. revert E.
    destruct Hcases as [(_ & _ & ? & ->)|[->|[->| ->]]]; [lia|done..].
  - intros [Hhs Hvf]. by apply Hbad.
  - intros Hhs Hvf%Hin Htot Hmem. by apply Kit_create_header_ok.
  - intros Hhs Hvf header E.
    destruct Hcases as [(? & ? & _)|[E'|[E'|E']]]; [done..|done| | |];
      rewrite E' in E; discriminate E.
  - intros Hhs Hvf%Hin Htot Hmax Hmem. by apply Kit_create_header_overflow.
  - intros Hhs Hvf%Hin. by apply Kit_create_header_unallocated.
Qed.

Lemma create_header_spec_witness :
  ∃ header,
    Kit_create_header_on 4096 57 1 = Return header ∧
    len header = 57%Z ∧
    int_of_byte <$> take 7 header = [163; 1; 8; 1; 18; 55; 13]%Z ∧
    drop 7 header = replicate 50 "000"%byte.
Proof.
  apply (create_header_spec 4096 57 1); [lia|constructor|simpl; lia|lia].
Defined.

(** ** The store *)

Lemma call_lookup {A} (m : M Voice A) l h self :
  h !! l = Some self →
  call l m h = ((m self).1, <[l := (m self).2]> h).
Proof. unfold call. intros ->. by destruct (m self). Qed.

Lemma call_NoSuchObject {A} (m : M Voice A) l h :
  h !! l = None → call l m h = (Raise NoSuchObject, h).
Proof. unfold call. by intros ->. Qed.

Lemma call_Voice_data l h self :
  h !! l = Some self → call l Voice_data h = (Return (data self), h).
Proof.
  intros Hl. rewrite (call_lookup _ _ _ _ Hl). unfold Voice_data. unfold_monad.
  simpl. by rewrite list_insert_id.
Qed.

Lemma call_Voice_to_bytes l h self :
  h !! l = Some self → call l Voice_to_bytes h = (Return (data self), h).
Proof. apply call_Voice_data. Qed.

Lemma new_Voice_Return d self h :
  Voice_init d = Return self →
  new_Voice d h = (Return (length h), h ++ [self]).
Proof. unfold new_Voice. unfold_monad. by intros ->. Qed.

Lemma new_Voice_Raise d e h :
  Voice_init d = Raise e → new_Voice d h = (Raise e, h).
Proof. unfold new_Voice. unfold_monad. by intros ->. Qed.

Lemma new_Voice_inv d h r h' :
  new_Voice d h = (r, h') →
  (∃ self, Voice_init d = Return self ∧ r = Return (length h) ∧ h' = h ++ [self]) ∨
  (∃ e, Voice_init d = Raise e ∧ r = Raise e ∧ h' = h).
Proof.
  destruct (Voice_init d) as [self|e] eqn:E.
  - rewrite (new_Voice_Return _ _ _ E). intros [= <- <-]. left. eauto.
  - rewrite (new_Voice_Raise _ _ _ E). intros [= <- <-]. right. eauto.
Qed.

Lemma in_heap_eq {A} (m : M heap A) (k : Kit) (h : heap) :
  in_heap m (k, h) = ((m h).1, (k, (m h).2)).
Proof. unfold in_heap, zoom. simpl. by destruct (m h). Qed.

(** ** Kit.set_voice *)

(** The voice is stored as it is: the kit holds the caller's object. *)
Lemma Kit_set_voice_as_is index voice k (h : heap) self :
  h !! voice = Some self →
  Z.to_nat index < length (voices k) →
  ((0 ≤ index < 3)%Z ∧ length (data self) = 26 ∨
   index = 3%Z ∧ (length (data self) = 30 ∨ length (data self) = 32)) →
  Kit_set_voice index voice (k, h)
  = (Return tt, (mkKit (header k) (<[Z.to_nat index := voice]> (voices k)), h)).
Proof.
  intros Hv Hi Hcase. unfold Kit_set_voice.
  rewrite bool_decide_true by lia. simpl.
  unfold bind at 1.
  destruct Hcase as [[Hidx Hl]|[-> Hl]].
  - rewrite bool_decide_true by lia.
    erewrite bind_Return
      by (rewrite in_heap_eq, (call_Voice_data _ _ _ Hv); reflexivity).
    rewrite bool_decide_false by (unfold len; lia).
    unfold ret, voices_setitem. unfold_monad. simpl. by case_decide.
  - rewrite bool_decide_false by lia.
    erewrite bind_Return
      by (rewrite in_heap_eq, (call_Voice_data _ _ _ Hv); reflexivity).
    rewrite bool_decide_false by (unfold len; lia).
    rewrite bool_decide_false
      by (unfold len; rewrite !elem_of_cons, elem_of_nil; lia).
    unfold ret, voices_setitem. unfold_monad. simpl. by case_decide.
Qed.

(** Slots 0-2, a voice of 30 or 32 bytes: a new 26-byte voice is built. *)
Lemma Kit_set_voice_truncate index voice k (h : heap) self :
  h !! voice = Some self →
  Z.to_nat index < length (voices k) →
  (0 ≤ index < 3)%Z →
  length (data self) = 30 ∨ length (data self) = 32 →
  Kit_set_voice index voice (k, h)
  = (Return tt,
     (mkKit (header k) (<[Z.to_nat index := length h]> (voices k)),
      h ++ [mkVoice (take 26 (data self)) false false])).
Proof.
  intros Hv Hi Hidx Hl. unfold Kit_set_voice.
  rewrite bool_decide_true by lia. simpl.
  unfold bind at 1.
  rewrite bool_decide_true by lia.
  erewrite bind_Return
    by (rewrite in_heap_eq, (call_Voice_data _ _ _ Hv); reflexivity).
  rewrite bool_decide_true by (unfold len; lia).
  rewrite bool_decide_true
    by (unfold len; rewrite !elem_of_cons, elem_of_nil; lia).
  assert (slice (data self) 0 26 = take 26 (data self)) as ->.
  { rewrite slice_take_drop by (unfold len; lia). done. }
  assert (Voice_init (take 26 (data self))
          = Return (mkVoice (take 26 (data self)) false false)) as Hinit.
  { apply Voice_init_Return. unfold len. rewrite length_take.
    split; [lia|]. f_equal.
    - symmetry. apply bool_decide_false. rewrite !elem_of_cons, elem_of_nil. lia.
    - symmetry. apply bool_decide_false. lia. }
  rewrite in_heap_eq, (new_Voice_Return _ _ _ Hinit). simpl.
  unfold voices_setitem. unfold_monad. simpl. by case_decide.
Qed.

Lemma call_Voice_data_inv l (h : heap) r h' :
  call l Voice_data h = (r, h') →
  h' = h ∧
  ((∃ self, h !! l = Some self ∧ r = Return (data self)) ∨
   (h !! l = None ∧ r = Raise NoSuchObject)).
Proof.
  destruct (h !! l) as [self|] eqn:E.
  - rewrite (call_Voice_data _ _ _ E). intros [= <- <-]. eauto.
  - rewrite (call_NoSuchObject _ _ _ E). intros [= <- <-]. eauto.
Qed.

Lemma bind_inv {S A B} (m : M S A) (k : A → M S B) s r s' :
  bind m k s = (r, s') →
  (∃ a s1, m s = (Return a, s1) ∧ k a s1 = (r, s')) ∨
  (∃ e, m s = (Raise e, s') ∧ r = Raise e).
Proof.
  unfold bind. destruct (m s) as [[a|e] s1]; [by eauto|].
  intros [= <- <-]. eauto.
Qed.

Lemma in_heap_inv {A} (m : M heap A) k h r s' :
  in_heap m (k, h) = (r, s') → ∃ h', m h = (r, h') ∧ s' = (k, h').
Proof.
  rewrite in_heap_eq. intros [= <- <-]. destruct (m h). eauto.
Qed.

Lemma voices_setitem_inv index voice k (h : heap) r s' :
  voices_setitem index voice (k, h) = (r, s') →
  (Z.to_nat index < length (voices k) ∧ r = Return tt ∧
   s' = (mkKit (header k) (<[Z.to_nat index := voice]> (voices k)), h)) ∨
  (¬ Z.to_nat index < length (voices k) ∧
   r = Raise (IndexError "list assignment index out of range") ∧ s' = (k, h)).
Proof.
  unfold voices_setitem. unfold_monad. simpl.
  case_decide; intros [= <- <-]; eauto.
Qed.

Lemma get_self_inv (s : Kit * heap) r s' :
  get_self s = (r, s') → r = Return s.1 ∧ s' = s.
Proof. unfold get_self. unfold_monad. by intros [= <- <-]. Qed.

(** Inversion of a run, one primitive at a time. *)
Ltac inv_step :=
  match goal with
  | s : (Kit * heap)%type |- _ => destruct s
  | H : bind _ _ _ = (_, _) |- _ =>
      apply bind_inv in H as [(? & ? & ? & ?)|(? & ? & ?)]
  | H : in_heap _ (_, _) = _ |- _ => apply in_heap_inv in H as (? & ? & ?)
  | H : call _ Voice_data _ = _ |- _ =>
      apply call_Voice_data_inv in H as (? & [(? & ? & ?)|(? & ?)])
  | H : new_Voice _ _ = _ |- _ =>
      apply new_Voice_inv in H as [(? & ? & ? & ?)|(? & ? & ? & ?)]
  | H : voices_setitem _ _ (_, _) = _ |- _ =>
      apply voices_setitem_inv in H as [(? & ? & ?)|(? & ? & ?)]
  | H : get_self _ = _ |- _ => apply get_self_inv in H as (? & ?)
  | H : ret _ _ = _ |- _ => unfold ret in H
  | H : raise _ _ = _ |- _ => unfold raise in H
  | H : context [bool_decide _] |- _ => progress case_bool_decide
  | H : match ?x with _ => _ end _ = (_, _) |- _ => destruct x eqn:?
  | _ => progress (simpl in *; simplify_eq)
  end.

(** A failed [Kit.set_voice] leaves the kit as it was; the store is as it
    was or has gained the one voice built before the failing assignment. *)
Lemma Kit_set_voice_failure index voice k (h : heap) e k' h' :
  Kit_set_voice index voice (k, h) = (Raise e, (k', h')) →
  k' = k ∧
  (h' = h ∨
   (0 ≤ index < 4)%Z ∧ ¬ Z.to_nat index < length (voices k) ∧
   ∃ self, h' = h ++ [self]).
Proof.
  unfold Kit_set_voice. intros H. repeat inv_step; eauto 8.
Qed.

(** The slot-3 upgrade: the bytes appended to a 26-byte voice, given the
    buffer of the kit's current slot-3 voice. *)
Lemma upgrade_data (d d4 : bytes) :
  state_after
    (bytearray_extend ["001"; "000"; "001"; "000"]%byte ;;;
     if bool_decide (len d4 = 32%Z)
     then bytearray_extend ["000"; "000"]%byte
     else ret tt) d
  = d ++ ["001"; "000"; "001"; "000"]%byte
      ++ (if decide (length d4 = 32) then ["000"; "000"]%byte else []).
Proof.
  unfold bytearray_extend. unfold_monad. simpl.
  case_bool_decide; case_decide; unfold len in *; try lia; simpl.
  - by rewrite <- app_assoc.
  - done.
Qed.

Lemma Voice_init_truncated (d : bytes) self :
  length d = 30 ∨ length d = 32 →
  Voice_init (slice d 0 26) = Return self →
  self = mkVoice (take 26 d) false false.
Proof.
  intros Hl. rewrite slice_take_drop by (unfold len; lia).
  intros [_ ->]%Voice_init_Return. unfold len. rewrite length_take.
  f_equal; apply bool_decide_false; rewrite ?elem_of_cons, ?elem_of_nil; lia.
Qed.

Lemma Voice_init_upgraded (d d4 : bytes) self :
  length d = 26 →
  Voice_init (d ++ ["001"; "000"; "001"; "000"]%byte
                ++ (if decide (length d4 = 32) then ["000"; "000"]%byte else []))
  = Return self →
  self = mkVoice
           (d ++ ["001"; "000"; "001"; "000"]%byte
              ++ (if decide (length d4 = 32) then ["000"; "000"]%byte else []))
           true (bool_decide (length d4 = 32)).
Proof.
  intros Hl [_ ->]%Voice_init_Return. unfold len. rewrite !length_app.
  f_equal.
  - apply bool_decide_true. rewrite ?elem_of_cons, ?elem_of_nil.
    case_decide; simpl; lia.
  - apply bool_decide_ext. case_decide; simpl; lia.
Qed.

Lemma Kit_set_voice_success index voice k (h : heap) k' h' :
  Kit_set_voice index voice (k, h) = (Return tt, (k', h')) →
  (0 ≤ index < 4)%Z ∧ Z.to_nat index < length (voices k) ∧
  ∃ self l',
    h !! voice = Some self ∧
    k' = mkKit (header k) (<[Z.to_nat index := l']> (voices k)) ∧
    ((l' = voice ∧ h' = h ∧
      ((index < 3)%Z ∧ length (data self) = 26 ∨
       index = 3%Z ∧ (length (data self) = 30 ∨ length (data self) = 32))) ∨
     (l' = length h ∧ (index < 3)%Z ∧
      (length (data self) = 30 ∨ length (data self) = 32) ∧
      h' = h ++ [mkVoice (take 26 (data self)) false false]) ∨
     (l' = length h ∧ index = 3%Z ∧ length (data self) = 26 ∧
      ∃ v4 self4,
        voices k !! 3 = Some v4 ∧ h !! v4 = Some self4 ∧
        h' = h ++ [mkVoice
                     (data self ++ ["001"; "000"; "001"; "000"]%byte
                        ++ (if decide (length (data self4) = 32)
                            then ["000"; "000"]%byte else []))
                     true
                     (bool_decide (length (data self4) = 32))])).
Proof.
  unfold Kit_set_voice. intros H. repeat inv_step.
  all: split; [lia|]. all: split; [done|].
  all: eexists _, _; split; [done|]. all: split; [reflexivity|].
  all: unfold len in *; rewrite ?elem_of_cons, ?elem_of_nil in *.
  - right; left. repeat (split; [done || lia|]).
    do 2 f_equal. apply Voice_init_truncated; [lia|done].
  - left. repeat (split; [done|]). left. lia.
  - right; right. repeat (split; [done || lia|]).
    eexists _, _. repeat (split; [done|]). do 2 f_equal.
    match goal with
    | Hs4 : h !! ?l4 = Some ?s4, Hl4 : voices k !! 3 = Some ?l4 |- _ =>
        apply (Voice_init_upgraded _ (data s4)); [lia|]
    end.
    etrans; [|done]. f_equal. unfold bytearray_extend. unfold_monad. simpl.
    case_decide; [|lia]. by rewrite <- app_assoc.
  - right; right. repeat (split; [done || lia|]).
    eexists _, _. repeat (split; [done|]). do 2 f_equal.
    match goal with
    | Hs4 : h !! ?l4 = Some ?s4, Hl4 : voices k !! 3 = Some ?l4 |- _ =>
        apply (Voice_init_upgraded _ (data s4)); [lia|]
    end.
    etrans; [|done]. f_equal. unfold bytearray_extend. unfold_monad. simpl.
    case_decide; [lia|]. done.
  - lia.
  - left. repeat (split; [done|]). right. lia.
Qed.

(** Slot 3, a voice of 26 bytes: a new voice is built, as long as the kit's
    current slot-3 voice says. *)
Lemma Kit_set_voice_upgrade voice k (h : heap) self v4 self4 :
  h !! voice = Some self →
  length (data self) = 26 →
  voices k !! 3 = Some v4 →
  h !! v4 = Some self4 →
  Kit_set_voice 3 voice (k, h)
  = (Return tt,
     (mkKit (header k) (<[3 := length h]> (voices k)),
      h ++ [mkVoice
              (data self ++ ["001"; "000"; "001"; "000"]%byte
                 ++ (if decide (length (data self4) = 32)
                     then ["000"; "000"]%byte else []))
              true
              (bool_decide (length (data self4) = 32))])).
Proof.
  intros Hv Hl Hv4 Hs4.
  pose proof (lookup_lt_Some _ _ _ Hv4) as Hlen.
  unfold Kit_set_voice. simpl. unfold bind at 1.
  erewrite bind_Return
    by (rewrite in_heap_eq, (call_Voice_data _ _ _ Hv); reflexivity).
  rewrite bool_decide_true by (unfold len; lia).
  erewrite bind_Return by reflexivity. simpl.
  rewrite bool_decide_true by (unfold len; lia). rewrite Hv4.
  erewrite bind_Return; cycle 1.
  { erewrite bind_Return
      by (rewrite in_heap_eq, (call_Voice_data _ _ _ Hs4); reflexivity).
    reflexivity. }
  rewrite upgrade_data.
  destruct (Voice_init
              (data self ++ ["001"; "000"; "001"; "000"]%byte
                 ++ (if decide (length (data self4) = 32)
                     then ["000"; "000"]%byte else [])))
    as [new|e] eqn:Hinit.
  - pose proof (Voice_init_upgraded _ _ _ Hl Hinit) as Hnew.
    rewrite in_heap_eq, (new_Voice_Return _ _ _ Hinit), Hnew. simpl.
    unfold voices_setitem. unfold_monad. simpl.
    change (Z.to_nat 3) with 3.
    by destruct (decide (3 < length (voices k))).
  - exfalso. revert Hinit. unfold Voice_init.
    rewrite bool_decide_false; [done|]. intros Hn. apply Hn.
    unfold len. rewrite !length_app, !elem_of_cons.
    case_decide; simpl; lia.
Qed.

Lemma Kit_get_voice_insert k index l :
  (0 ≤ index < 4)%Z → Z.to_nat index < length (voices k) →
  Kit_get_voice (mkKit (header k) (<[Z.to_nat index := l]> (voices k))) index
  = Return l.
Proof.
  intros Hidx Hlen. unfold Kit_get_voice, getitem.
  rewrite bool_decide_true by done. simpl.
  case_decide; [lia|]. by rewrite list_lookup_insert_eq.
Qed.

(** ** Failure leaves the object as it was *)

(** C9: when a mutating operation raises -- a toggle or potentiometer
    setter or a section setter called on a voice of the store, or
    [Kit.set_voice] -- the kit (header and voice references) is what it was
    and every object of the store, so each of the kit's voices and the
    voice passed in, holds the bytes it held before.  On a kit of four
    voices the store itself is unchanged. *)
Theorem mutation_failure_atomic
    (m : mutation) (k : Kit) (h : heap) (e : exn) (k' : Kit) (h' : heap) :
  mutate m (k, h) = (Raise e, (k', h')) →
  k' = k ∧
  (∀ l self, h !! l = Some self → h' !! l = Some self) ∧
  (length (voices k) = 4 → h' = h ∧ kit_bytes k' h' = kit_bytes k h).
Proof.
  destruct m as [voice op|index voice]; simpl.
  - intros (h1 & Hcall & [= -> ->])%in_heap_inv.
    assert (h1 = h) as ->; [|done].
    destruct (h !! voice) as [self|] eqn:Hv.
    + rewrite (call_lookup _ _ _ _ Hv) in Hcall.
      destruct (apply_setter op self) as [r self'] eqn:Hop.
      simpl in Hcall. injection Hcall as -> <-.
      apply apply_setter_raise in Hop as ->. by apply list_insert_id.
    + rewrite (call_NoSuchObject _ _ _ Hv) in Hcall. by injection Hcall.
  - intros [-> [->|(Hidx & Hlen & self & ->)]]%Kit_set_voice_failure.
    + done.
    + split; [done|]. split.
      * intros l v Hl. by apply lookup_app_l_Some.
      * intros Hk. lia.
Qed.

Lemma mutation_failure_atomic_witness :
  mutate (SetVoice 7 4) (example_kit, example_store)
    = (Raise (ValueError "Voice index must be 0-3"), (example_kit, example_store)) ∧
  mutate (OnVoice 3 (SetToggle MODE 3)) (example_kit, example_store)
    = (Raise (ValueError "MODE must be 0, 1, or 2"), (example_kit, example_store)) ∧
  (∀ l self, example_store !! l = Some self → example_store !! l = Some self).
Proof.
  split; [reflexivity|]. split; [reflexivity|].
  apply (mutation_failure_atomic (OnVoice 4 (SetExtraParams marker))
           example_kit example_store
           (ValueError "Only voice 4 has extra parameters")
           example_kit example_store).
  reflexivity.
Defined.

(** ** Placing a voice in a kit *)

(** C5: on a kit of four voices, for an index in {0,1,2} and a voice of 30
    or 32 bytes, [set_voice] returns and the slot then holds a voice of 26
    bytes, the first 26 bytes of the one supplied; a voice of 26 bytes is
    stored as it is (the very object).  In each case [get_voice] at that
    index afterwards yields a voice of length 26. *)
Theorem set_voice_slots_0_2
    (k : Kit) (h : heap) (index : Z) (voice : loc) (self : Voice) :
  length (voices k) = 4 →
  (0 ≤ index < 3)%Z →
  h !! voice = Some self →
  length (data self) = 26 ∨ length (data self) = 30 ∨ length (data self) = 32 →
  ∃ k' h' l' stored,
    Kit_set_voice index voice (k, h) = (Return tt, (k', h')) ∧
    Kit_get_voice k' index = Return l' ∧
    h' !! l' = Some stored ∧
    data stored = take 26 (data self) ∧
    length (data stored) = 26 ∧
    (length (data self) = 26 → l' = voice ∧ h' = h ∧ stored = self).
Proof.
  intros Hk Hidx Hv [Hl|Hl].
  - eexists _, h, voice, self. split.
    { apply (Kit_set_voice_as_is _ _ _ _ self); [done|lia|by left]. }
    split; [apply Kit_get_voice_insert; lia|].
    split; [done|]. split; [by rewrite take_ge by lia|done].
  - eexists _, _, (length h), _. split.
    { apply (Kit_set_voice_truncate _ _ _ _ _ Hv); [lia|done..]. }
    split; [apply Kit_get_voice_insert; lia|].
    split; [by rewrite lookup_app_r, Nat.sub_diag by lia|]. simpl.
    split; [done|]. split; [rewrite length_take; lia|lia].
Qed.

Lemma set_voice_slots_0_2_witness :
  ∃ k' h' l' stored,
    Kit_set_voice 1 6 (example_kit, example_store) = (Return tt, (k', h')) ∧
    Kit_get_voice k' 1 = Return l' ∧
    h' !! l' = Some stored ∧
    data stored = take 26 (data sampler_voice) ∧
    length (data stored) = 26 ∧
    (length (data sampler_voice) = 26 →
     l' = 6 ∧ h' = example_store ∧ stored = sampler_voice).
Proof.
  apply (set_voice_slots_0_2 example_kit example_store 1 6 sampler_voice);
    [reflexivity|lia|reflexivity|right; right; reflexivity].
Defined.

(** C4: on a kit whose slot-3 voice has 32 bytes, [set_voice] at index 3
    with a voice of 26 bytes returns and the slot then holds a voice of 32
    bytes: the 26 supplied, then [1,0,1,0], then [0,0].  When the kit's
    slot-3 voice has 30 bytes the stored voice has 30 bytes, the 26 supplied
    and [1,0,1,0], with no sampler bytes.  A supplied voice of 30 or 32
    bytes is stored as it is. *)
Theorem set_voice_slot_3
    (k : Kit) (h : heap) (voice : loc) (self : Voice) (v4 : loc) (self4 : Voice) :
  voices k !! 3 = Some v4 →
  h !! v4 = Some self4 →
  h !! voice = Some self →
  length (data self) = 26 ∨ length (data self) = 30 ∨ length (data self) = 32 →
  ∃ k' h' l' stored,
    Kit_set_voice 3 voice (k, h) = (Return tt, (k', h')) ∧
    Kit_get_voice k' 3 = Return l' ∧
    h' !! l' = Some stored ∧
    (length (data self) = 26 → length (data self4) = 32 →
     data stored = data self ++ ["001"; "000"; "001"; "000"; "000"; "000"]%byte ∧
     length (data stored) = 32) ∧
    (length (data self) = 26 → length (data self4) = 30 →
     data stored = data self ++ ["001"; "000"; "001"; "000"]%byte ∧
     length (data stored) = 30) ∧
    (length (data self) = 30 ∨ length (data self) = 32 →
     l' = voice ∧ h' = h ∧ stored = self).
Proof.
  intros Hv4 Hs4 Hv Hl.
  pose proof (lookup_lt_Some _ _ _ Hv4) as Hlen.
  destruct Hl as [Hl|Hl].
  - eexists _, _, (length h), _. split.
    { by apply (Kit_set_voice_upgrade _ _ _ _ _ _ Hv Hl Hv4 Hs4). }
    split; [by apply (Kit_get_voice_insert k 3)|].
    split; [by rewrite lookup_app_r, Nat.sub_diag by lia|]. simpl.
    split; [|split].
    + intros _ H32. case_decide; [|done]. split; [done|].
      rewrite length_app. simpl. lia.
    + intros _ H30. case_decide; [lia|]. split; [done|].
      rewrite length_app. simpl. lia.
    + lia.
  - eexists _, h, voice, self. split.
    { apply (Kit_set_voice_as_is _ _ _ _ self); [done|done|by right]. }
    split; [by apply (Kit_get_voice_insert k 3)|].
    split; [done|]. split; [lia|]. split; [lia|done].
Qed.

Lemma set_voice_slot_3_witness :
  ∃ k' h' l' stored,
    Kit_set_voice 3 4 (example_kit, example_store) = (Return tt, (k', h')) ∧
    Kit_get_voice k' 3 = Return l' ∧
    h' !! l' = Some stored ∧
    (length (data standard_voice) = 26 → length (data sampler_voice) = 32 →
     data stored
       = data standard_voice ++ ["001"; "000"; "001"; "000"; "000"; "000"]%byte ∧
     length (data stored) = 32) ∧
    (length (data standard_voice) = 26 → length (data sampler_voice) = 30 →
     data stored = data standard_voice ++ ["001"; "000"; "001"; "000"]%byte ∧
     length (data stored) = 30) ∧
    (length (data standard_voice) = 30 ∨ length (data standard_voice) = 32 →
     l' = 4 ∧ h' = example_store ∧ stored = standard_voice).
Proof.
  apply (set_voice_slot_3 example_kit example_store 4 standard_voice
           3 sampler_voice);
    [reflexivity|reflexivity|reflexivity|left; reflexivity].
Defined.

(** ** The marker scan *)

Lemma length_filter_fmap_ext {A B} (P : A → Prop) (Q : B → Prop)
    `{!∀ x, Decision (P x), !∀ x, Decision (Q x)} (f : B → A) (l : list B) :
  (∀ x, x ∈ l → (P (f x) ↔ Q x)) →
  length (filter P (f <$> l)) = length (filter Q l).
Proof.
  induction l as [|x l IH]; intros Hext; [done|].
  rewrite fmap_cons, !filter_cons.
  assert (length (filter P (f <$> l)) = length (filter Q l)) as IH'.
  { apply IH. intros y Hy. apply Hext. by right. }
  pose proof (Hext x (list_elem_of_here _ _)) as Hx.
  repeat case_decide; simpl; try lia; tauto.
Qed.

Lemma filter_none {A} (P : A → Prop) `{!∀ x, Decision (P x)} (l : list A) :
  (∀ x, x ∈ l → ¬ P x) → filter P l = [].
Proof.
  induction l as [|x l IH]; intros Hno; [done|].
  rewrite filter_cons. case_decide as Hx.
  - destruct (Hno x); [by left|done].
  - apply IH. intros y Hy. apply Hno. by right.
Qed.

Lemma slice_window (b : bytes) (i : nat) :
  i + 4 ≤ length b →
  slice b (Z.of_nat i) (Z.of_nat i + len marker) = take 4 (drop i b).
Proof.
  intros Hi. rewrite slice_take_drop by (unfold len; simpl; lia).
  f_equal; [unfold len; simpl; lia|]. f_equal. lia.
Qed.

Lemma marker_positions_count (b : bytes) :
  length (marker_positions b) = marker_count b.
Proof.
  unfold marker_positions, marker_count, range.
  set (n := Z.to_nat (len b - len marker + 1)).
  assert (length b = n + (length b - n)) as Hsplit
    by (subst n; unfold len; change (length marker) with 4; lia).
  rewrite Hsplit at 1. rewrite seq_app, filter_app, length_app.
  rewrite (filter_none _ (seq (0 + n) _)).
  - simpl. rewrite Nat.add_0_r. apply length_filter_fmap_ext.
    intros i [_ Hi]%elem_of_seq. rewrite slice_window; [done|].
    subst n. unfold len in *. change (length marker) with 4 in *. lia.
  - intros i [Hi _]%elem_of_seq Hm.
    apply (f_equal length) in Hm. rewrite length_take, length_drop in Hm.
    subst n. unfold len in *. change (length marker) with 4 in *. lia.
Qed.

Lemma marker_positions_bounds (b : bytes) (p : Z) :
  p ∈ marker_positions b → (0 ≤ p ≤ len b - 4)%Z.
Proof.
  unfold marker_positions, range.
  intros [_ (i & -> & [_ Hi]%elem_of_seq)%list_elem_of_fmap]%list_elem_of_filter.
  unfold len in *. change (length marker) with 4 in *. lia.
Qed.

Lemma Kit_find_voice_boundaries_malformed (b : bytes) :
  marker_count b ≠ 4 →
  Kit_find_voice_boundaries b
  = Raise (MalformedKitError (Z.of_nat (marker_count b))).
Proof.
  intros Hc. unfold Kit_find_voice_boundaries.
  rewrite bool_decide_true; [|unfold len; rewrite marker_positions_count; lia].
  unfold len. by rewrite marker_positions_count.
Qed.

Lemma Kit_find_voice_boundaries_four (b : bytes) :
  marker_count b = 4 →
  ∃ p0 p1 p2 p3,
    marker_positions b = [p0; p1; p2; p3] ∧
    Kit_find_voice_boundaries b
    = Return [(p0 - 4, p1 - 4); (p1 - 4, p2 - 4); (p2 - 4, p3 - 4);
              (p3 - 4, len b)]%Z.
Proof.
  intros Hc. unfold Kit_find_voice_boundaries.
  rewrite <- marker_positions_count in Hc.
  rewrite bool_decide_false by (unfold len; lia).
  destruct (marker_positions b) as [|p0 [|p1 [|p2 [|p3 [|]]]]]; try done.
  eexists _, _, _, _. split; [done|]. reflexivity.
Qed.

(** ** Decoding *)

(** The four voice buffers that [Kit.__init__] cuts out of a file whose
    markers are at [p0 .. p3]. *)
Lemma decode_four (b : bytes) (h : heap) p0 p1 p2 p3 :
  marker_positions b = [p0; p1; p2; p3] →
  decode b h =
    match Voice_init (slice b (p0 - 4) (p1 - 4)) with
    | Raise e => (Raise e, h)
    | Return v0 =>
      match Voice_init (slice b (p1 - 4) (p2 - 4)) with
      | Raise e => (Raise e, h ++ [v0])
      | Return v1 =>
        match Voice_init (slice b (p2 - 4) (p3 - 4)) with
        | Raise e => (Raise e, h ++ [v0; v1])
        | Return v2 =>
          match Voice_init (slice b (p3 - 4) (len b)) with
          | Raise e => (Raise e, h ++ [v0; v1; v2])
          | Return v3 =>
              (Return (mkKit (slice b 0 (p0 - 4))
                         [length h; S (length h); S (S (length h));
                          S (S (S (length h)))]),
               h ++ [v0; v1; v2; v3])
          end
        end
      end
    end.
Proof.
  intros Hp. unfold decode, Kit_init.
  assert (marker_count b = 4) as Hc
    by (by rewrite <- marker_positions_count, Hp).
  destruct (Kit_find_voice_boundaries_four b Hc) as (q0 & q1 & q2 & q3 & Hq & ->).
  rewrite Hp in Hq. injection Hq as <- <- <- <-.
  unfold lift at 1. unfold bind at 1. simpl.
  unfold bind at 1 2.
  destruct (Voice_init (slice b (p0 - 4) (p1 - 4))) as [v0|e] eqn:E0;
    [rewrite (new_Voice_Return _ _ _ E0)
    |by rewrite (new_Voice_Raise _ _ _ E0)].
  unfold bind at 1 2.
  destruct (Voice_init (slice b (p1 - 4) (p2 - 4))) as [v1|e] eqn:E1;
    [rewrite (new_Voice_Return _ _ _ E1)
    |by rewrite (new_Voice_Raise _ _ _ E1)].
  unfold bind at 1 2.
  destruct (Voice_init (slice b (p2 - 4) (p3 - 4))) as [v2|e] eqn:E2;
    [rewrite (new_Voice_Return _ _ _ E2)
    |by rewrite (new_Voice_Raise _ _ _ E2), <- app_assoc].
  unfold bind at 1 2.
  destruct (Voice_init (slice b (p3 - 4) (len b))) as [v3|e] eqn:E3;
    [rewrite (new_Voice_Return _ _ _ E3)
    |by rewrite (new_Voice_Raise _ _ _ E3), <- !app_assoc].
  unfold_monad. simpl. rewrite !length_app, <- !app_assoc. simpl.
  repeat f_equal; lia.
Qed.

Lemma Voice_init_Raise d e :
  Voice_init d = Raise e →
  e = ValueError ("Voice data must be 26, 30, or 32 bytes, got " +:+ str (len d)).
Proof. unfold Voice_init. case_bool_decide; [|done]. by intros [= <-]. Qed.

Lemma decode_malformed (b : bytes) (h : heap) :
  marker_count b ≠ 4 →
  decode b h = (Raise (MalformedKitError (Z.of_nat (marker_count b))), h).
Proof.
  intros Hc. unfold decode, Kit_init.
  by rewrite (Kit_find_voice_boundaries_malformed _ Hc).
Qed.

(** C7: decoding a buffer fails with the marker-count error (the
    specification's MalformedKitError) if and only if the number of
    positions at which the four marker bytes occur, every position counted,
    is not exactly 4; the error then reports that number and nothing has
    been built.  So buffers with 3 or with 5 occurrences are refused. *)
Theorem decode_malformed_iff (b : bytes) (h : heap) :
  ((∃ found, result_of (decode b) h = Raise (MalformedKitError found))
   ↔ marker_count b ≠ 4) ∧
  (marker_count b ≠ 4 →
   decode b h = (Raise (MalformedKitError (Z.of_nat (marker_count b))), h)) ∧
  (marker_count b = 3 ∨ marker_count b = 5 →
   ∃ found, result_of (decode b) h = Raise (MalformedKitError found)).
Proof.
  assert (marker_count b ≠ 4 →
          ∃ found, result_of (decode b) h = Raise (MalformedKitError found)) as Hbad.
  { intros Hc. eexists. unfold result_of. by rewrite (decode_malformed _ _ Hc). }
  split; [split; [|done]|split].
  - intros [found Hr] Hc.
    destruct (Kit_find_voice_boundaries_four b Hc) as (p0 & p1 & p2 & p3 & Hp & _).
    revert Hr. unfold result_of. rewrite (decode_four _ _ _ _ _ _ Hp).
    repeat (case_match; [|by match goal with
                              | H : Voice_init _ = Raise _ |- _ =>
                                  apply Voice_init_Raise in H as ->
                              end]).
    done.
  - apply decode_malformed.
  - intros Hc. apply Hbad. lia.
Qed.

Lemma decode_malformed_iff_witness :
  marker_count (marker ++ marker ++ marker) = 3 ∧
  decode (marker ++ marker ++ marker) [] = (Raise (MalformedKitError 3), []) ∧
  marker_count (example_file 1 ++ marker) = 5 ∧
  decode (example_file 1 ++ marker) [] = (Raise (MalformedKitError 5), []).
Proof.
  split; [reflexivity|]. split.
  { apply (decode_malformed_iff (marker ++ marker ++ marker) []).
    vm_compute. lia. }
  split; [reflexivity|].
  apply (decode_malformed_iff (example_file 1 ++ marker) []).
  vm_compute. lia.
Defined.

(** ** The round trip *)

Lemma slice_prefix_app {A} (l : list A) (c e : Z) :
  (0 ≤ c ≤ e)%Z → (e ≤ len l)%Z →
  slice l 0 c ++ slice l c e = slice l 0 e.
Proof.
  intros Hc He. rewrite !slice_take_drop by lia.
  change (Z.to_nat 0) with 0. rewrite !drop_0, !Nat.sub_0_r.
  rewrite take_take_drop. f_equal. lia.
Qed.

Lemma slice_all {A} (l : list A) : slice l 0 (len l) = l.
Proof.
  rewrite slice_take_drop by (pose proof (len_nonneg l); lia).
  change (Z.to_nat 0) with 0. rewrite drop_0, Nat.sub_0_r.
  apply take_ge. unfold len. lia.
Qed.

(** A slice that starts at most 4 bytes before position 0 wraps round to
    the end of the buffer and is at most 4 bytes long. *)
Lemma slice_negative_start_short {A} (l : list A) (lo hi : Z) :
  (-4 ≤ lo < 0)%Z → (len (slice l lo hi) ≤ 4)%Z.
Proof.
  intros Hlo. rewrite length_slice.
  pose proof (len_nonneg l).
  unfold adjust_index. repeat case_decide; lia.
Qed.

(** A voice cannot start before position 0: the slice would be too short
    for [Voice.__init__]. *)
Lemma voice_start_nonneg (b : bytes) (lo hi : Z) self :
  (-4 ≤ lo)%Z →
  Voice_init (slice b lo hi) = Return self →
  (0 ≤ lo)%Z.
Proof.
  intros Hlo [Hl _]%Voice_init_Return.
  destruct (decide (lo < 0)%Z) as [Hneg|Hpos]; [|lia].
  pose proof (slice_negative_start_short b lo hi). unfold len in *. lia.
Qed.

(** A voice ends after it starts. *)
Lemma voice_slice_order (b : bytes) (lo hi : Z) self :
  (0 ≤ lo)%Z → (0 ≤ hi ≤ len b)%Z →
  Voice_init (slice b lo hi) = Return self →
  (lo < hi)%Z.
Proof.
  intros Hlo Hhi [Hl _]%Voice_init_Return.
  assert (26 ≤ len (slice b lo hi))%Z as Hlen by (unfold len; lia).
  rewrite length_slice in Hlen.
  unfold adjust_index in Hlen. repeat case_decide; lia.
Qed.

(** What a successful decode has done. *)
Lemma decode_Return (b : bytes) (h : heap) k h1 :
  decode b h = (Return k, h1) →
  ∃ s0 s1 s2 s3 v0 v1 v2 v3,
    marker_positions b = [s0 + 4; s1 + 4; s2 + 4; s3 + 4]%Z ∧
    (0 ≤ s0 < s1)%Z ∧ (s1 < s2)%Z ∧ (s2 < s3)%Z ∧ (s3 < len b)%Z ∧
    Voice_init (slice b s0 s1) = Return v0 ∧
    Voice_init (slice b s1 s2) = Return v1 ∧
    Voice_init (slice b s2 s3) = Return v2 ∧
    Voice_init (slice b s3 (len b)) = Return v3 ∧
    k = mkKit (slice b 0 s0)
          [length h; S (length h); S (S (length h)); S (S (S (length h)))] ∧
    h1 = h ++ [v0; v1; v2; v3].
Proof.
  intros Hd.
  destruct (decide (marker_count b = 4)) as [Hc|Hc];
    [|by rewrite (decode_malformed _ _ Hc) in Hd].
  destruct (Kit_find_voice_boundaries_four b Hc) as (p0 & p1 & p2 & p3 & Hp & _).
  rewrite (decode_four _ _ _ _ _ _ Hp) in Hd.
  destruct (Voice_init (slice b (p0 - 4) (p1 - 4))) as [v0|] eqn:E0; [|done].
  destruct (Voice_init (slice b (p1 - 4) (p2 - 4))) as [v1|] eqn:E1; [|done].
  destruct (Voice_init (slice b (p2 - 4) (p3 - 4))) as [v2|] eqn:E2; [|done].
  destruct (Voice_init (slice b (p3 - 4) (len b))) as [v3|] eqn:E3; [|done].
  injection Hd as <- <-.
  assert (∀ p, p ∈ [p0; p1; p2; p3] → (0 ≤ p ≤ len b - 4)%Z) as Hb.
  { intros p Hin. apply marker_positions_bounds. by rewrite Hp. }
  pose proof (Hb p0 ltac:(rewrite !elem_of_cons; tauto)).
  pose proof (Hb p1 ltac:(rewrite !elem_of_cons; tauto)).
  pose proof (Hb p2 ltac:(rewrite !elem_of_cons; tauto)).
  pose proof (Hb p3 ltac:(rewrite !elem_of_cons; tauto)).
  assert (0 ≤ p0 - 4)%Z
    by (apply (voice_start_nonneg b _ (p1 - 4) v0); [lia|done]).
  assert (0 ≤ p1 - 4)%Z
    by (apply (voice_start_nonneg b _ (p2 - 4) v1); [lia|done]).
  assert (0 ≤ p2 - 4)%Z
    by (apply (voice_start_nonneg b _ (p3 - 4) v2); [lia|done]).
  assert (0 ≤ p3 - 4)%Z
    by (apply (voice_start_nonneg b _ (len b) v3); [lia|done]).
  assert (p0 - 4 < p1 - 4)%Z by (apply (voice_slice_order b _ _ v0); [lia..|done]).
  assert (p1 - 4 < p2 - 4)%Z by (apply (voice_slice_order b _ _ v1); [lia..|done]).
  assert (p2 - 4 < p3 - 4)%Z by (apply (voice_slice_order b _ _ v2); [lia..|done]).
  assert (p3 - 4 < len b)%Z by (apply (voice_slice_order b _ _ v3); [lia..|done]).
  exists (p0 - 4)%Z, (p1 - 4)%Z, (p2 - 4)%Z, (p3 - 4)%Z, v0, v1, v2, v3.
  split; [rewrite Hp; repeat f_equal; lia|].
  repeat (split; [done || lia|]). done.
Qed.

(** The header and the four voice buffers of a decoded file, in order, are
    the file. *)
Lemma decode_partition (b : bytes) (s0 s1 s2 s3 : Z) :
  (0 ≤ s0 < s1)%Z → (s1 < s2)%Z → (s2 < s3)%Z → (s3 < len b)%Z →
  slice b 0 s0 ++ slice b s0 s1 ++ slice b s1 s2 ++ slice b s2 s3
    ++ slice b s3 (len b) = b.
Proof.
  intros H0 H1 H2 H3.
  rewrite !app_assoc.
  rewrite (slice_prefix_app b s0 s1) by lia.
  rewrite (slice_prefix_app b s1 s2) by lia.
  rewrite (slice_prefix_app b s2 s3) by lia.
  rewrite (slice_prefix_app b s3 (len b)) by lia.
  apply slice_all.
Qed.

Lemma Kit_to_bytes_loop_spec (vs : list loc) (ds : list bytes) (h : heap) acc :
  Forall2 (λ l d, voice_bytes h l = Some d) vs ds →
  Kit_to_bytes_loop acc vs h = (Return (acc ++ concat ds), h).
Proof.
  intros HF. revert acc.
  induction HF as [|l d vs ds Hl _ IH]; intros acc; simpl.
  - unfold ret. by rewrite app_nil_r.
  - unfold voice_bytes in Hl.
    destruct (h !! l) as [v|] eqn:Hv; [|done]. injection Hl as <-.
    erewrite bind_Return by (by apply call_Voice_to_bytes).
    by rewrite IH, app_assoc.
Qed.

Lemma voice_bytes_decoded (h : heap) (v0 v1 v2 v3 : Voice) (h' : heap) :
  voice_bytes (h ++ [v0; v1; v2; v3] ++ h')
    <$> [length h; S (length h); S (S (length h)); S (S (S (length h)))]
  = Some <$> [data v0; data v1; data v2; data v3].
Proof.
  unfold voice_bytes. simpl.
  rewrite !lookup_app_r by lia.
  replace (length h - length h) with 0 by lia.
  replace (S (length h) - length h) with 1 by lia.
  replace (S (S (length h)) - length h) with 2 by lia.
  replace (S (S (S (length h))) - length h) with 3 by lia.
  done.
Qed.

(** C1: when [decode] accepts a buffer, [encode] of the kit it built returns
    that buffer byte for byte, and decoding the encoded bytes again builds a
    kit with the same header bytes and the same bytes in each of its four
    voices as the first, which is itself untouched. *)
Theorem decode_encode_roundtrip (b : bytes) (h : heap) (k : Kit) (h1 : heap) :
  decode b h = (Return k, h1) →
  encode k h1 = (Return b, h1) ∧
  ∃ k2 h2 d0 d1 d2 d3,
    (b' <- encode k ;; decode b') h1 = (Return k2, h2) ∧
    kit_bytes k h1 = (header k, [Some d0; Some d1; Some d2; Some d3]) ∧
    kit_bytes k2 h2 = kit_bytes k h1 ∧
    kit_bytes k h2 = kit_bytes k h1 ∧
    header k ++ d0 ++ d1 ++ d2 ++ d3 = b.
Proof.
  intros Hd.
  destruct (decode_Return _ _ _ _ Hd)
    as (s0 & s1 & s2 & s3 & v0 & v1 & v2 & v3 & Hp
        & H0 & H1 & H2 & H3 & E0 & E1 & E2 & E3 & -> & ->).
  pose proof (decode_partition b s0 s1 s2 s3 H0 H1 H2 H3) as Hpart.
  apply Voice_init_ok in E0 as Hv0. destruct Hv0 as [_ Hv0].
  apply Voice_init_ok in E1 as Hv1. destruct Hv1 as [_ Hv1].
  apply Voice_init_ok in E2 as Hv2. destruct Hv2 as [_ Hv2].
  apply Voice_init_ok in E3 as Hv3. destruct Hv3 as [_ Hv3].
  assert (encode
            (mkKit (slice b 0 s0)
               [length h; S (length h); S (S (length h)); S (S (S (length h)))])
            (h ++ [v0; v1; v2; v3])
          = (Return b, h ++ [v0; v1; v2; v3])) as Henc.
  { unfold encode, Kit_to_bytes. cbn [header voices].
    rewrite (Kit_to_bytes_loop_spec _ [data v0; data v1; data v2; data v3]).
    - simpl. rewrite app_nil_r, Hv0, Hv1, Hv2, Hv3. by rewrite Hpart.
    - pose proof (voice_bytes_decoded h v0 v1 v2 v3 []) as Hvb.
      rewrite app_nil_r in Hvb. simpl in Hvb. injection Hvb as ? ? ? ?.
      by repeat constructor. }
  split; [done|].
  eexists _, _, (data v0), (data v1), (data v2), (data v3).
  split.
  { erewrite bind_Return by exact Henc.
    rewrite (decode_four _ _ _ _ _ _ Hp).
    replace (s0 + 4 - 4)%Z with s0 by lia.
    replace (s1 + 4 - 4)%Z with s1 by lia.
    replace (s2 + 4 - 4)%Z with s2 by lia.
    replace (s3 + 4 - 4)%Z with s3 by lia.
    rewrite E0, E1, E2, E3. reflexivity. }
  unfold kit_bytes. simpl.
  pose proof (voice_bytes_decoded h v0 v1 v2 v3 []) as Hvb1.
  pose proof (voice_bytes_decoded h v0 v1 v2 v3 [v0; v1; v2; v3]) as Hvb2.
  pose proof (voice_bytes_decoded (h ++ [v0; v1; v2; v3]) v0 v1 v2 v3 []) as Hvb3.
  rewrite !app_nil_r in *. rewrite <- !app_assoc in *.
  rewrite !length_app in Hvb3. simpl in *.
  replace (length h + 4) with (S (S (S (S (length h))))) in Hvb3 by lia.
  injection Hvb1 as -> -> -> ->.
  split; [done|]. split.
  { f_equal. rewrite !length_app. simpl.
    replace (length h + 4) with (S (S (S (S (length h))))) by lia.
    by injection Hvb3 as -> -> -> ->. }
  split; [by injection Hvb2 as -> -> -> ->|].
  by rewrite Hv0, Hv1, Hv2, Hv3.
Qed.

Lemma decode_encode_roundtrip_witness :
  ∃ k h1,
    decode (example_file 2) [standard_voice] = (Return k, h1) ∧
    encode k h1 = (Return (example_file 2), h1).
Proof.
  eexists _, _. split; [vm_compute; reflexivity|].
  eapply proj1, (decode_encode_roundtrip (example_file 2) [standard_voice]).
  vm_compute. reflexivity.
Defined.

(** ** Sharing of voices between kits *)

Lemma call_other {A} (m : M Voice A) (l l' : loc) (h : heap) :
  l ≠ l' → state_after (call l m) h !! l' = h !! l'.
Proof.
  intros Hne. unfold state_after, call.
  destruct (h !! l) as [self|]; [|done].
  destruct (m self). simpl. by apply list_lookup_insert_ne.
Qed.

(** C3, as stated, fails: a 26-byte voice placed at index 0 is stored as
    the caller's object, and setting TUNE on the caller's voice afterwards
    changes the bytes of the kit's voice at index 0. *)
Lemma set_voice_shares_the_voice :
  ∃ k' h' l' h'',
    Kit_set_voice 0 4 (example_kit, example_store) = (Return tt, (k', h')) ∧
    Kit_get_voice k' 0 = Return l' ∧
    call 4 (Voice_set_tune 7) h' = (Return tt, h'') ∧
    voice_bytes h'' l' ≠ voice_bytes h' l'.
Proof.
  eexists _, _, _, _. split; [vm_compute; reflexivity|].
  split; [vm_compute; reflexivity|].
  split; [vm_compute; reflexivity|].
  vm_compute. discriminate.
Qed.

(** C3, amended: [set_voice] copies bytes only when it converts.  For an
    index in {0,1,2} with a voice of 30 or 32 bytes, and for index 3 with a
    voice of 26 bytes, the kit stores a new voice, at an address nothing
    referred to before; a later setter call on the supplied voice leaves
    the stored one as it is, and a setter call on the stored one leaves the
    supplied one as it is.  Otherwise (26 bytes at index 0-2, 30 or 32
    bytes at index 3) the kit stores the supplied voice itself and the
    store is unchanged, so the kit and the caller hold one object. *)
Theorem set_voice_sharing
    (k : Kit) (h : heap) (index : Z) (voice : loc) (k' : Kit) (h' : heap) :
  Kit_set_voice index voice (k, h) = (Return tt, (k', h')) →
  ∃ self l',
    h !! voice = Some self ∧
    Kit_get_voice k' index = Return l' ∧
    (((index < 3)%Z ∧ length (data self) ≠ 26 ∨
      index = 3%Z ∧ length (data self) = 26) →
     l' ≠ voice ∧ h !! l' = None ∧
     ∀ op : setter,
       state_after (call voice (apply_setter op)) h' !! l' = h' !! l' ∧
       state_after (call l' (apply_setter op)) h' !! voice = h' !! voice) ∧
    (((index < 3)%Z ∧ length (data self) = 26 ∨
      index = 3%Z ∧ length (data self) ≠ 26) →
     l' = voice ∧ h' = h).
Proof.
  intros (Hidx & Hlen & self & l' & Hv & -> & Hcases)%Kit_set_voice_success.
  exists self, l'. split; [done|].
  split; [by apply Kit_get_voice_insert|].
  pose proof (lookup_lt_Some _ _ _ Hv) as Hvlt.
  destruct Hcases as [(-> & -> & Hc)|[(-> & Hi & Hl & ->)|(-> & Hi & Hl & _)]].
  - split; [lia|done].
  - split; [|lia]. intros _.
    split; [lia|]. split; [by apply lookup_ge_None_2|].
    intros op. split; apply call_other; lia.
  - split; [|lia]. intros _.
    split; [lia|]. split; [by apply lookup_ge_None_2|].
    intros op. split; apply call_other; lia.
Qed.

Lemma set_voice_sharing_witness :
  ∃ self l',
    example_store !! 6 = Some self ∧
    Kit_get_voice
      (mkKit (header example_kit) (<[2 := 7]> (voices example_kit))) 2
      = Return l' ∧
    (((2 < 3)%Z ∧ length (data self) ≠ 26 ∨
      2%Z = 3%Z ∧ length (data self) = 26) →
     l' ≠ 6 ∧ example_store !! l' = None ∧
     ∀ op : setter,
       state_after (call 6 (apply_setter op))
         (example_store ++ [mkVoice (take 26 (data sampler_voice)) false false])
         !! l'
       = (example_store ++ [mkVoice (take 26 (data sampler_voice)) false false])
           !! l' ∧
       state_after (call l' (apply_setter op))
         (example_store ++ [mkVoice (take 26 (data sampler_voice)) false false])
         !! 6
       = (example_store ++ [mkVoice (take 26 (data sampler_voice)) false false])
           !! 6) ∧
    (((2 < 3)%Z ∧ length (data self) = 26 ∨
      2%Z = 3%Z ∧ length (data self) ≠ 26) →
     l' = 6 ∧
     example_store ++ [mkVoice (take 26 (data sampler_voice)) false false]
     = example_store).
Proof.
  apply (set_voice_sharing example_kit example_store 2 6).
  vm_compute. reflexivity.
Defined.

(** ** mix_kits *)

(** C2, as stated, fails: with every selection taken from the second kit
    the new kit still gets the header of the first kit of the list, which
    differs from the header of the kit the first selection names. *)
Lemma mix_header_is_first_kit :
  ∃ k h' kits h1 selected,
    mix_kits example_fs ["a.kit"; "b.kit"] [(1, 0); (1, 1); (1, 2); (1, 3)]%Z []
      = (Return k, h') ∧
    list_comp ["a.kit"; "b.kit"] (Kit_from_file example_fs) [] = (Return kits, h1) ∧
    getitem kits 1 = Some selected ∧
    header k ≠ header selected.
Proof.
  eexists _, _, _, _, _. split; [vm_compute; reflexivity|].
  split; [vm_compute; reflexivity|].
  split; [vm_compute; reflexivity|].
  vm_compute. discriminate.
Qed.

(** One successful [set_voice]: the store only grows, the other slots are
    kept, and the slot holds the bytes [placed] describes. *)
Lemma Kit_set_voice_step index voice k (h : heap) k' h' :
  Kit_set_voice index voice (k, h) = (Return tt, (k', h')) →
  (0 ≤ index < 4)%Z ∧ Z.to_nat index < length (voices k) ∧
  h `prefix_of` h' ∧
  ∃ self l' stored,
    h !! voice = Some self ∧
    k' = mkKit (header k) (<[Z.to_nat index := l']> (voices k)) ∧
    h' !! l' = Some stored ∧
    ((index < 3)%Z → data stored = take 26 (data self)) ∧
    (index = 3%Z → ∀ v4 self4,
       voices k !! 3 = Some v4 → h !! v4 = Some self4 →
       data stored = placed 3 (data self4) (data self)).
Proof.
  intros (Hidx & Hlen & self & l' & Hv & -> & Hcases)%Kit_set_voice_success.
  split; [done|]. split; [done|].
  destruct Hcases as [(-> & -> & Hc)|[(-> & Hi & Hl & ->)|(-> & Hi & Hl & Hup)]].
  - split; [done|]. exists self, voice, self. repeat (split; [done|]). split.
    + intros Hi. rewrite take_ge; [done|lia].
    + intros -> v4 self4 _ _. unfold placed.
      destruct (decide (3 < 3)%Z); [lia|].
      destruct (decide (length (data self) = 26)); [lia|done].
  - split; [by apply prefix_app_r|]. eexists self, _, _.
    repeat (split; [done|]).
    split; [by rewrite lookup_app_r, Nat.sub_diag by lia|]. simpl.
    split; [done|lia].
  - destruct Hup as (v4 & self4 & Hv4 & Hs4 & ->).
    split; [by apply prefix_app_r|]. eexists self, _, _.
    repeat (split; [done|]).
    split; [by rewrite lookup_app_r, Nat.sub_diag by lia|]. simpl.
    split; [lia|]. intros _ v4' self4' Hv4' Hs4'.
    rewrite Hv4 in Hv4'. injection Hv4' as <-.
    rewrite Hs4 in Hs4'. injection Hs4' as <-.
    unfold placed. destruct (decide (3 < 3)%Z); [lia|].
    destruct (decide (length (data self) = 26)); [done|lia].
Qed.

Lemma for_each_cons_inv {S A} (x : A) (xs : list A) (body : A → M S unit) s s' :
  for_each (x :: xs) body s = (Return tt, s') →
  ∃ s1, body x s = (Return tt, s1) ∧ for_each xs body s1 = (Return tt, s').
Proof.
  simpl. intros [([] & s1 & Hb & Hr)|(? & _ & ?)]%bind_inv; [eauto|done].
Qed.

Lemma mix_kits_body_inv kits target_idx kit_idx voice_idx s s' :
  mix_kits_body kits (target_idx, (kit_idx, voice_idx)) s = (Return tt, s') →
  ∃ kit source,
    getitem kits kit_idx = Some kit ∧
    Kit_get_voice kit voice_idx = Return source ∧
    Kit_set_voice target_idx source s = (Return tt, s').
Proof.
  unfold mix_kits_body. case_bool_decide; [done|].
  case_bool_decide; simpl; [|done].
  destruct (getitem kits kit_idx) as [kit|]; [|done].
  intros [(source & s1 & Hg & Hset)|(? & _ & ?)]%bind_inv; [|done].
  unfold lift in Hg. injection Hg as Hg <-. eauto.
Qed.

Lemma Kit_init_default (h : heap) :
  ∃ hdr,
    Kit_init None None h
    = (Return (mkKit hdr [length h; S (length h); S (S (length h));
                          S (S (S (length h)))]),
       h ++ [standard_voice; standard_voice; standard_voice; extended_voice]).
Proof.
  assert (∃ hdr, Kit_create_header 57 1 = Return hdr) as [hdr Hhdr]
    by (eexists; vm_compute; reflexivity).
  exists hdr. unfold Kit_init. rewrite Hhdr.
  unfold lift at 1. unfold bind at 1. unfold ret at 1.
  assert (Voice_init (empty_voice 26) = Return standard_voice) as H26
    by (vm_compute; reflexivity).
  assert (Voice_init (empty_voice 30) = Return extended_voice) as H30
    by (vm_compute; reflexivity).
  erewrite bind_Return by (by apply new_Voice_Return).
  erewrite bind_Return by (by apply new_Voice_Return).
  erewrite bind_Return by (by apply new_Voice_Return).
  erewrite bind_Return by (by apply new_Voice_Return).
  unfold ret. rewrite !length_app, <- !app_assoc. simpl.
  repeat f_equal; lia.
Qed.

Lemma with_local_inv {S L A} (l : L) (m : M (L * S) A) s r s' :
  with_local l m s = (Return r, s') → m (l, s) = (Return r.1, (r.2, s')).
Proof.
  unfold with_local. destruct (m (l, s)) as [[a|e] [l' s1]]; [|done].
  by intros [= <- <-].
Qed.

(** C2, amended: when [mix_kits] returns, the header of the new kit is the
    header of the first kit of the kit list ([kits[0]]), whatever the
    selections; there are exactly four selections, and for each target
    index 0..3 the new kit's voice at that index holds what [set_voice]
    stores for the voice the selection at that position names: its first
    26 bytes at indices 0-2, and at index 3 the voice as it is when it has
    30 or 32 bytes, or its 26 bytes followed by [1,0,1,0]. *)
Theorem mix_kits_spec
    (fs : filesystem) (kit_files : list string) (voice_selections : list (Z * Z))
    (h : heap) (k : Kit) (h' : heap) :
  mix_kits fs kit_files voice_selections h = (Return k, h') →
  ∃ kits h1 kit0,
    list_comp kit_files (Kit_from_file fs) h = (Return kits, h1) ∧
    kits !! 0 = Some kit0 ∧
    header k = header kit0 ∧
    length voice_selections = 4 ∧
    length (voices k) = 4 ∧
    ∀ (t : nat) kit_idx voice_idx,
      voice_selections !! t = Some (kit_idx, voice_idx) →
      ∃ kit source self l' stored,
        getitem kits kit_idx = Some kit ∧
        Kit_get_voice kit voice_idx = Return source ∧
        h' !! source = Some self ∧
        voices k !! t = Some l' ∧
        h' !! l' = Some stored ∧
        data stored = placed (Z.of_nat t) (empty_voice 30) (data self).
Proof.
  unfold mix_kits. case_bool_decide as Hlen; [done|].
  assert (length voice_selections = 4) as Hlen' by (unfold len in Hlen; lia).
  intros [(kits & h1 & Hkits & Hmix)|(? & _ & ?)]%bind_inv; [|done].
  destruct (Kit_init_default h1) as [hdr Hinit].
  erewrite bind_Return in Hmix by exact Hinit.
  destruct (kits !! 0) as [kit0|] eqn:Hk0; [|done].
  apply bind_inv in Hmix as [([[] K4] & H4 & Hloop & Hret)|(? & _ & ?)]; [|done].
  unfold ret in Hret. injection Hret as <- <-.
  apply with_local_inv in Hloop. cbn [header voices fst snd] in Hloop.
  destruct voice_selections as [|[a0 b0] [|[a1 b1] [|[a2 b2] [|[a3 b3] [|]]]]];
    try done.
  change (enumerate [(a0, b0); (a1, b1); (a2, b2); (a3, b3)])
    with [(0, (a0, b0)); (1, (a1, b1)); (2, (a2, b2)); (3, (a3, b3))]%Z in Hloop.
  apply for_each_cons_inv in Hloop as ([K1 H1] & Hs0 & Hloop).
  apply for_each_cons_inv in Hloop as ([K2 H2] & Hs1 & Hloop).
  apply for_each_cons_inv in Hloop as ([K3 H3] & Hs2 & Hloop).
  apply for_each_cons_inv in Hloop as ([K4' H4'] & Hs3 & Hloop).
  unfold for_each, ret in Hloop. injection Hloop as -> ->.
  apply mix_kits_body_inv in Hs0 as (kit_0 & src0 & Hg0 & Hv0 & Hs0).
  apply mix_kits_body_inv in Hs1 as (kit_1 & src1 & Hg1 & Hv1 & Hs1).
  apply mix_kits_body_inv in Hs2 as (kit_2 & src2 & Hg2 & Hv2 & Hs2).
  apply mix_kits_body_inv in Hs3 as (kit_3 & src3 & Hg3 & Hv3 & Hs3).
  apply Kit_set_voice_step in Hs0
    as (_ & _ & Hp0 & self0 & l0 & st0 & Hsrc0 & -> & Hst0 & Hd0 & _).
  apply Kit_set_voice_step in Hs1
    as (_ & _ & Hp1 & self1 & l1 & st1 & Hsrc1 & -> & Hst1 & Hd1 & _).
  apply Kit_set_voice_step in Hs2
    as (_ & _ & Hp2 & self2 & l2 & st2 & Hsrc2 & -> & Hst2 & Hd2 & _).
  apply Kit_set_voice_step in Hs3
    as (_ & _ & Hp3 & self3 & l3 & st3 & Hsrc3 & -> & Hst3 & _ & Hd3).
  change (Z.to_nat 0) with 0 in *. change (Z.to_nat 1) with 1 in *.
  change (Z.to_nat 2) with 2 in *. change (Z.to_nat 3) with 3 in *.
  simpl in Hd3 |- *.
  pose proof (transitivity Hp0 Hp1) as Hp01.
  pose proof (transitivity Hp01 Hp2) as Hp02.
  pose proof (transitivity Hp02 Hp3) as Hp03.
  pose proof (transitivity Hp1 Hp2) as Hp12.
  pose proof (transitivity Hp12 Hp3) as Hp13.
  pose proof (transitivity Hp2 Hp3) as Hp23.
  assert (H3 !! S (S (S (length h1))) = Some extended_voice) as Hv4.
  { eapply prefix_lookup_Some; [|exact Hp02].
    rewrite lookup_app_r by lia.
    by replace (S (S (S (length h1))) - length h1) with 3 by lia. }
  specialize (Hd3 eq_refl _ _ eq_refl Hv4).
  exists kits, h1, kit0. repeat (split; [done|]).
  intros t kit_idx voice_idx Ht.
  destruct t as [|[|[|[|t]]]]; simpl in Ht; [injection Ht as <- <-..|done].
  - exists kit_0, src0, self0, l0, st0. repeat (split; [done|]).
    split; [by eapply prefix_lookup_Some|].
    split; [done|].
    split; [by eapply prefix_lookup_Some|].
    apply Hd0. lia.
  - exists kit_1, src1, self1, l1, st1. repeat (split; [done|]).
    split; [by eapply prefix_lookup_Some|].
    split; [done|].
    split; [by eapply prefix_lookup_Some|].
    apply Hd1. lia.
  - exists kit_2, src2, self2, l2, st2. repeat (split; [done|]).
    split; [by eapply prefix_lookup_Some|].
    split; [done|].
    split; [by eapply prefix_lookup_Some|].
    apply Hd2. lia.
  - exists kit_3, src3, self3, l3, st3. repeat (split; [done|]).
    split; [by eapply prefix_lookup_Some|].
    done.
Qed.

Lemma mix_kits_spec_witness :
  ∃ k h',
    mix_kits example_fs ["a.kit"; "b.kit"] [(1, 3); (0, 0); (1, 1); (0, 2)]%Z []
      = (Return k, h') ∧
    ∃ kits h1 kit0,
      list_comp ["a.kit"; "b.kit"] (Kit_from_file example_fs) [] = (Return kits, h1) ∧
      kits !! 0 = Some kit0 ∧
      header k = header kit0 ∧
      length [(1, 3); (0, 0); (1, 1); (0, 2)]%Z = 4 ∧
      length (voices k) = 4 ∧
      ∀ (t : nat) kit_idx voice_idx,
        [(1, 3); (0, 0); (1, 1); (0, 2)]%Z !! t = Some (kit_idx, voice_idx) →
        ∃ kit source self l' stored,
          getitem kits kit_idx = Some kit ∧
          Kit_get_voice kit voice_idx = Return source ∧
          h' !! source = Some self ∧
          voices k !! t = Some l' ∧
          h' !! l' = Some stored ∧
          data stored = placed (Z.of_nat t) (empty_voice 30) (data self).
Proof.
  eexists _, _. split; [vm_compute; reflexivity|].
  apply (mix_kits_spec example_fs ["a.kit"; "b.kit"]
           [(1, 3); (0, 0); (1, 1); (0, 2)]%Z []).
  vm_compute. reflexivity.
Defined.

(** * Further properties of the code *)

(** ** Scalar fields of a voice *)

Lemma field_accepts_dec (f : field) (value : Z) :
  {field_accepts f value} + {¬ field_accepts f value}.
Proof.
  destruct f; simpl.
  - exact (decide (value = 0 ∨ value = 1 ∨ value = 2)%Z).
  - exact (decide (0 ≤ value ≤ 255)%Z).
Qed.

Lemma field_accepts_byte (f : field) (value : Z) :
  field_accepts f value → ∃ b, byte_of_int value = Some b ∧ int_of_byte b = value.
Proof.
  intros Ha. destruct (byte_of_int_is_Some value) as [b Hb].
  - destruct f; simpl in Ha; lia.
  - exists b. split; [done|]. by apply byte_of_int_Some.
Qed.

Lemma field_offset_lt (f : field) : field_offset f < 26.
Proof. destruct f as [[]|[]]; simpl; lia. Qed.

Lemma field_set_accepted (f : field) (value : Z) (b : byte) (self : Voice) :
  Voice_ok self → field_accepts f value → byte_of_int value = Some b →
  field_set f value self
  = (Return tt,
     mkVoice (<[field_offset f := b]> (data self)) (is_voice4 self)
       (has_sampler self)).
Proof.
  intros (Hlen & _) Ha Hb.
  destruct f as [[]|[]]; simpl in *; unfold_setters; unfold_monad; simpl.
  all: try (rewrite bool_decide_false
              by (rewrite !elem_of_cons, elem_of_nil; lia)).
  all: try (rewrite bool_decide_true by done); simpl.
  all: rewrite Hb; by (case_decide; [|lia]).
Qed.

Lemma field_set_refused (f : field) (value : Z) (self : Voice) :
  ¬ field_accepts f value →
  field_set f value self
  = (Raise (match f with
            | FToggle t => ToggleOutOfRange t
            | FPot p => ValueOutOfRange p
            end), self).
Proof.
  intros Ha.
  destruct f as [[]|[]]; simpl in *; unfold_setters; unfold_monad; simpl.
  all: try (rewrite bool_decide_true
              by (rewrite !elem_of_cons, elem_of_nil; lia)).
  all: try (rewrite bool_decide_false by done); simpl.
  all: done.
Qed.

Lemma field_get_lookup (f : field) (self : Voice) (b : byte) :
  data self !! field_offset f = Some b →
  field_get f self = (Return (int_of_byte b), self).
Proof.
  intros Hb.
  destruct f as [[]|[]]; simpl in *; unfold_getters; unfold_monad; simpl;
    rewrite Hb; by rewrite Voice_eta.
Qed.

(** X1: on every voice built by [Voice.__init__], each toggle setter (ALGO,
    MODE, VCF) raises exactly when the value is not 0, 1 or 2, with that
    field's [ValueError], and after a setter that returned the getter of
    the same field returns the value set. *)
Theorem toggle_range_and_readback
    (d : bytes) (self : Voice) (t : toggle) (value : Z) :
  Voice_init d = Return self →
  ((∃ e, result_of (toggle_set t value) self = Raise e)
   ↔ ¬ (value = 0 ∨ value = 1 ∨ value = 2)%Z) ∧
  (∀ e, result_of (toggle_set t value) self = Raise e → e = ToggleOutOfRange t) ∧
  (result_of (toggle_set t value) self = Return tt →
   result_of (toggle_get t) (state_after (toggle_set t value) self) = Return value).
Proof.
  intros [Hok _]%Voice_init_ok. unfold result_of, state_after.
  destruct (field_accepts_dec (FToggle t) value) as [Ha|Ha].
  - destruct (field_accepts_byte _ _ Ha) as (b & Hb & Hrb).
    pose proof (field_set_accepted (FToggle t) value b self Hok Ha Hb) as Hset.
    simpl in Hset. rewrite Hset. simpl.
    split; [split; [by intros [? ?]|by intros []]|]. split; [done|]. intros _.
    change (toggle_get t) with (field_get (FToggle t)).
    rewrite (field_get_lookup (FToggle t) _ b); [by rewrite Hrb|]. simpl.
    apply list_lookup_insert_eq. destruct Hok as (Hl & _).
    destruct t; simpl; lia.
  - pose proof (field_set_refused (FToggle t) value self Ha) as Hset.
    simpl in Hset. rewrite Hset. simpl.
    split; [split; [done|eauto]|]. split; [by intros ? [= <-]|done].
Qed.

Lemma toggle_range_and_readback_witness :
  Voice_init (empty_voice 30) = Return extended_voice ∧
  result_of (toggle_get MODE) (state_after (toggle_set MODE 2) extended_voice)
  = Return 2%Z.
Proof.
  split; [reflexivity|].
  apply (toggle_range_and_readback (empty_voice 30)); reflexivity.
Defined.

(** X2: a scalar setter that returns has written the value at the byte the
    layout table gives the field and nowhere else: every other byte of the
    buffer, the paired "quantized" byte and the marker among them, is what
    it was, and so is the length. *)
Theorem field_set_writes_one_byte
    (d : bytes) (self : Voice) (f : field) (value : Z) (self' : Voice) :
  Voice_init d = Return self →
  field_set f value self = (Return tt, self') →
  field_accepts f value ∧
  (int_of_byte <$> data self' !! field_offset f) = Some value ∧
  (∀ i, i ≠ field_offset f → data self' !! i = d !! i) ∧
  length (data self') = length d.
Proof.
  intros [Hok Hd]%Voice_init_ok Hset.
  destruct (field_accepts_dec f value) as [Ha|Ha];
    [|by rewrite (field_set_refused _ _ _ Ha) in Hset].
  destruct (field_accepts_byte _ _ Ha) as (b & Hb & Hrb).
  rewrite (field_set_accepted f value b self Hok Ha Hb) in Hset.
  injection Hset as <-. simpl. rewrite Hd.
  destruct Hok as (Hl & _). rewrite Hd in Hl.
  pose proof (field_offset_lt f).
  split; [done|]. split; [by rewrite list_lookup_insert_eq, <- Hrb by lia|].
  split; [|by rewrite length_insert].
  intros i Hi. by rewrite list_lookup_insert_ne.
Qed.

Lemma field_set_writes_one_byte_witness :
  Voice_init (empty_voice 26) = Return standard_voice ∧
  ∀ i, i ≠ field_offset (FPot CUTOFF) →
       data (state_after (field_set (FPot CUTOFF) 200) standard_voice) !! i
       = empty_voice 26 !! i.
Proof.
  split; [reflexivity|].
  apply (field_set_writes_one_byte (empty_voice 26) standard_voice
           (FPot CUTOFF) 200); reflexivity.
Defined.

Lemma field_offset_inj (f g : field) : field_offset f = field_offset g → f = g.
Proof. destruct f as [[]|[]], g as [[]|[]]; simpl; intros; done || lia. Qed.

(** X3: the eleven fields do not overlap.  After a setter of one field has
    returned, the getter of any other field returns what it returned
    before; and two setters of different fields that both accept their
    values leave the same voice behind in either order. *)
Theorem fields_independent
    (d : bytes) (self : Voice) (f g : field) (a b : Z) :
  Voice_init d = Return self →
  f ≠ g →
  (result_of (field_set f a) self = Return tt →
   result_of (field_get g) (state_after (field_set f a) self)
   = result_of (field_get g) self) ∧
  (field_accepts f a → field_accepts g b →
   state_after (field_set f a ;;; field_set g b) self
   = state_after (field_set g b ;;; field_set f a) self).
Proof.
  intros [Hok Hd]%Voice_init_ok Hfg.
  assert (field_offset f ≠ field_offset g) as Hoff
    by (intros Heq; by apply Hfg, field_offset_inj).
  pose proof (field_offset_lt f) as Hf. pose proof (field_offset_lt g) as Hg.
  pose proof Hok as (Hl & H4 & Hs).
  destruct (lookup_lt_is_Some_2 (data self) (field_offset g)) as [bg Hbg]; [lia|].
  unfold result_of, state_after. split.
  - destruct (field_accepts_dec f a) as [Ha|Ha];
      [|by rewrite (field_set_refused _ _ _ Ha)].
    destruct (field_accepts_byte _ _ Ha) as (ba & Hba & _).
    rewrite (field_set_accepted f a ba self Hok Ha Hba). simpl. intros _.
    rewrite (field_get_lookup g self bg Hbg).
    rewrite (field_get_lookup g _ bg); [done|]. simpl.
    by rewrite list_lookup_insert_ne.
  - intros Ha Hb.
    destruct (field_accepts_byte _ _ Ha) as (ba & Hba & _).
    destruct (field_accepts_byte _ _ Hb) as (bb & Hbb & _).
    assert (∀ (x : bytes), length x = length (data self) →
              Voice_ok (mkVoice x (is_voice4 self) (has_sampler self))) as Hok'.
    { intros x Hx. unfold Voice_ok. simpl. by rewrite Hx. }
    erewrite !bind_Return; cycle 1.
    { by apply field_set_accepted. }
    { by apply field_set_accepted. }
    rewrite (field_set_accepted g b bb) by (done || by apply Hok', length_insert).
    rewrite (field_set_accepted f a ba) by (done || by apply Hok', length_insert).
    simpl. by rewrite list_insert_insert_ne.
Qed.

Lemma fields_independent_witness :
  Voice_init (empty_voice 32) = Return sampler_voice ∧
  state_after (field_set (FPot TUNE) 9 ;;; field_set (FToggle VCF) 1) sampler_voice
  = state_after (field_set (FToggle VCF) 1 ;;; field_set (FPot TUNE) 9) sampler_voice.
Proof.
  split; [reflexivity|].
  apply (fields_independent (empty_voice 32) sampler_voice
           (FPot TUNE) (FToggle VCF) 9 1);
    [reflexivity|discriminate|simpl; lia|simpl; lia].
Defined.

(** ** Sections of a voice *)

Lemma splice_lookup {A} (d v : list A) (lo w i : nat) :
  length v = w → lo + w ≤ length d → ¬ (lo ≤ i < lo + w) →
  (take lo d ++ v ++ drop (lo + w) d) !! i = d !! i.
Proof.
  intros Hv Hd Hi. destruct (decide (i < lo)) as [Hlt|Hge].
  - rewrite lookup_app_l by (rewrite length_take; lia).
    by rewrite lookup_take_lt.
  - rewrite lookup_app_r by (rewrite length_take; lia).
    rewrite length_take. rewrite lookup_app_r by lia.
    rewrite lookup_drop. f_equal. lia.
Qed.

Lemma splice_length {A} (d v : list A) (lo w : nat) :
  length v = w → lo + w ≤ length d →
  length (take lo d ++ v ++ drop (lo + w) d) = length d.
Proof.
  intros Hv Hd. rewrite !length_app, length_take, length_drop. lia.
Qed.

Lemma splice_slice {A} (d v : list A) (lo w : nat) :
  length v = w → lo + w ≤ length d →
  slice (take lo d ++ v ++ drop (lo + w) d) (Z.of_nat lo) (Z.of_nat (lo + w)) = v.
Proof.
  intros Hv Hd.
  rewrite slice_take_drop
    by (unfold len; rewrite ?splice_length by done; lia).
  rewrite !Nat2Z.id. rewrite drop_app_length' by (rewrite length_take; lia).
  replace (lo + w - lo) with (length v) by lia.
  by rewrite take_app_length.
Qed.

Lemma section_present_dec (s : section) (n : nat) :
  {section_present s n} + {¬ section_present s n}.
Proof.
  destruct s; simpl; [by left|by left| |].
  - exact (decide (n = 30 ∨ n = 32)).
  - exact (decide (n = 32)).
Qed.

Lemma section_set_written (s : section) (value : bytes) (self : Voice) :
  Voice_ok self →
  section_present s (length (data self)) →
  length value = section_width s →
  section_set s value self
  = (Return tt,
     mkVoice (take (section_start s) (data self) ++ value
                ++ drop (section_start s + section_width s) (data self))
       (is_voice4 self) (has_sampler self)).
Proof.
  intros (Hl & H4 & Hs) Hp Hv. destruct self as [dd v4 vs].
  simpl in *. subst v4 vs.
  destruct s; simpl in *; unfold_setters; unfold_monad; simpl;
    rewrite ?(bool_decide_true (_ ∨ _)), ?(bool_decide_true (_ = 32)) by done;
    simpl; rewrite bool_decide_false by (unfold len; lia); done.
Qed.

Lemma section_set_unavailable (s : section) (value : bytes) (self : Voice) :
  Voice_ok self →
  ¬ section_present s (length (data self)) →
  section_set s value self = (Raise (SectionUnavailable s), self).
Proof.
  intros (Hl & H4 & Hs) Hp. destruct self as [dd v4 vs].
  simpl in *. subst v4 vs.
  destruct s; simpl in *; [done|done| |]; unfold_setters; unfold_monad; simpl;
    by rewrite bool_decide_false.
Qed.

Lemma section_set_mismatch (s : section) (value : bytes) (self : Voice) :
  Voice_ok self →
  section_present s (length (data self)) →
  length value ≠ section_width s →
  section_set s value self = (Raise (SectionLengthMismatch s), self).
Proof.
  intros (Hl & H4 & Hs) Hp Hv. destruct self as [dd v4 vs].
  simpl in *. subst v4 vs.
  destruct s; simpl in *; unfold_setters; unfold_monad; simpl;
    rewrite ?(bool_decide_true (_ ∨ _)), ?(bool_decide_true (_ = 32)) by done;
    simpl; rewrite bool_decide_true by (unfold len; lia); done.
Qed.

Lemma section_fits (s : section) (n : nat) :
  n = 26 ∨ n = 30 ∨ n = 32 → section_present s n →
  section_start s + section_width s ≤ n.
Proof. destruct s; simpl; lia. Qed.

(** X4: on a voice built by [Voice.__init__] a section setter returns
    exactly when the buffer length has the section (extra params: 30 or 32
    bytes; sampler params: 32 bytes; the other two always) and the value
    has the section's width (4, 18, 4, 2).  When the section is missing the
    setter raises its "only voice 4" error whatever the value is; otherwise
    a value of the wrong length raises the length error.  In both cases the
    voice is left as it was. *)
Theorem section_set_outcome
    (d : bytes) (self : Voice) (s : section) (value : bytes) :
  Voice_init d = Return self →
  (result_of (section_set s value) self = Return tt
   ↔ section_present s (length d) ∧ length value = section_width s) ∧
  (¬ section_present s (length d) →
   section_set s value self = (Raise (SectionUnavailable s), self)) ∧
  (section_present s (length d) → length value ≠ section_width s →
   section_set s value self = (Raise (SectionLengthMismatch s), self)).
Proof.
  intros [Hok Hd]%Voice_init_ok. rewrite <- Hd.
  split; [|split].
  - unfold result_of.
    destruct (section_present_dec s (length (data self))) as [Hp|Hp].
    + destruct (decide (length value = section_width s)) as [Hv|Hv].
      * by rewrite (section_set_written _ _ _ Hok Hp Hv).
      * rewrite (section_set_mismatch _ _ _ Hok Hp Hv). simpl.
        split; [done|tauto].
    + rewrite (section_set_unavailable _ _ _ Hok Hp). simpl.
      split; [done|tauto].
  - by apply section_set_unavailable.
  - by apply section_set_mismatch.
Qed.

Lemma section_set_outcome_witness :
  Voice_init (empty_voice 30) = Return extended_voice ∧
  section_set SamplerParams ["001"; "002"]%byte extended_voice
  = (Raise (SectionUnavailable SamplerParams), extended_voice).
Proof.
  split; [reflexivity|].
  apply (section_set_outcome (empty_voice 30)); [reflexivity|].
  simpl. vm_compute. lia.
Defined.

(** X5: after a section setter has returned, the getter of that section
    returns exactly the bytes that were set, and every byte outside the
    section is what it was. *)
Theorem section_set_get
    (d : bytes) (self : Voice) (s : section) (value : bytes) (self' : Voice) :
  Voice_init d = Return self →
  section_set s value self = (Return tt, self') →
  result_of (section_get s) self' = Return (Some value) ∧
  length (data self') = length d ∧
  ∀ i, ¬ (section_start s ≤ i < section_start s + section_width s) →
       data self' !! i = d !! i.
Proof.
  intros [Hok Hd]%Voice_init_ok Hset. rewrite <- Hd.
  pose proof Hok as (Hl & H4 & Hs).
  destruct (section_present_dec s (length (data self))) as [Hp|Hp];
    [|by rewrite (section_set_unavailable _ _ _ Hok Hp) in Hset].
  destruct (decide (length value = section_width s)) as [Hv|Hv];
    [|by rewrite (section_set_mismatch _ _ _ Hok Hp Hv) in Hset].
  rewrite (section_set_written _ _ _ Hok Hp Hv) in Hset.
  injection Hset as <-. simpl.
  pose proof (section_fits s _ Hl Hp) as Hfit.
  split; [|split].
  - pose proof (splice_slice (data self) value (section_start s)
                  (section_width s) Hv Hfit) as Hsl.
    destruct s; simpl in *;
      [change (Z.of_nat 0) with 0%Z in Hsl; change (Z.of_nat 4) with 4%Z in Hsl
      |change (Z.of_nat 8) with 8%Z in Hsl; change (Z.of_nat 26) with 26%Z in Hsl
      |change (Z.of_nat 26) with 26%Z in Hsl; change (Z.of_nat 30) with 30%Z in Hsl
      |change (Z.of_nat 30) with 30%Z in Hsl; change (Z.of_nat 32) with 32%Z in Hsl];
      unfold result_of, Voice_pre_marker_params,
        Voice_parameters, Voice_extra_params, Voice_sampler_params;
      unfold_monad; simpl; rewrite ?H4, ?Hs;
      rewrite ?(bool_decide_true (_ ∨ _)), ?(bool_decide_true (_ = 32)) by done;
      simpl; by rewrite Hsl.
  - by apply splice_length.
  - intros i Hi. by apply splice_lookup.
Qed.

Lemma section_set_get_witness :
  Voice_init (empty_voice 32) = Return sampler_voice ∧
  result_of (section_get ExtraParams)
    (state_after (section_set ExtraParams marker) sampler_voice)
  = Return (Some marker).
Proof.
  split; [reflexivity|].
  apply (section_set_get (empty_voice 32) sampler_voice ExtraParams marker);
    reflexivity.
Defined.

(** X6: the sections of a voice built by [Voice.__init__] tile its buffer:
    pre-marker params (4 bytes), marker (4), parameters (18), then the
    extra params (4 bytes, returned exactly when the buffer has 30 or 32
    bytes, else [None]) and the sampler params (2 bytes, exactly when it
    has 32), in this order and with nothing left over. *)
Theorem sections_tile_the_buffer (d : bytes) (self : Voice) :
  Voice_init d = Return self →
  ∃ pre mk par extra sampler,
    Voice_pre_marker_params self = (Return pre, self) ∧
    Voice_marker self = (Return mk, self) ∧
    Voice_parameters self = (Return par, self) ∧
    Voice_extra_params self = (Return extra, self) ∧
    Voice_sampler_params self = (Return sampler, self) ∧
    pre ++ mk ++ par ++ default [] extra ++ default [] sampler = d ∧
    length pre = 4 ∧ length mk = 4 ∧ length par = 18 ∧
    (extra = None ↔ length d = 26) ∧ length (default [] extra) = length d - 26
      - length (default [] sampler) ∧
    (sampler = None ↔ length d ≠ 32) ∧
    length (default [] sampler) = length d - 30.
Proof.
  intros [(Hl & H4 & Hs) Hd]%Voice_init_ok.
  destruct self as [dd v4 vs]. simpl in *. subst dd v4 vs.
  unfold Voice_pre_marker_params, Voice_marker, Voice_parameters,
    Voice_extra_params, Voice_sampler_params. unfold_monad. simpl.
  assert (∀ lo hi : Z, (0 ≤ lo ≤ hi)%Z → (hi ≤ len d)%Z →
            length (slice d lo hi) = Z.to_nat (hi - lo)) as Hlen.
  { intros lo hi Hlo Hhi. rewrite slice_take_drop by lia.
    rewrite length_take, length_drop. unfold len in *. lia. }
  destruct Hl as [Hl|[Hl|Hl]].
  - rewrite !bool_decide_false by lia.
    eexists _, _, _, None, None. repeat (split; [reflexivity|]). simpl.
    split.
    { rewrite !app_nil_r, !app_assoc.
      rewrite !slice_prefix_app by (unfold len; lia).
      replace 26%Z with (len d) by (unfold len; lia). apply slice_all. }
    rewrite !Hlen by (unfold len; lia). simpl. repeat split; (done || lia).
  - rewrite bool_decide_true by lia. rewrite bool_decide_false by lia.
    eexists _, _, _, (Some _), None. repeat (split; [reflexivity|]). simpl.
    split.
    { rewrite !app_nil_r, !app_assoc.
      rewrite !slice_prefix_app by (unfold len; lia).
      replace 30%Z with (len d) by (unfold len; lia). apply slice_all. }
    rewrite !Hlen by (unfold len; lia). simpl. repeat split; (done || lia).
  - rewrite !bool_decide_true by lia.
    eexists _, _, _, (Some _), (Some _). repeat (split; [reflexivity|]). simpl.
    split.
    { rewrite !app_assoc.
      rewrite !slice_prefix_app by (unfold len; lia).
      replace 32%Z with (len d) by (unfold len; lia). apply slice_all. }
    rewrite !Hlen by (unfold len; lia). simpl. repeat split; (done || lia).
Qed.

Lemma sections_tile_the_buffer_witness :
  ∃ pre mk par extra sampler,
    Voice_pre_marker_params extended_voice = (Return pre, extended_voice) ∧
    Voice_marker extended_voice = (Return mk, extended_voice) ∧
    Voice_parameters extended_voice = (Return par, extended_voice) ∧
    Voice_extra_params extended_voice = (Return extra, extended_voice) ∧
    Voice_sampler_params extended_voice = (Return sampler, extended_voice) ∧
    pre ++ mk ++ par ++ default [] extra ++ default [] sampler = empty_voice 30 ∧
    length pre = 4 ∧ length mk = 4 ∧ length par = 18 ∧
    (extra = None ↔ length (empty_voice 30) = 26) ∧
    length (default [] extra)
      = length (empty_voice 30) - 26 - length (default [] sampler) ∧
    (sampler = None ↔ length (empty_voice 30) ≠ 32) ∧
    length (default [] sampler) = length (empty_voice 30) - 30.
Proof.
  apply (sections_tile_the_buffer (empty_voice 30) extended_voice). reflexivity.
Defined.

Lemma slice_ext {A} (l l' : list A) (lo hi : nat) :
  length l = length l' →
  (∀ i, lo ≤ i < hi → l !! i = l' !! i) →
  slice l (Z.of_nat lo) (Z.of_nat hi) = slice l' (Z.of_nat lo) (Z.of_nat hi).
Proof.
  intros Hlen Hext. unfold slice, len. rewrite <- Hlen.
  set (start := Z.to_nat (adjust_index (Z.of_nat (length l)) (Z.of_nat lo))).
  set (n := Z.to_nat (adjust_index (Z.of_nat (length l)) (Z.of_nat hi)
                      - adjust_index (Z.of_nat (length l)) (Z.of_nat lo))).
  assert (lo ≤ start ∨ length l ≤ start) as Hstart
    by (subst start; unfold adjust_index; case_decide; lia).
  assert (start + n ≤ hi ∨ n = 0) as Hn
    by (subst start n; unfold adjust_index; repeat case_decide; lia).
  apply list_eq. intros j.
  destruct (decide (j < n)) as [Hj|Hj].
  - rewrite !lookup_take_lt, !lookup_drop by done.
    destruct Hstart as [Hs|Hs].
    + apply Hext. lia.
    + rewrite !lookup_ge_None_2 by lia. done.
  - by rewrite !lookup_take_ge by lia.
Qed.

Lemma apply_setter_frame (op : setter) (self : Voice) (i : nat) :
  Voice_ok self →
  ¬ ((footprint op).1 ≤ i < (footprint op).1 + (footprint op).2) →
  data (state_after (apply_setter op) self) !! i = data self !! i.
Proof.
  intros Hok Hi. unfold state_after.
  assert (∀ f value, ¬ (field_offset f ≤ i < field_offset f + 1) →
            data (field_set f value self).2 !! i = data self !! i) as Hfield.
  { intros f value Hf.
    destruct (field_accepts_dec f value) as [Ha|Ha];
      [|by rewrite (field_set_refused _ _ _ Ha)].
    destruct (field_accepts_byte _ _ Ha) as (b & Hb & _).
    rewrite (field_set_accepted f value b self Hok Ha Hb). simpl.
    apply list_lookup_insert_ne. lia. }
  assert (∀ s value,
            ¬ (section_start s ≤ i < section_start s + section_width s) →
            data (section_set s value self).2 !! i = data self !! i) as Hsec.
  { intros s value Hs.
    destruct (section_present_dec s (length (data self))) as [Hp|Hp];
      [|by rewrite (section_set_unavailable _ _ _ Hok Hp)].
    destruct (decide (length value = section_width s)) as [Hv|Hv];
      [|by rewrite (section_set_mismatch _ _ _ Hok Hp Hv)].
    rewrite (section_set_written _ _ _ Hok Hp Hv). simpl.
    destruct Hok as (Hl & _).
    apply splice_lookup; [done| |done]. by apply section_fits. }
  destruct op as [t v|f v|v|v|v|v]; simpl in Hi.
  - apply (Hfield (FToggle t)). simpl. lia.
  - apply (Hfield (FPot f)). simpl. lia.
  - apply (Hsec PreMarker). simpl. lia.
  - apply (Hsec Parameters). simpl. lia.
  - apply (Hsec ExtraParams). simpl. lia.
  - apply (Hsec SamplerParams). simpl. lia.
Qed.

Lemma footprint_avoids_marker (op : setter) (i : nat) :
  4 ≤ i < 8 →
  ¬ ((footprint op).1 ≤ i < (footprint op).1 + (footprint op).2).
Proof. destruct op as [[]|[]| | | |]; simpl; lia. Qed.

(** X7: no setter writes the marker.  Whatever setters are called on a
    voice built by [Voice.__init__], in any number and each returning or
    raising, bytes 4-7 stay what they were when the voice was built; so
    [Voice.marker] keeps returning the same four bytes, and a voice built
    without a marker warning still has its marker. *)
Theorem setters_keep_marker (d : bytes) (self : Voice) (ops : list setter) :
  Voice_init d = Return self →
  Voice_marker (apply_setters ops self)
    = (Return (slice d 4 8), apply_setters ops self) ∧
  (marker_warning d = false →
   slice (data (apply_setters ops self)) 4 8 = marker).
Proof.
  intros [Hok Hd]%Voice_init_ok.
  assert (slice (data (apply_setters ops self)) 4 8 = slice d 4 8) as Hm.
  { rewrite <- Hd. clear Hd. unfold apply_setters. revert self Hok.
    induction ops as [|op ops IH]; intros self Hok; [done|]. simpl.
    rewrite IH by (by apply apply_setter_ok).
    apply (slice_ext _ _ 4 8).
    - by apply apply_setter_length.
    - intros i Hi. apply apply_setter_frame; [done|].
      by apply footprint_avoids_marker. }
  split.
  - unfold Voice_marker. unfold_monad. by rewrite Hm.
  - unfold marker_warning. intros Hw. rewrite Hm.
    apply bool_decide_eq_false in Hw. by apply dec_stable.
Qed.

Lemma setters_keep_marker_witness :
  Voice_init (empty_voice 26) = Return standard_voice ∧
  slice (data (apply_setters
                 [SetPreMarkerParams marker; SetParameters (replicate 18 "255"%byte);
                  SetPot TUNE 255; SetToggle ALGO 2]
                 standard_voice)) 4 8 = marker.
Proof.
  split; [reflexivity|].
  apply (setters_keep_marker (empty_voice 26)); reflexivity.
Defined.

(** ** More on Kit.set_voice *)

Lemma Kit_set_voice_bad_index index voice (k : Kit) (h : heap) :
  ¬ (0 ≤ index < 4)%Z →
  Kit_set_voice index voice (k, h)
  = (Raise (ValueError "Voice index must be 0-3"), (k, h)).
Proof.
  intros Hi. unfold Kit_set_voice. by rewrite bool_decide_false.
Qed.

Lemma Kit_set_voice_bad_length index voice (k : Kit) (h : heap) self :
  (0 ≤ index < 4)%Z →
  h !! voice = Some self →
  ¬ (length (data self) = 26 ∨ length (data self) = 30 ∨ length (data self) = 32) →
  Kit_set_voice index voice (k, h)
  = (Raise (if decide (index < 3)%Z
            then ValueError ("Voice " +:+ str (index + 1) +:+ " must be 26 bytes")
            else ValueError "Voice 4 must be 26, 30, or 32 bytes"),
     (k, h)).
Proof.
  intros Hidx Hv Hl. unfold Kit_set_voice.
  rewrite bool_decide_true by lia. simpl. unfold bind at 1.
  case_decide.
  - rewrite bool_decide_true by lia.
    erewrite bind_Return
      by (rewrite in_heap_eq, (call_Voice_data _ _ _ Hv); reflexivity).
    rewrite bool_decide_true by (unfold len; lia).
    rewrite bool_decide_false
      by (unfold len; rewrite !elem_of_cons, elem_of_nil; lia).
    done.
  - rewrite bool_decide_false by lia.
    erewrite bind_Return
      by (rewrite in_heap_eq, (call_Voice_data _ _ _ Hv); reflexivity).
    rewrite bool_decide_false by (unfold len; lia).
    rewrite bool_decide_true
      by (unfold len; rewrite !elem_of_cons, elem_of_nil; lia).
    done.
Qed.

(** X8: on a kit of four voices, [set_voice] with a voice of the store
    returns exactly when the index is 0..3 and the voice's buffer has 26,
    30 or 32 bytes.  An index outside 0..3 raises the index error, whatever
    the voice; a buffer of another length raises "Voice n must be 26 bytes"
    at indices 0-2 and "Voice 4 must be 26, 30, or 32 bytes" at index 3.
    Each of these failures leaves kit and store as they were. *)
Theorem set_voice_outcome
    (k : Kit) (h : heap) (index : Z) (voice : loc) (self : Voice) :
  kit_in_store k h →
  h !! voice = Some self →
  let valid_length :=
    length (data self) = 26 ∨ length (data self) = 30 ∨ length (data self) = 32 in
  ((∃ s', Kit_set_voice index voice (k, h) = (Return tt, s'))
   ↔ (0 ≤ index < 4)%Z ∧ valid_length) ∧
  (¬ (0 ≤ index < 4)%Z →
   Kit_set_voice index voice (k, h)
   = (Raise (ValueError "Voice index must be 0-3"), (k, h))) ∧
  ((0 ≤ index < 3)%Z → ¬ valid_length →
   Kit_set_voice index voice (k, h)
   = (Raise (ValueError ("Voice " +:+ str (index + 1) +:+ " must be 26 bytes")),
      (k, h))) ∧
  (index = 3%Z → ¬ valid_length →
   Kit_set_voice index voice (k, h)
   = (Raise (ValueError "Voice 4 must be 26, 30, or 32 bytes"), (k, h))).
Proof.
  intros [Hk Hin] Hv valid_length.
  split; [split|split; [|split]].
  - intros [[k' h'] Hs].
    apply Kit_set_voice_success in Hs as (Hidx & _ & self' & l' & Hv' & _ & Hc).
    rewrite Hv in Hv'. injection Hv' as <-. split; [done|].
    subst valid_length. destruct Hc as [(_ & _ & ?)|[(_ & _ & ? & _)|(_ & _ & ? & _)]]; lia.
  - intros [Hidx Hl]. subst valid_length.
    destruct (decide (index < 3)%Z) as [Hlt|Hge].
    + destruct Hl as [Hl|Hl].
      * eexists. apply (Kit_set_voice_as_is _ _ _ _ self);
          [done|lia|left; split; [lia|done]].
      * eexists. apply (Kit_set_voice_truncate _ _ _ _ self); [done|lia|lia|done].
    + assert (index = 3%Z) as -> by lia.
      destruct (lookup_lt_is_Some_2 (voices k) 3) as [v4 Hv4]; [lia|].
      destruct (Hin v4) as [self4 Hs4]; [by eapply list_elem_of_lookup_2|].
      destruct Hl as [Hl|Hl].
      * eexists. by apply (Kit_set_voice_upgrade _ _ _ self v4 self4).
      * eexists. apply (Kit_set_voice_as_is _ _ _ _ self); [done| |by right].
        change (Z.to_nat 3) with 3. lia.
  - apply Kit_set_voice_bad_index.
  - intros Hidx Hl.
    rewrite (Kit_set_voice_bad_length _ _ _ _ self) by (done || lia).
    by case_decide; [|lia].
  - intros -> Hl.
    by rewrite (Kit_set_voice_bad_length _ _ _ _ self) by (done || lia).
Qed.

Lemma set_voice_outcome_witness :
  example_store !! 6 = Some sampler_voice ∧
  Kit_set_voice 4 6 (example_kit, example_store)
  = (Raise (ValueError "Voice index must be 0-3"), (example_kit, example_store)).
Proof.
  split; [reflexivity|].
  apply (set_voice_outcome example_kit example_store 4 6 sampler_voice).
  - split; [reflexivity|]. intros l Hl.
    apply lookup_lt_is_Some_2. unfold example_kit in Hl. simpl in *.
    rewrite !elem_of_cons, elem_of_nil in Hl. lia.
  - reflexivity.
  - lia.
Defined.

(** X9: a [set_voice] that returns has changed one slot and nothing else:
    the header is the same (its size bytes are not recomputed, even when
    slot 3 changes length), [get_voice] at every other index behaves as
    before, and every object of the store, the supplied voice included,
    holds the bytes it held. *)
Theorem set_voice_frame
    (k : Kit) (h : heap) (index : Z) (voice : loc) (k' : Kit) (h' : heap) :
  Kit_set_voice index voice (k, h) = (Return tt, (k', h')) →
  header k' = header k ∧
  length (voices k') = length (voices k) ∧
  (∀ j, j ≠ index → Kit_get_voice k' j = Kit_get_voice k j) ∧
  (∀ l self, h !! l = Some self → h' !! l = Some self).
Proof.
  intros (Hidx & Hlen & self & l' & Hv & -> & Hcases)%Kit_set_voice_success.
  simpl. split; [done|]. split; [by rewrite length_insert|]. split.
  - intros j Hj. unfold Kit_get_voice. simpl.
    destruct (bool_decide (0 ≤ j < 4)%Z) eqn:Hb; simpl; [|done].
    apply bool_decide_eq_true in Hb. unfold getitem.
    case_decide; [lia|]. rewrite list_lookup_insert_ne by lia. done.
  - intros l v Hl.
    destruct Hcases as [(_ & -> & _)|[(_ & _ & _ & ->)|(_ & _ & _ & ? & ? & _ & _ & ->)]];
      [done|by apply lookup_app_l_Some..].
Qed.

Lemma set_voice_frame_witness :
  header (mkKit (header example_kit) (<[3 := 5]> (voices example_kit)))
    = header example_kit ∧
  length (voices (mkKit (header example_kit) (<[3 := 5]> (voices example_kit))))
    = length (voices example_kit) ∧
  (∀ j, j ≠ 3%Z →
        Kit_get_voice (mkKit (header example_kit) (<[3 := 5]> (voices example_kit))) j
        = Kit_get_voice example_kit j) ∧
  (∀ l self, example_store !! l = Some self → example_store !! l = Some self).
Proof.
  apply (set_voice_frame example_kit example_store 3 5). reflexivity.
Defined.

Lemma slot_length_ok_stored (index : Z) (n : nat) :
  (0 ≤ index < 4)%Z →
  ((index < 3)%Z ∧ n = 26 ∨ index = 3%Z ∧ (n = 30 ∨ n = 32)) →
  slot_length_ok (Z.to_nat index) n.
Proof. intros Hi Hn. unfold slot_length_ok. case_decide; lia. Qed.

Lemma Kit_set_voice_shape
    (k : Kit) (h : heap) (index : Z) (voice : loc) (k' : Kit) (h' : heap) :
  Kit_set_voice index voice (k, h) = (Return tt, (k', h')) →
  (∃ l v, voices k' !! Z.to_nat index = Some l ∧ h' !! l = Some v ∧
          slot_length_ok (Z.to_nat index) (length (data v))) ∧
  (kit_shape k h → kit_shape k' h').
Proof.
  intros Hs.
  assert (∃ l v, voices k' !! Z.to_nat index = Some l ∧ h' !! l = Some v ∧
                 slot_length_ok (Z.to_nat index) (length (data v))) as Hslot.
  { apply Kit_set_voice_success in Hs
      as (Hidx & Hlen & self & l' & Hv & -> & Hcases).
    simpl. exists l'. rewrite list_lookup_insert_eq by done.
    destruct Hcases as [(-> & -> & Hc)|[(-> & Hi & Hl & ->)|(-> & Hi & Hl & Hup)]].
    - exists self. repeat (split; [done|]). apply slot_length_ok_stored; lia.
    - eexists. split; [done|].
      split; [by rewrite lookup_app_r, Nat.sub_diag by lia|]. simpl.
      apply slot_length_ok_stored; [done|]. rewrite length_take. lia.
    - destruct Hup as (v4 & self4 & _ & _ & ->). eexists. split; [done|].
      split; [by rewrite lookup_app_r, Nat.sub_diag by lia|]. simpl.
      apply slot_length_ok_stored; [done|]. rewrite !length_app.
      case_decide; simpl; lia. }
  split; [done|]. intros [Hk Hshape].
  pose proof (set_voice_frame_aux := Kit_set_voice_success _ _ _ _ _ _ Hs).
  destruct set_voice_frame_aux as (Hidx & Hlen & self & l' & Hv & Hk' & Hcases).
  assert (∀ l v, h !! l = Some v → h' !! l = Some v) as Hmono.
  { intros l v Hl.
    destruct Hcases as [(_ & -> & _)|[(_ & _ & _ & ->)|(_ & _ & _ & ? & ? & _ & _ & ->)]];
      [done|by apply lookup_app_l_Some..]. }
  split; [rewrite Hk'; simpl; by rewrite length_insert|].
  intros i l Hl. destruct (decide (i = Z.to_nat index)) as [->|Hne].
  - destruct Hslot as (l0 & v & Hl0 & Hv0 & Hok). rewrite Hl in Hl0.
    injection Hl0 as <-. eauto.
  - rewrite Hk' in Hl. simpl in Hl. rewrite list_lookup_insert_ne in Hl by done.
    destruct (Hshape i l Hl) as (v & Hv0 & Hok). eauto.
Qed.


(** X10: whatever a slot held, after a [set_voice] that returns it holds a
    voice of the length the slot is meant for: 26 bytes at indices 0-2, 30
    or 32 bytes at index 3.  So a kit of the shape 26, 26, 26, 30-or-32
    keeps that shape under [set_voice]. *)
Theorem set_voice_keeps_shape
    (k : Kit) (h : heap) (index : Z) (voice : loc) (k' : Kit) (h' : heap) :
  Kit_set_voice index voice (k, h) = (Return tt, (k', h')) →
  (∃ l v, voices k' !! Z.to_nat index = Some l ∧ h' !! l = Some v ∧
          slot_length_ok (Z.to_nat index) (length (data v))) ∧
  (kit_shape k h → kit_shape k' h').
Proof. apply Kit_set_voice_shape. Qed.

Lemma set_voice_keeps_shape_witness :
  ∃ l v,
    voices (mkKit (header example_kit) (<[3 := 7]> (voices example_kit)))
      !! Z.to_nat 3 = Some l ∧
    (example_store
       ++ [mkVoice (data standard_voice
                      ++ ["001"; "000"; "001"; "000"; "000"; "000"]%byte)
             true true]) !! l = Some v ∧
    slot_length_ok (Z.to_nat 3) (length (data v)).
Proof.
  apply (set_voice_keeps_shape example_kit example_store 3 4).
  reflexivity.
Defined.

(** ** More on encoding and construction *)

Lemma voice_bytes_all (h : heap) (vs : list loc) :
  (∀ l, l ∈ vs → is_Some (h !! l)) →
  ∃ ds, Forall2 (λ l d, voice_bytes h l = Some d) vs ds.
Proof.
  induction vs as [|l vs IH]; intros Hin; [by exists []|].
  destruct IH as [ds Hds]; [intros l' Hl'; apply Hin; by right|].
  destruct (Hin l) as [v Hv]; [by left|].
  exists (data v :: ds). constructor; [|done].
  unfold voice_bytes. by rewrite Hv.
Qed.

Lemma Kit_to_bytes_lengths (k : Kit) (h : heap) :
  (∀ l, l ∈ voices k → is_Some (h !! l)) →
  ∃ ds,
    Forall2 (λ l d, voice_bytes h l = Some d) (voices k) ds ∧
    encode k h = (Return (header k ++ concat ds), h) ∧
    length (header k ++ concat ds)
      = length (header k) + sum_list (length <$> ds) ∧
    (kit_shape k h →
     length (header k ++ concat ds) = length (header k) + 108 ∨
     length (header k ++ concat ds) = length (header k) + 110).
Proof.
  intros Hin. destruct (voice_bytes_all h (voices k) Hin) as [ds Hds].
  exists ds. split; [done|]. split.
  { unfold encode, Kit_to_bytes. by apply Kit_to_bytes_loop_spec. }
  assert (length (concat ds) = sum_list (length <$> ds)) as Hsum.
  { clear. induction ds as [|d ds IH]; [done|]. rewrite fmap_cons.
    change (concat (d :: ds)) with (d ++ concat ds).
    by rewrite length_app, IH. }
  split; [rewrite length_app; lia|].
  intros [Hk Hshape]. rewrite length_app, Hsum.
  destruct (voices k) as [|l0 [|l1 [|l2 [|l3 [|]]]]] eqn:Hvs; try done.
  assert (∀ i l d, [l0; l1; l2; l3] !! i = Some l → voice_bytes h l = Some d →
                   slot_length_ok i (length d)) as Hlen.
  { intros i l d Hl Hd. destruct (Hshape i l Hl) as (v & Hv & Hok).
    unfold voice_bytes in Hd. rewrite Hv in Hd. by injection Hd as <-. }
  inversion Hds as [|? d0 ? ds0 H0 Hds0]; subst.
  inversion Hds0 as [|? d1 ? ds1 H1 Hds1]; subst.
  inversion Hds1 as [|? d2 ? ds2 H2 Hds2]; subst.
  inversion Hds2 as [|? d3 ? ds3 H3 Hds3]; subst.
  inversion Hds3; subst.
  pose proof (Hlen 0 l0 d0 eq_refl H0) as L0.
  pose proof (Hlen 1 l1 d1 eq_refl H1) as L1.
  pose proof (Hlen 2 l2 d2 eq_refl H2) as L2.
  pose proof (Hlen 3 l3 d3 eq_refl H3) as L3.
  unfold slot_length_ok in *. simpl in *. lia.
Qed.


(** X11: [to_bytes] on a kit whose voices are objects of the store returns
    the header followed by each voice's bytes in slot order, and changes
    nothing; its length is the header's plus the voices'.  For a kit of the
    shape 26, 26, 26, 30-or-32 that is the header length plus 108 or 110. *)
Theorem encode_spec (k : Kit) (h : heap) :
  (∀ l, l ∈ voices k → is_Some (h !! l)) →
  ∃ ds,
    Forall2 (λ l d, voice_bytes h l = Some d) (voices k) ds ∧
    encode k h = (Return (header k ++ concat ds), h) ∧
    length (header k ++ concat ds)
      = length (header k) + sum_list (length <$> ds) ∧
    (kit_shape k h →
     length (header k ++ concat ds) = length (header k) + 108 ∨
     length (header k ++ concat ds) = length (header k) + 110).
Proof. apply Kit_to_bytes_lengths. Qed.

Lemma encode_spec_witness :
  ∃ ds,
    Forall2 (λ l d, voice_bytes example_store l = Some d) (voices example_kit) ds ∧
    encode example_kit example_store
      = (Return (header example_kit ++ concat ds), example_store) ∧
    length (header example_kit ++ concat ds)
      = length (header example_kit) + sum_list (length <$> ds) ∧
    (kit_shape example_kit example_store →
     length (header example_kit ++ concat ds) = length (header example_kit) + 108 ∨
     length (header example_kit ++ concat ds) = length (header example_kit) + 110).
Proof.
  apply (encode_spec example_kit example_store).
  intros l Hl. apply lookup_lt_is_Some_2. unfold example_kit in Hl. simpl in *.
  rewrite !elem_of_cons, elem_of_nil in Hl. lia.
Defined.

(** ** More on decoding *)

Lemma marker_positions_marker (b : bytes) (p : Z) :
  p ∈ marker_positions b → slice b p (p + 4) = marker.
Proof. unfold marker_positions. by intros [? _]%list_elem_of_filter. Qed.

Lemma slice_of_slice {A} (l : list A) (s e : Z) (lo hi : nat) :
  (0 ≤ s)%Z → (e ≤ len l)%Z → (s + Z.of_nat hi ≤ e)%Z → lo ≤ hi →
  slice (slice l s e) (Z.of_nat lo) (Z.of_nat hi)
  = slice l (s + Z.of_nat lo) (s + Z.of_nat hi).
Proof.
  intros Hs He Hhi Hlo.
  assert (length (slice l s e) = Z.to_nat (e - s)) as Hlen.
  { rewrite slice_take_drop by lia. rewrite length_take, length_drop.
    unfold len in *. lia. }
  rewrite (slice_take_drop (slice l s e)) by (unfold len; lia).
  rewrite (slice_take_drop l (s + _)) by lia.
  rewrite (slice_take_drop l s e) by lia.
  rewrite !Nat2Z.id. apply list_eq. intros j.
  destruct (decide (j < hi - lo)) as [Hj|Hj].
  - rewrite !lookup_take_lt by lia. rewrite !lookup_drop.
    rewrite lookup_take_lt by lia. rewrite lookup_drop. f_equal. lia.
  - by rewrite !lookup_take_ge by lia.
Qed.

(** X12: what a successful decode has built.  The kit has exactly four
    voices, each a new object (no address the store already used), and the
    objects that were in the store are untouched.  The header is the part
    of the buffer before the first marker's voice, that is its first
    [p0 - 4] bytes, [p0 >= 4] being the first marker position; and every
    voice is a well-formed voice whose bytes 4-7 are the marker, so decoding
    never gives rise to a marker warning. *)
Theorem decode_structure (b : bytes) (h : heap) (k : Kit) (h1 : heap) :
  decode b h = (Return k, h1) →
  voices k = seq (length h) 4 ∧
  (∃ p0 rest,
     marker_positions b = p0 :: rest ∧ (4 ≤ p0)%Z ∧
     header k = take (Z.to_nat (p0 - 4)) b) ∧
  ∃ v0 v1 v2 v3,
    h1 = h ++ [v0; v1; v2; v3] ∧
    Forall (λ v, Voice_ok v ∧ marker_warning (data v) = false) [v0; v1; v2; v3].
Proof.
  intros Hd.
  destruct (decode_Return _ _ _ _ Hd)
    as (s0 & s1 & s2 & s3 & v0 & v1 & v2 & v3 & Hp
        & H0 & H1 & H2 & H3 & E0 & E1 & E2 & E3 & -> & ->).
  split; [done|]. split.
  { eexists _, _. split; [done|]. split; [lia|]. simpl.
    rewrite slice_take_drop by lia. change (Z.to_nat 0) with 0.
    rewrite drop_0, Nat.sub_0_r. f_equal. lia. }
  exists v0, v1, v2, v3. split; [done|].
  assert (∀ s e v, (0 ≤ s ≤ e)%Z → (e ≤ len b)%Z → (s + 4)%Z ∈ marker_positions b →
            Voice_init (slice b s e) = Return v →
            Voice_ok v ∧ marker_warning (data v) = false) as Hvoice.
  { intros s e v Hs He Hm Hv.
    apply Voice_init_ok in Hv as Hok. destruct Hok as [Hok Hdata].
    split; [done|]. unfold marker_warning.
    apply bool_decide_eq_false. intros Hne. apply Hne. rewrite Hdata.
    assert (26 ≤ len (slice b s e))%Z as Hlen
      by (destruct Hok as (Hl & _); rewrite Hdata in Hl; unfold len; lia).
    assert (s + 26 ≤ e)%Z.
    { rewrite length_slice in Hlen. pose proof (len_nonneg b).
      unfold adjust_index in Hlen. repeat case_decide; lia. }
    pose proof (slice_of_slice b s e 4 8) as Hss.
    change (Z.of_nat 4) with 4%Z in Hss. change (Z.of_nat 8) with 8%Z in Hss.
    rewrite Hss by lia.
    apply marker_positions_marker in Hm.
    by replace (s + 4 + 4)%Z with (s + 8)%Z in Hm by lia. }
  rewrite Hp in Hvoice.
  rewrite !Forall_cons.
  split; [apply (Hvoice s0 s1); [lia|lia|rewrite !elem_of_cons; eauto 6|done]|].
  split; [apply (Hvoice s1 s2); [lia|lia|rewrite !elem_of_cons; eauto 6|done]|].
  split; [apply (Hvoice s2 s3); [lia|lia|rewrite !elem_of_cons; eauto 6|done]|].
  split; [apply (Hvoice s3 (len b)); [lia|lia|rewrite !elem_of_cons; eauto 6|done]|].
  apply Forall_nil_2.
Qed.

Lemma decode_structure_witness :
  ∃ k h1,
    decode (example_file 2) example_store = (Return k, h1) ∧
    voices k = seq (length example_store) 4.
Proof.
  eexists _, _. split; [vm_compute; reflexivity|].
  eapply proj1, (decode_structure (example_file 2) example_store).
  vm_compute. reflexivity.
Defined.

Lemma length_slice_within {A} (l : list A) (lo hi : Z) :
  (0 ≤ lo ≤ hi)%Z → (hi ≤ len l)%Z → len (slice l lo hi) = (hi - lo)%Z.
Proof.
  intros Hlo Hhi. rewrite length_slice. unfold adjust_index.
  repeat case_decide; lia.
Qed.

Lemma Voice_init_accepts (d : bytes) :
  (len d = 26 ∨ len d = 30 ∨ len d = 32)%Z → ∃ v, Voice_init d = Return v.
Proof.
  intros Hl. eexists. apply Voice_init_Return. split; [|done].
  unfold len in Hl. lia.
Qed.

(** X13: which buffers [Kit.__init__] accepts.  A buffer decodes exactly
    when the marker occurs at four positions [p0 < p1 < p2 < p3], the first
    at offset 4 or later, with each of the three gaps between consecutive
    markers and the distance from [p3 - 4] to the end of the buffer equal to
    26, 30 or 32 -- in any slot, not only 26, 26, 26, 30-or-32.  Every
    other buffer is refused with the marker-count error or with the
    voice-length error of [Voice.__init__], and with no other exception. *)
Theorem decode_accepts_iff (b : bytes) (h : heap) :
  let voice_length n := (n = 26 ∨ n = 30 ∨ n = 32)%Z in
  ((∃ k h1, decode b h = (Return k, h1))
   ↔ ∃ p0 p1 p2 p3,
       marker_positions b = [p0; p1; p2; p3] ∧ (4 ≤ p0)%Z ∧
       voice_length (p1 - p0)%Z ∧ voice_length (p2 - p1)%Z ∧
       voice_length (p3 - p2)%Z ∧ voice_length (len b - (p3 - 4))%Z) ∧
  (∀ e h1, decode b h = (Raise e, h1) →
           (∃ found, e = MalformedKitError found) ∨
           (∃ got, e = InvalidVoiceLength got)).
Proof.
  intros voice_length. subst voice_length. split; [split|].
  - intros (k & h1 & Hd).
    destruct (decode_Return _ _ _ _ Hd)
      as (s0 & s1 & s2 & s3 & v0 & v1 & v2 & v3 & Hp
          & H0 & H1 & H2 & H3 & E0 & E1 & E2 & E3 & _).
    apply Voice_init_Return in E0 as [L0 _], E1 as [L1 _],
      E2 as [L2 _], E3 as [L3 _].
    pose proof (length_slice_within b s0 s1 ltac:(lia) ltac:(lia)).
    pose proof (length_slice_within b s1 s2 ltac:(lia) ltac:(lia)).
    pose proof (length_slice_within b s2 s3 ltac:(lia) ltac:(lia)).
    pose proof (length_slice_within b s3 (len b) ltac:(lia) ltac:(lia)).
    exists (s0 + 4)%Z, (s1 + 4)%Z, (s2 + 4)%Z, (s3 + 4)%Z.
    split; [done|]. unfold len in *. lia.
  - intros (p0 & p1 & p2 & p3 & Hp & H0 & G1 & G2 & G3 & G4).
    rewrite (decode_four _ _ _ _ _ _ Hp).
    destruct (Voice_init_accepts (slice b (p0 - 4) (p1 - 4))) as [v0 ->];
      [rewrite length_slice_within; lia|].
    destruct (Voice_init_accepts (slice b (p1 - 4) (p2 - 4))) as [v1 ->];
      [rewrite length_slice_within; lia|].
    destruct (Voice_init_accepts (slice b (p2 - 4) (p3 - 4))) as [v2 ->];
      [rewrite length_slice_within; lia|].
    destruct (Voice_init_accepts (slice b (p3 - 4) (len b))) as [v3 ->];
      [rewrite length_slice_within; lia|].
    eauto.
  - intros e h1 Hd.
    destruct (decide (marker_count b = 4)) as [Hc|Hc].
    + right.
      destruct (Kit_find_voice_boundaries_four b Hc) as (p0 & p1 & p2 & p3 & Hp & _).
      rewrite (decode_four _ _ _ _ _ _ Hp) in Hd.
      repeat match type of Hd with
             | context [Voice_init ?d] =>
                 let E := fresh "E" in
                 destruct (Voice_init d) eqn:E;
                 [|apply Voice_init_Raise in E; injection Hd as <- _;
                   unfold InvalidVoiceLength; eauto]
             end.
      done.
    + left. rewrite (decode_malformed _ _ Hc) in Hd. injection Hd as <- _. eauto.
Qed.

Lemma decode_accepts_iff_witness :
  ∃ k h1, decode (example_file 2) [] = (Return k, h1).
Proof.
  apply (decode_accepts_iff (example_file 2) []).
  exists 61%Z, 87%Z, 113%Z, 139%Z. split; [by vm_compute|].
  vm_compute. intuition discriminate.
Defined.

(** ** Kits built with a header *)

Lemma filter_fmap_ext {A B} (P : A → Prop) (Q : B → Prop)
    `{!∀ x, Decision (P x), !∀ x, Decision (Q x)} (f : B → A) (l : list B) :
  (∀ x, x ∈ l → (P (f x) ↔ Q x)) →
  filter P (f <$> l) = f <$> filter Q l.
Proof.
  induction l as [|x l IH]; intros Hext; [done|].
  rewrite fmap_cons, !filter_cons.
  assert (filter P (f <$> l) = f <$> filter Q l) as IH'.
  { apply IH. intros y Hy. apply Hext. by right. }
  pose proof (Hext x (list_elem_of_here _ _)) as Hx.
  repeat case_decide; rewrite ?fmap_cons, IH'; try done; tauto.
Qed.

Lemma filter_ext_in {A} (P Q : A → Prop)
    `{!∀ x, Decision (P x), !∀ x, Decision (Q x)} (l : list A) :
  (∀ x, x ∈ l → (P x ↔ Q x)) → filter P l = filter Q l.
Proof.
  intros Hext. rewrite <- (list_fmap_id l) at 1.
  rewrite (filter_fmap_ext P Q id l Hext). apply list_fmap_id.
Qed.

Lemma marker_positions_occurrences (b : bytes) :
  marker_positions b = Z.of_nat <$> occurrences b.
Proof.
  unfold marker_positions, occurrences, range.
  set (n := Z.to_nat (len b - len marker + 1)).
  assert (length b = n + (length b - n)) as Hsplit
    by (subst n; unfold len; change (length marker) with 4; lia).
  rewrite Hsplit at 1. rewrite seq_app, filter_app.
  rewrite (filter_none _ (seq (0 + n) _)).
  - rewrite app_nil_r. apply filter_fmap_ext.
    intros i [_ Hi]%elem_of_seq. rewrite slice_window; [done|].
    subst n. unfold len in *. change (length marker) with 4 in *. lia.
  - intros i [Hi _]%elem_of_seq Hm.
    apply (f_equal length) in Hm. rewrite length_take, length_drop in Hm.
    subst n. unfold len in *. change (length marker) with 4 in *. lia.
Qed.

(** Markers of a buffer followed by one that starts with a byte foreign to
    the marker: no occurrence straddles the seam. *)
Lemma occurrences_app (a c : bytes) (z : byte) :
  c !! 0 = Some z → z ∉ marker →
  occurrences (a ++ c) = occurrences a ++ ((λ i, length a + i) <$> occurrences c).
Proof.
  intros Hc Hz. unfold occurrences.
  rewrite length_app, seq_app, filter_app. f_equal.
  - apply filter_ext_in. intros i [_ Hi]%elem_of_seq. simpl in Hi.
    destruct (decide (i + 4 ≤ length a)) as [Hin|Hout].
    + rewrite drop_app_le by lia.
      rewrite take_app_le by (rewrite length_drop; lia). done.
    + split; intros Hm; exfalso.
      * assert (take 4 (drop i (a ++ c)) !! (length a - i) = Some z) as Hl.
        { rewrite lookup_take_lt by lia. rewrite lookup_drop.
          rewrite lookup_app_r by lia.
          by replace (i + (length a - i) - length a) with 0 by lia. }
        rewrite Hm in Hl. apply Hz. by eapply list_elem_of_lookup_2.
      * apply (f_equal length) in Hm. rewrite length_take, length_drop in Hm.
        change (length marker) with 4 in Hm. lia.
  - replace (seq (0 + length a) (length c))
      with ((λ i, length a + i) <$> seq 0 (length c))
      by (rewrite (fmap_add_seq (length a) 0); f_equal; lia).
    apply filter_fmap_ext. intros i _.
    rewrite drop_app_ge by lia.
    by replace (length a + i - length a) with i by lia.
Qed.

Lemma slice_app_r {A} (a c : list A) (x y : Z) :
  (0 ≤ x ≤ y)%Z → (y ≤ len c)%Z →
  slice (a ++ c) (len a + x) (len a + y) = slice c x y.
Proof.
  intros Hx Hy. pose proof (len_nonneg a).
  rewrite !slice_take_drop by (unfold len in *; rewrite ?length_app; lia).
  rewrite drop_app_ge by (unfold len; lia).
  f_equal; [unfold len; lia|]. f_equal. unfold len. lia.
Qed.

Lemma slice_app_l {A} (a c : list A) : slice (a ++ c) 0 (len a) = a.
Proof.
  pose proof (len_nonneg a).
  rewrite slice_take_drop by (unfold len in *; rewrite ?length_app; lia).
  change (Z.to_nat 0) with 0. rewrite drop_0, Nat.sub_0_r.
  unfold len. rewrite Nat2Z.id. by rewrite take_app_length.
Qed.

Lemma Kit_init_header (hdr : bytes) (h : heap) :
  Kit_init None (Some hdr) h
  = (Return (mkKit hdr [length h; S (length h); S (S (length h));
                        S (S (S (length h)))]),
     h ++ [standard_voice; standard_voice; standard_voice; extended_voice]).
Proof.
  unfold Kit_init. unfold bind at 1. unfold ret at 1.
  assert (Voice_init (empty_voice 26) = Return standard_voice) as H26
    by (vm_compute; reflexivity).
  assert (Voice_init (empty_voice 30) = Return extended_voice) as H30
    by (vm_compute; reflexivity).
  erewrite bind_Return by (by apply new_Voice_Return).
  erewrite bind_Return by (by apply new_Voice_Return).
  erewrite bind_Return by (by apply new_Voice_Return).
  erewrite bind_Return by (by apply new_Voice_Return).
  unfold ret. rewrite !length_app, <- !app_assoc. simpl.
  repeat f_equal; lia.
Qed.

(** X14: a kit built with [Kit(header=hdr)] has that header and four new
    empty voices of 26, 26, 26 and 30 bytes, and encodes to the header
    followed by those voices.  Decoding the encoded bytes gives back a kit
    with the same header and voice bytes exactly when the four marker bytes
    do not occur in the header; when they do, the file has more than four
    markers and decoding raises the marker-count error. *)
Theorem header_kit_roundtrip (hdr : bytes) (h : heap) :
  ∃ k h1,
    Kit_init None (Some hdr) h = (Return k, h1) ∧
    header k = hdr ∧
    kit_shape k h1 ∧
    encode k h1 = (Return (hdr ++ empty_voices), h1) ∧
    (marker_count hdr = 0 →
     ∃ k2 h2, decode (hdr ++ empty_voices) h1 = (Return k2, h2) ∧
              kit_bytes k2 h2 = kit_bytes k h1) ∧
    (marker_count hdr ≠ 0 →
     decode (hdr ++ empty_voices) h1
     = (Raise (MalformedKitError (Z.of_nat (marker_count hdr + 4))), h1)).
Proof.
  eexists _, _. split; [apply Kit_init_header|]. split; [done|].
  set (vs := [standard_voice; standard_voice; standard_voice; extended_voice]).
  pose proof (voice_bytes_decoded h standard_voice standard_voice
                standard_voice extended_voice []) as Hvb.
  rewrite app_nil_r in Hvb. fold vs in Hvb.
  assert (occurrences (hdr ++ empty_voices)
          = occurrences hdr
            ++ [length hdr + 4; length hdr + 30; length hdr + 56; length hdr + 82])
    as Hocc.
  { rewrite (occurrences_app hdr empty_voices "000"%byte); [|done|].
    - f_equal; try by vm_compute.
    - unfold marker. rewrite !elem_of_cons, elem_of_nil.
      intros [|[|[|[|[]]]]]; discriminate. }
  split; [|split; [|split]].
  - split; [done|]. intros i l Hl.
    destruct i as [|[|[|[|i]]]]; simpl in Hl; [injection Hl as <-..|done];
      eexists; (split; [rewrite lookup_app_r by lia; simpl|]).
    + by rewrite Nat.sub_diag.
    + by vm_compute.
    + by replace (S (length h) - length h) with 1 by lia.
    + by vm_compute.
    + by replace (S (S (length h)) - length h) with 2 by lia.
    + by vm_compute.
    + by replace (S (S (S (length h))) - length h) with 3 by lia.
    + vm_compute. by left.
  - unfold encode, Kit_to_bytes. cbn [header voices].
    rewrite (Kit_to_bytes_loop_spec _
               [empty_voice 26; empty_voice 26; empty_voice 26; empty_voice 30]).
    + unfold empty_voices. cbn [concat]. by rewrite app_nil_r.
    + simpl in Hvb. injection Hvb as ? ? ? ?. by repeat constructor.
  - intros Hc. unfold marker_count in Hc. fold (occurrences hdr) in Hc.
    apply nil_length_inv in Hc. rewrite Hc in Hocc. simpl in Hocc.
    pose proof (marker_positions_occurrences (hdr ++ empty_voices)) as Hp.
    rewrite Hocc in Hp. simpl in Hp.
    rewrite (decode_four _ _ _ _ _ _ Hp).
    replace (Z.of_nat (length hdr + 4) - 4)%Z with (len hdr + 0)%Z
      by (unfold len; lia).
    replace (Z.of_nat (length hdr + 30) - 4)%Z with (len hdr + 26)%Z
      by (unfold len; lia).
    replace (Z.of_nat (length hdr + 56) - 4)%Z with (len hdr + 52)%Z
      by (unfold len; lia).
    replace (Z.of_nat (length hdr + 82) - 4)%Z with (len hdr + 78)%Z
      by (unfold len; lia).
    replace (len (hdr ++ empty_voices)) with (len hdr + 108)%Z
      by (unfold len; rewrite length_app; change (length empty_voices) with 108; lia).
    rewrite !slice_app_r by (by vm_compute).
    replace (len hdr + 0)%Z with (len hdr) by lia. rewrite slice_app_l.
    change (slice empty_voices 0 26) with (empty_voice 26).
    change (slice empty_voices 26 52) with (empty_voice 26).
    change (slice empty_voices 52 78) with (empty_voice 26).
    change (slice empty_voices 78 108) with (empty_voice 30).
    change (Voice_init (empty_voice 26)) with (Return standard_voice).
    change (Voice_init (empty_voice 30)) with (Return extended_voice).
    eexists _, _. split; [reflexivity|]. unfold kit_bytes. simpl. f_equal.
    pose proof (voice_bytes_decoded (h ++ vs) standard_voice standard_voice
                  standard_voice extended_voice []) as Hvb2.
    rewrite app_nil_r in Hvb2. simpl in Hvb, Hvb2.
    injection Hvb as -> -> -> ->. by injection Hvb2 as -> -> -> ->.
  - intros Hc.
    assert (marker_count (hdr ++ empty_voices) = marker_count hdr + 4) as Hcount.
    { unfold marker_count at 1. fold (occurrences (hdr ++ empty_voices)).
      rewrite Hocc, length_app. done. }
    rewrite decode_malformed by lia. by rewrite Hcount.
Qed.

Lemma header_kit_roundtrip_witness :
  ∃ k h1,
    Kit_init None (Some (replicate 47 "026"%byte)) [] = (Return k, h1) ∧
    header k = replicate 47 "026"%byte ∧
    kit_shape k h1 ∧
    encode k h1 = (Return (replicate 47 "026"%byte ++ empty_voices), h1) ∧
    (marker_count (replicate 47 "026"%byte) = 0 →
     ∃ k2 h2, decode (replicate 47 "026"%byte ++ empty_voices) h1 = (Return k2, h2) ∧
              kit_bytes k2 h2 = kit_bytes k h1) ∧
    (marker_count (replicate 47 "026"%byte) ≠ 0 →
     decode (replicate 47 "026"%byte ++ empty_voices) h1
     = (Raise (MalformedKitError
                 (Z.of_nat (marker_count (replicate 47 "026"%byte) + 4))), h1)).
Proof.
  apply (header_kit_roundtrip (replicate 47 "026"%byte) []).
Defined.

(** ** More on mix_kits *)

Lemma for_each_ext {S A} (xs : list A) (body body' : A → M S unit) :
  (∀ x, x ∈ xs → body x = body' x) →
  for_each xs body = for_each xs body'.
Proof.
  induction xs as [|x xs IH]; intros Hext; [done|]. simpl.
  rewrite (Hext x) by (by left). rewrite IH; [done|].
  intros y Hy. apply Hext. by right.
Qed.

Lemma for_each_fmap {S A B} (g : A → B) (xs : list A) (body : B → M S unit) :
  for_each (g <$> xs) body = for_each xs (body ∘ g).
Proof.
  induction xs as [|x xs IH]; [done|].
  rewrite fmap_cons. cbn [for_each]. by rewrite IH.
Qed.

Lemma enumerate_fmap {A B} (g : A → B) (xs : list A) :
  enumerate (g <$> xs) = prod_map id g <$> enumerate xs.
Proof.
  unfold enumerate, len. rewrite length_fmap.
  generalize (range (Z.of_nat (length xs))).
  induction xs as [|x xs IH]; intros [|i idxs]; try done.
  rewrite !fmap_cons. cbn [zip zip_with]. rewrite fmap_cons. f_equal. apply IH.
Qed.

Lemma enumerate_elem_of {A} (xs : list A) (t : Z) (x : A) :
  (t, x) ∈ enumerate xs → x ∈ xs.
Proof.
  unfold enumerate. intros Hin. apply list_elem_of_lookup in Hin as [i Hi].
  apply lookup_zip_with_Some in Hi as (? & ? & [= <- <-] & _ & Hx).
  by eapply list_elem_of_lookup_2.
Qed.

Lemma list_comp_length {S A B} (xs : list A) (f : A → M S B) s ys s' :
  list_comp xs f s = (Return ys, s') → length ys = length xs.
Proof.
  revert s ys s'. induction xs as [|x xs IH]; intros s ys s'; simpl.
  - unfold ret. by intros [= <- _].
  - intros [(y & s1 & _ & Hr)|(e & _ & He)]%bind_inv; [|discriminate].
    apply bind_inv in Hr as [(ys' & s2 & Hys & Hr)|(e & _ & He)]; [|discriminate].
    unfold ret in Hr. injection Hr as <- _. simpl. f_equal. by eapply IH.
Qed.

Lemma bind_ext_at {S A B} (m : M S A) (k k' : A → M S B) (s : S) :
  (∀ a s1, m s = (Return a, s1) → k a s1 = k' a s1) →
  bind m k s = bind m k' s.
Proof.
  intros Hext. unfold bind. destruct (m s) as [[a|e] s1]; [|done].
  by apply Hext.
Qed.

Lemma bind_ext_at' {S A B} (m m' : M S A) (k : A → M S B) (s : S) :
  m = m' → bind m k s = bind m' k s.
Proof. by intros ->. Qed.

(** The kit index Python's list indexing resolves a negative index to. *)
Lemma mix_kits_body_negative (kits : list Kit) (t kit_idx voice_idx : Z) :
  (- len kits ≤ kit_idx < 0)%Z →
  mix_kits_body kits (t, (kit_idx, voice_idx))
  = mix_kits_body kits (t, (kit_idx + len kits, voice_idx)%Z).
Proof.
  intros Hk. unfold mix_kits_body.
  rewrite (bool_decide_false (kit_idx >= len kits)%Z) by lia.
  rewrite (bool_decide_false (kit_idx + len kits >= len kits)%Z) by lia.
  destruct (bool_decide (0 ≤ voice_idx < 4)%Z); simpl; [|done].
  unfold getitem. repeat case_decide; try lia. done.
Qed.

(** X15: [mix_kits] accepts negative kit indices.  A kit index [i] with
    [-len(kit_files) <= i < 0] is not refused by the "Kit index out of
    range" check; it selects the kit [len(kit_files) + i], counting from
    the end of the list, so the call behaves in every respect (result,
    exception, store) as the call with the indices so resolved. *)
Theorem mix_kits_negative_index
    (fs : filesystem) (kit_files : list string) (voice_selections : list (Z * Z))
    (h : heap) :
  (∀ kit_idx voice_idx,
     (kit_idx, voice_idx) ∈ voice_selections → (- len kit_files ≤ kit_idx)%Z) →
  mix_kits fs kit_files voice_selections h
  = mix_kits fs kit_files
      ((λ s, (if decide (s.1 < 0)%Z then s.1 + len kit_files else s.1, s.2)%Z)
         <$> voice_selections) h.
Proof.
  intros Hsel. unfold mix_kits.
  set (g := λ s : Z * Z,
              (if decide (s.1 < 0)%Z then s.1 + len kit_files else s.1, s.2)%Z).
  assert (len (g <$> voice_selections) = len voice_selections) as ->
    by (unfold len; by rewrite length_fmap).
  case_bool_decide; [done|].
  apply bind_ext_at. intros kits h1 Hkits. apply list_comp_length in Hkits.
  apply bind_ext_at. intros nk h2 _.
  destruct (kits !! 0) as [kit0|]; [|done].
  apply bind_ext_at'. f_equal.
  rewrite enumerate_fmap, for_each_fmap.
  apply for_each_ext.
  intros [t [ki vi]] Hin%enumerate_elem_of.
  change ((mix_kits_body kits ∘ prod_map id g) (t, (ki, vi)))
    with (mix_kits_body kits
            (t, (if decide (ki < 0)%Z then ki + len kit_files else ki, vi)%Z)).
  case_decide; [|done].
  rewrite mix_kits_body_negative; [by unfold len; rewrite Hkits|].
  pose proof (Hsel ki vi Hin). unfold len in *. lia.
Qed.

Lemma mix_kits_negative_index_witness :
  mix_kits example_fs ["a.kit"; "b.kit"] [(-1, 0); (-2, 1); (0, 2); (-1, 3)]%Z []
  = mix_kits example_fs ["a.kit"; "b.kit"] [(1, 0); (0, 1); (0, 2); (1, 3)]%Z [].
Proof.
  apply (mix_kits_negative_index example_fs ["a.kit"; "b.kit"]
           [(-1, 0); (-2, 1); (0, 2); (-1, 3)]%Z []).
  intros ki vi Hin. rewrite !elem_of_cons, elem_of_nil in Hin.
  unfold len. simpl.
  destruct Hin as [[= -> _]|[[= -> _]|[[= -> _]|[[= -> _]|[]]]]]; lia.
Defined.

(** X16: the edge cases of [mix_kits].  With a number of selections other
    than 4 it raises "Must select exactly 4 voices" before any file is
    read, even when the files do not exist.  With 4 selections, a first
    file that cannot be read raises the file error; and an empty list of
    files raises [IndexError] from [kits[0]] (not the "Kit index out of
    range" [ValueError]), after the new kit's four voices were built. *)
Theorem mix_kits_edge_cases
    (fs : filesystem) (kit_files : list string) (voice_selections : list (Z * Z))
    (h : heap) :
  (length voice_selections ≠ 4 →
   mix_kits fs kit_files voice_selections h
   = (Raise (ValueError "Must select exactly 4 voices"), h)) ∧
  (length voice_selections = 4 →
   (∀ f rest, kit_files = f :: rest → fs f = None →
      mix_kits fs kit_files voice_selections h = (Raise (FileNotFoundError f), h)) ∧
   (kit_files = [] →
    mix_kits fs kit_files voice_selections h
    = (Raise (IndexError "list index out of range"),
       h ++ [standard_voice; standard_voice; standard_voice; extended_voice]))).
Proof.
  split; [|split].
  - intros Hl. unfold mix_kits.
    by rewrite bool_decide_true by (unfold len; lia).
  - intros f rest -> Hf. unfold mix_kits.
    rewrite bool_decide_false by (unfold len; lia).
    erewrite bind_Raise; [done|]. simpl.
    erewrite bind_Raise; [done|]. unfold Kit_from_file. by rewrite Hf.
  - intros ->. unfold mix_kits.
    rewrite bool_decide_false by (unfold len; lia). simpl.
    erewrite bind_Return by reflexivity.
    destruct (Kit_init_default h) as [hdr Hinit].
    erewrite bind_Return by exact Hinit. done.
Qed.

Lemma mix_kits_edge_cases_witness :
  mix_kits example_fs ["missing.kit"] [(0, 0); (0, 1); (0, 2)]%Z example_store
  = (Raise (ValueError "Must select exactly 4 voices"), example_store).
Proof.
  apply (mix_kits_edge_cases example_fs ["missing.kit"]
           [(0, 0); (0, 1); (0, 2)]%Z example_store).
  simpl. lia.
Defined.

Lemma mix_kits_loop_shape (kits : list Kit) (items : list (Z * (Z * Z)))
    (k : Kit) (h : heap) (k' : Kit) (h' : heap) :
  for_each items (mix_kits_body kits) (k, h) = (Return tt, (k', h')) →
  kit_shape k h → kit_shape k' h' ∧ header k' = header k.
Proof.
  revert k h. induction items as [|[t [ki vi]] items IH]; intros k h.
  - simpl. unfold ret. by intros [= <- <-].
  - intros ([k1 h1] & Hbody & Hrest)%for_each_cons_inv Hshape.
    apply mix_kits_body_inv in Hbody as (kit & source & _ & _ & Hset).
    pose proof (Kit_set_voice_shape _ _ _ _ _ _ Hset) as [_ Hkeep].
    apply Kit_set_voice_success in Hset as (_ & _ & _ & l' & _ & Hk1 & _).
    destruct (IH _ _ Hrest (Hkeep Hshape)) as [Hs' Hh'].
    split; [done|]. rewrite Hh', Hk1. done.
Qed.

(** X17: the kit [mix_kits] returns has the shape 26, 26, 26, 30-or-32
    whatever the lengths of the selected source voices were, and encodes to
    its header followed by 108 or 110 bytes. *)
Theorem mix_kits_shape
    (fs : filesystem) (kit_files : list string) (voice_selections : list (Z * Z))
    (h : heap) (k : Kit) (h' : heap) :
  mix_kits fs kit_files voice_selections h = (Return k, h') →
  kit_shape k h' ∧
  ∃ file,
    encode k h' = (Return file, h') ∧
    (length file = length (header k) + 108 ∨
     length file = length (header k) + 110).
Proof.
  unfold mix_kits. case_bool_decide as Hlen; [done|].
  intros [(kits & h1 & Hkits & Hmix)|(? & _ & ?)]%bind_inv; [|done].
  destruct (Kit_init_default h1) as [hdr Hinit].
  erewrite bind_Return in Hmix by exact Hinit.
  destruct (kits !! 0) as [kit0|] eqn:Hk0; [|done].
  apply bind_inv in Hmix as [([[] K4] & H4 & Hloop & Hret)|(? & _ & ?)]; [|done].
  unfold ret in Hret. injection Hret as <- <-.
  apply with_local_inv in Hloop. cbn [header voices fst snd] in Hloop.
  apply mix_kits_loop_shape in Hloop as [Hshape _].
  - split; [done|].
    destruct (Kit_to_bytes_lengths K4 H4) as (ds & _ & Henc & _ & Hlens).
    { intros l [i Hl]%list_elem_of_lookup. destruct Hshape as [_ Hs].
      destruct (Hs i l Hl) as (v & Hv & _). eauto. }
    eexists. split; [exact Henc|]. by apply Hlens.
  - split; [done|]. intros i l Hl.
    destruct i as [|[|[|[|i]]]]; simpl in Hl; [injection Hl as <-..|done];
      eexists; (split; [rewrite lookup_app_r by lia; simpl|]).
    + by rewrite Nat.sub_diag.
    + by vm_compute.
    + by replace (S (length h1) - length h1) with 1 by lia.
    + by vm_compute.
    + by replace (S (S (length h1)) - length h1) with 2 by lia.
    + by vm_compute.
    + by replace (S (S (S (length h1))) - length h1) with 3 by lia.
    + vm_compute. by left.
Qed.

Lemma mix_kits_shape_witness :
  ∃ k h',
    mix_kits example_fs ["a.kit"; "b.kit"] [(1, 3); (0, 0); (1, 1); (1, 3)]%Z []
      = (Return k, h') ∧
    kit_shape k h'.
Proof.
  eexists _, _. split; [vm_compute; reflexivity|].
  eapply proj1, (mix_kits_shape example_fs ["a.kit"; "b.kit"]
                   [(1, 3); (0, 0); (1, 1); (1, 3)]%Z []).
  vm_compute. reflexivity.
Defined.

(** ** The scripts' helpers *)

Lemma range_elem_of (n x : Z) : x ∈ range n ↔ (0 ≤ x < n)%Z.
Proof.
  unfold range. rewrite list_elem_of_fmap. split.
  - intros (i & -> & [_ Hi]%elem_of_seq). lia.
  - intros Hx. exists (Z.to_nat x). split; [lia|]. apply elem_of_seq. lia.
Qed.

(** [str] prints the normal form of an integer: no two integers share a
    text, and only zero starts with the digit 0. *)
Lemma to_int_norm (z : Z) : Decimal.norm (Z.to_int z) = Z.to_int z.
Proof. by rewrite <- DecimalZ.to_of, DecimalZ.of_to. Qed.

Lemma to_int_not_nil (z : Z) :
  Z.to_int z ≠ Decimal.Pos Decimal.Nil ∧ Z.to_int z ≠ Decimal.Neg Decimal.Nil.
Proof.
  pose proof (to_int_norm z) as H.
  split; intros E; rewrite E in H; discriminate H.
Qed.

Lemma str_inj (a b : Z) : str a = str b → a = b.
Proof.
  unfold str. intros H.
  destruct (to_int_not_nil a) as [Ha1 Ha2], (to_int_not_nil b) as [Hb1 Hb2].
  pose proof (NilZero.isi _ Ha1 Ha2) as Ia.
  pose proof (NilZero.isi _ Hb1 Hb2) as Ib.
  rewrite H in Ia. rewrite Ia in Ib. injection Ib as Ib.
  by rewrite <- (DecimalZ.of_to a), <- (DecimalZ.of_to b), Ib.
Qed.

Lemma unorm_D0_fixed (u : Decimal.uint) :
  Decimal.unorm (Decimal.D0 u) = Decimal.D0 u → u = Decimal.Nil.
Proof.
  intros H.
  assert (u = Decimal.Nil ∨ u ≠ Decimal.Nil) as [|Hne]
    by (destruct u; (by left) || (by right)); [done|].
  pose proof (DecimalFacts.nb_digits_unorm u Hne) as Hle.
  assert (Decimal.unorm (Decimal.D0 u) = Decimal.unorm u) as E
    by (by destruct u).
  rewrite E in H. rewrite H in Hle. simpl in Hle. lia.
Qed.

Lemma str_leading_zero (b : Z) (s : string) :
  str b = String (Ascii.ascii_of_nat 48) s → s = "".
Proof.
  unfold str. intros H. pose proof (to_int_norm b) as Hn.
  destruct (Z.to_int b) as [u|u]; simpl in H; [|discriminate H].
  destruct u as [|u| | | | | | | | |]; simpl in H; try discriminate H.
  - by injection H as <-.
  - simpl in Hn.
    assert (Decimal.unorm (Decimal.D0 u) = Decimal.D0 u) as Hu by congruence.
    apply unorm_D0_fixed in Hu as ->. simpl in H. by injection H as <-.
Qed.

Lemma format_02d_inj (a b : Z) : format_02d a = format_02d b → a = b.
Proof.
  unfold format_02d.
  destruct (decide (String.length (str a) < 2)) as [Ha|Ha],
           (decide (String.length (str b) < 2)) as [Hb|Hb]; intros H.
  - apply str_inj. by injection H.
  - symmetry in H. apply str_leading_zero in H as Hs.
    rewrite H in Hb. destruct (str a); simpl in *; [lia|discriminate Hs].
  - apply str_leading_zero in H as Hs.
    rewrite H in Ha. destruct (str b); simpl in *; [lia|discriminate Hs].
  - by apply str_inj.
Qed.

Lemma append_length (s t : string) :
  String.length (s +:+ t) = String.length s + String.length t.
Proof. induction s as [|c s IH]; simpl; [done|]. by rewrite IH. Qed.

Lemma append_inj_r (s1 s2 t : string) : s1 +:+ t = s2 +:+ t → s1 = s2.
Proof.
  intros H.
  assert (String.length s1 = String.length s2) as Hlen.
  { apply (f_equal String.length) in H. rewrite !append_length in H. lia. }
  revert s2 H Hlen. induction s1 as [|c s1 IH]; intros [|c2 s2]; simpl;
    try done.
  intros [= -> H] [= Hlen]. f_equal. by apply IH.
Qed.

Lemma format_kit_filename_injective (a b : Z) :
  format_kit_filename a = format_kit_filename b → a = b.
Proof.
  unfold format_kit_filename. intros H%append_inj_r. by apply format_02d_inj.
Qed.

(** X18: [format_kit_filename] never gives two kit numbers the same file
    name, whatever the integers are. *)
Theorem format_kit_filename_inj (a b : Z) :
  format_kit_filename a = format_kit_filename b ↔ a = b.
Proof.
  split; [apply format_kit_filename_injective|by intros ->].
Qed.

(** X19: for a kit number from 0 to 99 [format_kit_filename] gives the six
    characters NN.KIT, NN being the number in two decimal digits, a single
    digit padded with a zero. *)
Theorem format_kit_filename_form (n : Z) :
  (0 ≤ n ≤ 99)%Z →
  format_kit_filename n
  = String (Ascii.ascii_of_nat (48 + Z.to_nat (n / 10)))
      (String (Ascii.ascii_of_nat (48 + Z.to_nat (n mod 10))) ".KIT") ∧
  String.length (format_kit_filename n) = 6.
Proof.
  intros Hn.
  assert (forallb
            (λ x, String.eqb (format_kit_filename x)
                    (String (Ascii.ascii_of_nat (48 + Z.to_nat (x / 10)))
                       (String (Ascii.ascii_of_nat (48 + Z.to_nat (x mod 10)))
                          ".KIT")))
            (range 100) = true) as Hcheck by (vm_compute; reflexivity).
  rewrite forallb_forall in Hcheck.
  specialize (Hcheck n). rewrite <- list_elem_of_In, range_elem_of in Hcheck.
  specialize (Hcheck ltac:(lia)). apply String.eqb_eq in Hcheck.
  split; [done|]. by rewrite Hcheck.
Qed.

Lemma format_kit_filename_form_witness :
  format_kit_filename 7 = "07.KIT" ∧
  String.length (format_kit_filename 7) = 6.
Proof. apply (format_kit_filename_form 7). lia. Defined.

(** The runs of [format_kit_ranges]. *)
Lemma expand_run_single (n : Z) : expand_run (n, n) = [n].
Proof.
  unfold expand_run. simpl. replace (n - n + 1)%Z with 1%Z by lia.
  simpl. f_equal. lia.
Qed.

Lemma expand_run_extend (s e : Z) :
  (s ≤ e)%Z → expand_run (s, e + 1)%Z = expand_run (s, e) ++ [(e + 1)%Z].
Proof.
  intros Hse. unfold expand_run. cbn [fst snd].
  replace (Z.to_nat (e + 1 - s + 1)) with (S (Z.to_nat (e - s + 1))) by lia.
  rewrite seq_S, fmap_app. simpl. do 2 f_equal. lia.
Qed.

Lemma runs_maximal_extend (rs : list (Z * Z)) (s e e' : Z) :
  runs_maximal (rs ++ [(s, e)]) → runs_maximal (rs ++ [(s, e')]).
Proof.
  intros Hmax i r1 r2 H1 H2.
  assert (S i < length (rs ++ [(s, e')])) as Hlt
    by (apply lookup_lt_is_Some; eauto).
  rewrite length_app in Hlt. simpl in Hlt.
  rewrite lookup_app_l in H1 by lia.
  destruct (decide (S i < length rs)) as [Hin|Hlast].
  - rewrite lookup_app_l in H2 by lia.
    apply (Hmax i r1 r2); by rewrite lookup_app_l by lia.
  - rewrite lookup_app_r in H2 by lia.
    replace (S i - length rs) with 0 in H2 by lia. injection H2 as <-.
    apply (Hmax i r1 (s, e)); [by rewrite lookup_app_l by lia|].
    rewrite lookup_app_r by lia. by replace (S i - length rs) with 0 by lia.
Qed.

Lemma runs_maximal_snoc (rs : list (Z * Z)) (r r' : Z * Z) :
  runs_maximal (rs ++ [r]) → r'.1 ≠ (r.2 + 1)%Z →
  runs_maximal ((rs ++ [r]) ++ [r']).
Proof.
  intros Hmax Hne i r1 r2 H1 H2.
  assert (S i < length ((rs ++ [r]) ++ [r'])) as Hlt
    by (apply lookup_lt_is_Some; eauto).
  rewrite !length_app in Hlt. simpl in Hlt.
  destruct (decide (S i < length (rs ++ [r]))) as [Hin|Hlast].
  - rewrite lookup_app_l in H1 by lia. rewrite lookup_app_l in H2 by done.
    by apply (Hmax i r1 r2).
  - rewrite length_app in Hlast. simpl in Hlast.
    rewrite lookup_app_l in H1 by (rewrite length_app; simpl; lia).
    rewrite lookup_app_r in H1 by lia.
    replace (i - length rs) with 0 in H1 by lia. injection H1 as <-.
    rewrite lookup_app_r in H2 by (rewrite length_app; simpl; lia).
    rewrite length_app in H2. simpl in H2.
    replace (S i - (length rs + 1)) with 0 in H2 by lia. by injection H2 as <-.
Qed.

Lemma format_kit_ranges_loop (rest : list Z) :
  ∀ (rs : list (Z * Z)) (start end_ : Z) (seen : list Z),
    concat (expand_run <$> rs) ++ expand_run (start, end_) = seen →
    Forall (λ r, r.1 ≤ r.2)%Z rs → (start ≤ end_)%Z →
    runs_maximal (rs ++ [(start, end_)]) →
    ∃ rs' start' end',
      foldl format_kit_ranges_step (show_run <$> rs, start, end_) rest
      = (show_run <$> rs', start', end') ∧
      concat (expand_run <$> rs') ++ expand_run (start', end') = seen ++ rest ∧
      Forall (λ r, r.1 ≤ r.2)%Z rs' ∧ (start' ≤ end')%Z ∧
      runs_maximal (rs' ++ [(start', end')]).
Proof.
  induction rest as [|num rest IH]; intros rs start end_ seen Hseen Hle Hse Hmax.
  - exists rs, start, end_. by rewrite app_nil_r.
  - cbn [foldl]. unfold format_kit_ranges_step at 2.
    destruct (decide (num = end_ + 1)%Z) as [->|Hne].
    + destruct (IH rs start (end_ + 1)%Z (seen ++ [(end_ + 1)%Z]))
        as (rs' & s' & e' & Hf & Hexp & Hle' & Hse' & Hmax').
      * rewrite expand_run_extend by done. by rewrite app_assoc, Hseen.
      * done.
      * lia.
      * by apply (runs_maximal_extend rs start end_).
      * exists rs', s', e'. by rewrite <- app_assoc in Hexp.
    + destruct (IH (rs ++ [(start, end_)]) num num (seen ++ [num]))
        as (rs' & s' & e' & Hf & Hexp & Hle' & Hse' & Hmax').
      * rewrite fmap_app, concat_app. simpl. rewrite app_nil_r.
        by rewrite expand_run_single, Hseen.
      * apply Forall_app. split; [done|]. by constructor.
      * lia.
      * by apply runs_maximal_snoc.
      * exists rs', s', e'. rewrite <- app_assoc in Hexp.
        split; [|done]. rewrite <- Hf. by rewrite fmap_app.
Qed.

(** X20: [format_kit_ranges] prints a list of integers as its runs of
    consecutive numbers, in order and joined by a comma and a space: a run
    of one number as the number, a longer run as first..last.  The runs
    expand back to exactly the list given, and no run continues the one
    before it. *)
Theorem format_kit_ranges_spec (kit_numbers : list Z) :
  ∃ rs : list (Z * Z),
    format_kit_ranges kit_numbers = String.concat ", " (show_run <$> rs) ∧
    concat (expand_run <$> rs) = kit_numbers ∧
    Forall (λ r, r.1 ≤ r.2)%Z rs ∧
    runs_maximal rs.
Proof.
  destruct kit_numbers as [|first rest].
  - exists []. repeat split; [done|]. by intros i r1 r2 H.
  - destruct (format_kit_ranges_loop rest [] first first [first])
      as (rs & s & e & Hf & Hexp & Hle & Hse & Hmax).
    + simpl. by rewrite expand_run_single.
    + done.
    + lia.
    + intros [|i] r1 r2 H1 H2; done.
    + exists (rs ++ [(s, e)]). unfold format_kit_ranges.
      change (@nil string) with (show_run <$> @nil (Z * Z)). rewrite Hf.
      split; [by rewrite fmap_app|].
      split; [by rewrite fmap_app, concat_app; simpl; rewrite app_nil_r|].
      split; [|done]. apply Forall_app. split; [done|]. by constructor.
Qed.

(** ** The generators *)

Lemma on_heap_eq {A} (m : M heap A) (h : heap) (g : rng) :
  on_heap m (h, g) = ((m h).1, ((m h).2, g)).
Proof. unfold on_heap, zoom. simpl. by destruct (m h). Qed.

Lemma with_rng_eq {A} (m : M rng A) (k : Kit) (h : heap) (g : rng) :
  with_rng m (k, (h, g)) = ((m g).1, (k, (h, (m g).2))).
Proof. unfold with_rng, zoom. simpl. by destruct (m g). Qed.

Lemma with_kit_eq {A} (m : M (Kit * heap) A) (k : Kit) (h : heap) (g : rng) :
  with_kit m (k, (h, g)) = ((m (k, h)).1, ((m (k, h)).2.1, ((m (k, h)).2.2, g))).
Proof. unfold with_kit, zoom. simpl. by destruct (m (k, h)) as [r [k' h']]. Qed.

Lemma random_choice_pick {A} (s : list A) (g : rng) :
  s ≠ [] →
  ∃ x, s !! (g 0 mod length s) = Some x ∧
       random_choice s g = (Return x, λ i, g (S i)).
Proof.
  intros Hne. unfold random_choice.
  destruct (decide (length s = 0)) as [H0|H0];
    [by apply length_zero_iff_nil in H0|].
  destruct (lookup_lt_is_Some_2 s (g 0 mod length s)) as [x Hx];
    [by apply Nat.mod_upper_bound|].
  exists x. split; [done|]. unfold bind, randbelow. by rewrite Hx.
Qed.

Lemma kit_shape_app (k : Kit) (h h' : heap) :
  kit_shape k h → kit_shape k (h ++ h').
Proof.
  intros [Hlen Hs]. split; [done|]. intros i l Hl.
  destruct (Hs i l Hl) as (v & Hv & Hok). exists v. split; [|done].
  by apply lookup_app_l_Some.
Qed.

(** One round of the loops: the slot gets the very object the picked kit
    holds at that index. *)
Lemma generate_random_kit_body_shares
    (kits : list Kit) (i : Z) (k : Kit) (h : heap) (g : rng) :
  kits ≠ [] → Forall (λ kit, kit_shape kit h) kits →
  (0 ≤ i < 4)%Z → length (voices k) = 4 →
  ∃ kit l,
    kits !! (g 0 mod length kits) = Some kit ∧
    voices kit !! Z.to_nat i = Some l ∧
    generate_random_kit_body kits i (k, (h, g))
    = (Return tt,
       (mkKit (header k) (<[Z.to_nat i := l]> (voices k)), (h, λ j, g (S j)))).
Proof.
  intros Hne Hshape Hi Hk.
  destruct (random_choice_pick kits g Hne) as (kit & Hkit & Hpick).
  rewrite Forall_forall in Hshape.
  destruct (Hshape kit) as [Hlen Hs]; [by eapply list_elem_of_lookup_2|].
  destruct (lookup_lt_is_Some_2 (voices kit) (Z.to_nat i)) as [l Hl]; [lia|].
  destruct (Hs _ _ Hl) as (v & Hv & Hok).
  exists kit, l. split; [done|]. split; [done|].
  unfold generate_random_kit_body.
  erewrite bind_Return by (rewrite with_rng_eq, Hpick; reflexivity).
  assert (Kit_get_voice kit i = Return l) as ->.
  { unfold Kit_get_voice, getitem. rewrite bool_decide_true by done. simpl.
    destruct (decide (i < 0)%Z); [lia|]. by rewrite Hl. }
  unfold lift at 1. unfold bind at 1.
  rewrite with_kit_eq.
  rewrite (Kit_set_voice_as_is i l k h v Hv); [done|lia|].
  unfold slot_length_ok in Hok.
  destruct (decide (Z.to_nat i < 3)); [left; lia|right].
  split; [lia|done].
Qed.

Lemma generate_variation_body_eq :
  generate_variation_body = generate_random_kit_body.
Proof. reflexivity. Qed.

(** The loops over distinct slot indices: each index of the list gets the
    object the kit picked in its round holds there, the other slots keep
    theirs, the store is not touched and one number is drawn per round. *)
Lemma generate_random_kit_loop (kits : list Kit) (h : heap) (idxs : list Z) :
  kits ≠ [] → Forall (λ kit, kit_shape kit h) kits →
  ∀ (k : Kit) (g : rng),
    Forall (λ i, 0 ≤ i < 4)%Z idxs → NoDup idxs → length (voices k) = 4 →
    ∃ k',
      for_each idxs (generate_random_kit_body kits) (k, (h, g))
      = (Return tt, (k', (h, λ j, g (length idxs + j)))) ∧
      header k' = header k ∧ length (voices k') = 4 ∧
      (∀ i, Z.of_nat i ∉ idxs → voices k' !! i = voices k !! i) ∧
      (∀ p i, idxs !! p = Some i →
         ∃ kit, kits !! (g p mod length kits) = Some kit ∧
                voices k' !! Z.to_nat i = voices kit !! Z.to_nat i).
Proof.
  intros Hne Hshape. induction idxs as [|i idxs IH]; intros k g Hin Hnd Hk.
  - exists k. repeat split; [done|]. intros p i Hp. done.
  - apply Forall_cons in Hin as [Hi Hin]. apply NoDup_cons in Hnd as [Hni Hnd].
    destruct (generate_random_kit_body_shares kits i k h g Hne Hshape Hi Hk)
      as (kit & l & Hkit & Hl & Hstep).
    destruct (IH (mkKit (header k) (<[Z.to_nat i := l]> (voices k)))
                (λ j, g (S j)) Hin Hnd)
      as (k' & Hloop & Hhdr & Hlen & Hkeep & Hpicked).
    { simpl. by rewrite length_insert. }
    exists k'. cbn [for_each].
    erewrite bind_Return by exact Hstep.
    split; [exact Hloop|]. split; [done|]. split; [done|]. split.
    + intros j Hj. rewrite Hkeep by (intros ?; apply Hj; by right).
      simpl. apply list_lookup_insert_ne. intros <-. apply Hj.
      rewrite Z2Nat.id by lia. by left.
    + intros [|p] j Hp.
      * injection Hp as <-. exists kit. split; [done|].
        rewrite Hkeep by (by rewrite Z2Nat.id by lia).
        simpl. rewrite list_lookup_insert_eq by lia. done.
      * by apply (Hpicked p j).
Qed.

(** The run of [generate_random_kit] on well shaped input kits. *)
Lemma generate_random_kit_run
    (input_kits : list Kit) (output_format : Z)
    (template_header : option bytes) (h : heap) (g : rng) :
  input_kits ≠ [] →
  Forall (λ kit, kit_shape kit h) input_kits →
  (template_header = None → output_format = 1 ∨ output_format = 2)%Z →
  ∃ k,
    generate_random_kit input_kits output_format template_header (h, g)
    = (Return k,
       (h ++ [standard_voice; standard_voice; standard_voice; extended_voice],
        λ j, g (4 + j))) ∧
    match template_header with
    | Some hdr => header k = hdr
    | None => Kit_create_header 57 output_format = Return (header k)
    end ∧
    length (voices k) = 4 ∧
    ∀ i, i < 4 →
      ∃ kit, input_kits !! (g i mod length input_kits) = Some kit ∧
             voices k !! i = voices kit !! i.
Proof.
  intros Hne Hshape Hfmt.
  set (h4 := h ++ [standard_voice; standard_voice; standard_voice;
                   extended_voice]).
  assert (Forall (λ kit, kit_shape kit h4) input_kits) as Hshape4.
  { eapply Forall_impl; [exact Hshape|]. intros kit. apply kit_shape_app. }
  assert (∃ new_kit,
    match template_header with
    | Some template_header => on_heap (Kit_init None (Some template_header))
    | None =>
        bind (on_heap (Kit_init None None))
          (λ new_kit, bind (lift (Kit_create_header 57 output_format))
             (λ header, ret (mkKit header (voices new_kit))))
    end (h, g) = (Return new_kit, (h4, g)) ∧
    length (voices new_kit) = 4 ∧
    match template_header with
    | Some hdr => header new_kit = hdr
    | None => Kit_create_header 57 output_format = Return (header new_kit)
    end) as (new_kit & Hnew & Hlen & Hhdr).
  { destruct template_header as [hdr|].
    - eexists. rewrite on_heap_eq, Kit_init_header. simpl. done.
    - destruct (Kit_init_default h) as [hdr0 Hinit].
      assert (∃ hdr, Kit_create_header 57 output_format = Return hdr)
        as [hdr Hc]
        by (destruct (Hfmt eq_refl) as [->| ->]; eexists; vm_compute;
            reflexivity).
      eexists. erewrite bind_Return
        by (rewrite on_heap_eq, Hinit; reflexivity).
      rewrite Hc. unfold lift, bind, ret. simpl. done. }
  destruct (generate_random_kit_loop input_kits h4 (range 4) Hne Hshape4
              new_kit g) as (k & Hloop & Hk & Hklen & _ & Hpicked).
  { rewrite Forall_forall. intros i Hi%range_elem_of. lia. }
  { by vm_compute; repeat constructor; rewrite ?elem_of_cons, ?elem_of_nil;
      try lia. }
  { done. }
  exists k. unfold generate_random_kit.
  erewrite bind_Return by exact Hnew.
  unfold with_local, bind at 1. rewrite Hloop. unfold ret.
  split; [done|].
  split; [by rewrite Hk|]. split; [done|].
  intros i Hi.
  destruct (Hpicked i (Z.of_nat i)) as (kit & Hkit & Hv).
  { unfold range. rewrite list_lookup_fmap.
    rewrite lookup_seq_lt by (change (Z.to_nat 4) with 4; lia). done. }
  rewrite Nat2Z.id in Hv. eauto.
Qed.

(** X21: given at least one input kit, all input kits being well shaped
    kits of the store (26, 26, 26 and 30 or 32 bytes), and a template
    header or an output format of 1 or 2, [generate_random_kit] returns a
    kit.  Its header is the template header, or else the 57-byte header
    [Kit.create_header] builds for the output format; its slot [i] holds the
    very voice object that the input kit picked in round [i] holds in slot
    [i]: the voices are shared with the input kits, not copied.  The store
    only gains the four empty voices of the [Kit] constructor, and the
    generator has drawn four numbers. *)
Theorem generate_random_kit_shares
    (input_kits : list Kit) (output_format : Z)
    (template_header : option bytes) (h : heap) (g : rng) :
  input_kits ≠ [] →
  Forall (λ kit, kit_shape kit h) input_kits →
  (template_header = None → output_format = 1 ∨ output_format = 2)%Z →
  ∃ k,
    generate_random_kit input_kits output_format template_header (h, g)
    = (Return k,
       (h ++ [standard_voice; standard_voice; standard_voice; extended_voice],
        λ j, g (4 + j))) ∧
    match template_header with
    | Some hdr => header k = hdr
    | None => Kit_create_header 57 output_format = Return (header k)
    end ∧
    length (voices k) = 4 ∧
    ∀ i, i < 4 →
      ∃ kit, input_kits !! (g i mod length input_kits) = Some kit ∧
             voices k !! i = voices kit !! i.
Proof. apply generate_random_kit_run. Qed.

Ltac solve_kit_shape :=
  split; [reflexivity|];
  intros [|[|[|[|i]]]] l Hl; simpl in Hl; try discriminate Hl;
  injection Hl as <-; eexists; (split; [reflexivity|]); vm_compute;
  auto.

Lemma generate_random_kit_shares_witness :
  ∃ k,
    generate_random_kit [example_kit; mkKit [] [4; 1; 2; 5]] 2 None
      (example_store, λ i, i)
    = (Return k,
       (example_store
          ++ [standard_voice; standard_voice; standard_voice; extended_voice],
        λ j, 4 + j)) ∧
    Kit_create_header 57 2 = Return (header k) ∧
    length (voices k) = 4 ∧
    ∀ i, i < 4 →
      ∃ kit, [example_kit; mkKit [] [4; 1; 2; 5]] !! (i mod 2) = Some kit ∧
             voices k !! i = voices kit !! i.
Proof.
  apply (generate_random_kit_shares
           [example_kit; mkKit [] [4; 1; 2; 5]] 2 None example_store (λ i, i)).
  - discriminate.
  - constructor; [solve_kit_shape|].
    constructor; [solve_kit_shape|constructor].
  - intros _. by right.
Defined.

Lemma with_local_Raise {S L A} (l : L) (m : M (L * S) A) s e l' s' :
  m (l, s) = (Raise e, (l', s')) → with_local l m s = (Raise e, s').
Proof. unfold with_local. by intros ->. Qed.

Lemma with_local_Return {S L A} (l : L) (m : M (L * S) A) s a l' s' :
  m (l, s) = (Return a, (l', s')) → with_local l m s = (Return (a, l'), s').
Proof. unfold with_local. by intros ->. Qed.

(** X22: [generate_random_kit] raises when there is no template header and
    the output format is neither 1 nor 2 (the [ValueError] of
    [Kit.create_header]), and otherwise when the list of input kits is
    empty (the [IndexError] of [random.choice]).  In both cases the [Kit]
    constructor has already run: the store has gained its four empty
    voices; no number has been drawn. *)
Theorem generate_random_kit_errors
    (input_kits : list Kit) (output_format : Z)
    (template_header : option bytes) (h : heap) (g : rng) :
  input_kits = [] ∨
    (template_header = None ∧ ¬ (output_format = 1 ∨ output_format = 2)%Z) →
  generate_random_kit input_kits output_format template_header (h, g)
  = (Raise
       match template_header with
       | None =>
           if decide (output_format = 1 ∨ output_format = 2)%Z
           then IndexError "Cannot choose from an empty sequence"
           else ValueError "voice_format must be 1 or 2"
       | Some _ => IndexError "Cannot choose from an empty sequence"
       end,
     (h ++ [standard_voice; standard_voice; standard_voice; extended_voice],
      g)).
Proof.
  intros Hcase. unfold generate_random_kit.
  assert (∀ new_kit h4,
    bind (with_local new_kit
            (for_each (range 4) (generate_random_kit_body [])))
         (λ r, ret r.2) (h4, g)
    = (Raise (IndexError "Cannot choose from an empty sequence"), (h4, g)))
    as Hempty.
  { intros new_kit h4. apply bind_Raise.
    apply (with_local_Raise _ _ _ _ new_kit).
    change (range 4) with [0; 1; 2; 3]%Z. cbn [for_each].
    apply bind_Raise. unfold generate_random_kit_body. apply bind_Raise.
    by rewrite with_rng_eq. }
  destruct template_header as [hdr|].
  - destruct Hcase as [->|[? _]]; [|done].
    erewrite bind_Return
      by (rewrite on_heap_eq, Kit_init_header; reflexivity).
    apply Hempty.
  - destruct (Kit_init_default h) as [hdr0 Hinit].
    destruct (decide (output_format = 1 ∨ output_format = 2)%Z) as [Hf|Hf].
    + destruct Hcase as [->|[_ ?]]; [|done].
      assert (∃ hdr, Kit_create_header 57 output_format = Return hdr)
        as [hdr Hc]
        by (destruct Hf as [->| ->]; eexists; vm_compute; reflexivity).
      erewrite bind_Return; [apply Hempty|].
      erewrite bind_Return by (rewrite on_heap_eq, Hinit; reflexivity).
      rewrite Hc. reflexivity.
    + apply bind_Raise.
      erewrite bind_Return by (rewrite on_heap_eq, Hinit; reflexivity).
      apply bind_Raise. unfold lift, Kit_create_header, Kit_create_header_on.
      rewrite bool_decide_false by lia.
      rewrite bool_decide_true; [done|].
      rewrite !elem_of_cons, elem_of_nil. tauto.
Qed.

Lemma generate_random_kit_errors_witness :
  generate_random_kit [] 2 None (example_store, λ i, i)
  = (Raise (IndexError "Cannot choose from an empty sequence"),
     (example_store
        ++ [standard_voice; standard_voice; standard_voice; extended_voice],
      λ i, i)) ∧
  generate_random_kit [example_kit] 3 None (example_store, λ i, i)
  = (Raise (ValueError "voice_format must be 1 or 2"),
     (example_store
        ++ [standard_voice; standard_voice; standard_voice; extended_voice],
      λ i, i)).
Proof.
  split.
  - apply (generate_random_kit_errors [] 2 None example_store (λ i, i)).
    by left.
  - apply (generate_random_kit_errors [example_kit] 3 None example_store
             (λ i, i)).
    right. split; [done|lia].
Defined.

(** ** [random.sample] *)

Lemma insert_snoc_Permutation {A} (l : list A) (j : nat) (x y : A) :
  l !! j = Some x → l ++ [y] ≡ₚ x :: <[j := y]> l.
Proof.
  revert j. induction l as [|a l IH]; intros [|j] Hj; try done; simpl in *.
  - injection Hj as ->. constructor. symmetry. apply Permutation_cons_append.
  - rewrite (IH j Hj). apply perm_swap.
Qed.

Lemma take_vacancy_Permutation {A} (pool : list A) (m j : nat) (x y : A) :
  j ≤ m → pool !! j = Some x → pool !! m = Some y →
  take (S m) pool ≡ₚ x :: take m (<[j := y]> pool).
Proof.
  intros Hjm Hx Hy. rewrite (take_S_r _ _ _ Hy).
  destruct (decide (j = m)) as [->|Hne].
  - rewrite take_insert_ge by done. assert (x = y) as -> by congruence.
    symmetry. apply Permutation_cons_append.
  - rewrite take_insert_lt by lia. apply insert_snoc_Permutation.
    rewrite lookup_take_lt by lia. done.
Qed.

Lemma random_sample_loop_spec {A} (n : nat) (k : nat) :
  ∀ (i0 : nat) (pool result : list A) (g : rng),
    length pool = n → i0 + k ≤ n →
    NoDup (take (n - i0) pool ++ result) →
    ∃ res,
      random_sample_loop n (seq i0 k) pool result g
      = (Return res, λ j, g (k + j)) ∧
      length res = length result + k ∧
      NoDup res ∧
      res ⊆ take (n - i0) pool ++ result.
Proof.
  induction k as [|k IH]; intros i0 pool result g Hlen Hk Hnd.
  - exists result. simpl. unfold ret. split; [done|]. split; [lia|].
    split; [by apply NoDup_app in Hnd as (_ & _ & ?)|].
    intros x Hx. apply elem_of_app. by right.
  - cbn [seq random_sample_loop].
    set (j := g 0 mod (n - i0)).
    assert (j < n - i0) as Hj by (apply Nat.mod_upper_bound; lia).
    destruct (lookup_lt_is_Some_2 pool j) as [x Hx]; [lia|].
    destruct (lookup_lt_is_Some_2 pool (n - i0 - 1)) as [y Hy]; [lia|].
    assert (take (n - i0) pool ≡ₚ x :: take (n - S i0) (<[j := y]> pool))
      as Hperm.
    { replace (n - i0) with (S (n - i0 - 1)) by lia.
      replace (n - S i0) with (n - i0 - 1) by lia.
      apply take_vacancy_Permutation; [lia|done|done]. }
    destruct (IH (S i0) (<[j := y]> pool) (result ++ [x]) (λ i, g (S i)))
      as (res & Hrun & Hl & Hnd' & Hsub).
    + by rewrite length_insert.
    + lia.
    + rewrite Hperm in Hnd. revert Hnd.
      rewrite app_assoc. rewrite !NoDup_app, NoDup_cons.
      setoid_rewrite elem_of_app. setoid_rewrite elem_of_cons.
      setoid_rewrite elem_of_nil.
      intros ((Hx1 & Hnd1) & Hdisj & Hnd2).
      split; [split; [done|split; [|done]]|split].
      * intros z Hz. apply Hdisj. by right.
      * intros z [Hz|Hz] [->|[]]; [done|]. apply (Hdisj x); [by left|done].
      * apply NoDup_singleton.
    + exists res. unfold bind at 1, randbelow. fold j. rewrite Hx, Hy.
      split; [exact Hrun|]. split; [rewrite Hl, length_app; simpl; lia|].
      split; [done|].
      intros z Hz. apply Hsub in Hz. rewrite Hperm.
      revert Hz. rewrite !elem_of_app, !elem_of_cons, elem_of_nil.
      tauto.
Qed.

Lemma random_sample_spec {A} (population : list A) (k : Z) (g : rng) :
  NoDup population → length population ≤ 21 →
  (0 ≤ k ≤ Z.of_nat (length population))%Z →
  ∃ res,
    random_sample population k g = (Return res, λ j, g (Z.to_nat k + j)) ∧
    length res = Z.to_nat k ∧ NoDup res ∧ res ⊆ population.
Proof.
  intros Hnd _ Hk. unfold random_sample.
  rewrite bool_decide_true by done. simpl.
  destruct (random_sample_loop_spec (length population) (Z.to_nat k) 0
              population [] g) as (res & Hrun & Hl & Hnd' & Hsub);
    [done|lia|..].
  - rewrite app_nil_r, Nat.sub_0_r, firstn_all. done.
  - exists res. split; [done|]. split; [done|]. split; [done|].
    intros z Hz. apply Hsub in Hz.
    by rewrite app_nil_r, Nat.sub_0_r, firstn_all in Hz.
Qed.

(** ** generate_variation *)

Lemma fresh_kit_shape (hdr : bytes) (h : heap) :
  kit_shape
    (mkKit hdr [length h; S (length h); S (S (length h)); S (S (S (length h)))])
    (h ++ [standard_voice; standard_voice; standard_voice; extended_voice]).
Proof.
  split; [done|]. intros i l Hl.
  destruct i as [|[|[|[|i]]]]; simpl in Hl; [injection Hl as <-..|done];
    eexists; (split; [rewrite lookup_app_r by lia; simpl|]).
  - by rewrite Nat.sub_diag.
  - by vm_compute.
  - by replace (S (length h) - length h) with 1 by lia.
  - by vm_compute.
  - by replace (S (S (length h)) - length h) with 2 by lia.
  - by vm_compute.
  - by replace (S (S (S (length h))) - length h) with 3 by lia.
  - vm_compute. by left.
Qed.

(** One round of the first loop: the slot gets the object the source kit
    holds there. *)
Lemma generate_variation_copy_step
    (source_kit : Kit) (i : Z) (k : Kit) (h : heap) (g : rng) :
  kit_shape source_kit h → (0 ≤ i < 4)%Z → length (voices k) = 4 →
  ∃ l,
    voices source_kit !! Z.to_nat i = Some l ∧
    bind (lift (Kit_get_voice source_kit i))
      (λ voice, with_kit (Kit_set_voice i voice)) (k, (h, g))
    = (Return tt,
       (mkKit (header k) (<[Z.to_nat i := l]> (voices k)), (h, g))).
Proof.
  intros [Hlen Hs] Hi Hk.
  destruct (lookup_lt_is_Some_2 (voices source_kit) (Z.to_nat i)) as [l Hl];
    [lia|].
  destruct (Hs _ _ Hl) as (v & Hv & Hok).
  exists l. split; [done|].
  assert (Kit_get_voice source_kit i = Return l) as ->.
  { unfold Kit_get_voice, getitem. rewrite bool_decide_true by done. simpl.
    destruct (decide (i < 0)%Z); [lia|]. by rewrite Hl. }
  unfold lift at 1. unfold bind at 1.
  rewrite with_kit_eq.
  rewrite (Kit_set_voice_as_is i l k h v Hv); [done|lia|].
  unfold slot_length_ok in Hok.
  destruct (decide (Z.to_nat i < 3)); [left; lia|right].
  split; [lia|done].
Qed.

Lemma generate_variation_copy
    (source_kit : Kit) (k : Kit) (h : heap) (g : rng) :
  kit_shape source_kit h → length (voices k) = 4 →
  for_each (range 4)
    (λ i, bind (lift (Kit_get_voice source_kit i))
            (λ voice, with_kit (Kit_set_voice i voice))) (k, (h, g))
  = (Return tt, (mkKit (header k) (voices source_kit), (h, g))).
Proof.
  intros Hshape Hk. change (range 4) with [0; 1; 2; 3]%Z. cbn [for_each].
  destruct (generate_variation_copy_step source_kit 0 k h g Hshape)
    as (l0 & Hl0 & H0); [lia|done|].
  erewrite bind_Return by exact H0.
  destruct (generate_variation_copy_step source_kit 1
              (mkKit (header k) (<[Z.to_nat 0 := l0]> (voices k))) h g Hshape)
    as (l1 & Hl1 & H1); [lia|by simpl; rewrite length_insert|].
  erewrite bind_Return by exact H1.
  destruct (generate_variation_copy_step source_kit 2
              (mkKit (header k)
                 (<[Z.to_nat 1 := l1]> (<[Z.to_nat 0 := l0]> (voices k))))
              h g Hshape)
    as (l2 & Hl2 & H2); [lia|by simpl; rewrite !length_insert|].
  erewrite bind_Return by exact H2.
  destruct (generate_variation_copy_step source_kit 3
              (mkKit (header k)
                 (<[Z.to_nat 2 := l2]>
                    (<[Z.to_nat 1 := l1]> (<[Z.to_nat 0 := l0]> (voices k)))))
              h g Hshape)
    as (l3 & Hl3 & H3); [lia|by simpl; rewrite !length_insert|].
  erewrite bind_Return by exact H3.
  unfold ret. cbn [header voices].
  destruct Hshape as [Hlen _].
  destruct (voices source_kit) as [|a0 [|a1 [|a2 [|a3 [|]]]]]; try done.
  destruct (voices k) as [|b0 [|b1 [|b2 [|b3 [|]]]]]; try done.
  simpl in *. congruence.
Qed.

(** X23: given a well shaped source kit, at least one mutation kit, all of
    them well shaped kits of the store, and a number of mutations from 0
    to 4, [generate_variation] returns a kit and the list of mutated
    indices.  The kit has the header of the source kit; the indices are
    that many distinct numbers of 0..3; a mutated slot holds the very voice
    object a mutation kit holds in the same slot, every other slot the very
    voice object of the source kit: nothing is copied.  The store only
    gains the four empty voices of the [Kit] constructor, and the generator
    has drawn two numbers for each mutation. *)
Theorem generate_variation_shares
    (source_kit : Kit) (mutation_kits : list Kit) (n_mutations : Z)
    (h : heap) (g : rng) :
  kit_shape source_kit h →
  mutation_kits ≠ [] →
  Forall (λ kit, kit_shape kit h) mutation_kits →
  (0 ≤ n_mutations ≤ 4)%Z →
  ∃ k voices_to_mutate,
    generate_variation source_kit mutation_kits n_mutations (h, g)
    = (Return (k, voices_to_mutate),
       (h ++ [standard_voice; standard_voice; standard_voice; extended_voice],
        λ j, g (Z.to_nat n_mutations + (length voices_to_mutate + j)))) ∧
    header k = header source_kit ∧
    length voices_to_mutate = Z.to_nat n_mutations ∧
    NoDup voices_to_mutate ∧
    Forall (λ i, 0 ≤ i < 4)%Z voices_to_mutate ∧
    ∀ i, i < 4 →
      (Z.of_nat i ∉ voices_to_mutate →
       voices k !! i = voices source_kit !! i) ∧
      (Z.of_nat i ∈ voices_to_mutate →
       ∃ kit, kit ∈ mutation_kits ∧ voices k !! i = voices kit !! i).
Proof.
  intros Hsrc Hne Hshape Hn.
  set (h4 := h ++ [standard_voice; standard_voice; standard_voice;
                   extended_voice]).
  assert (Forall (λ kit, kit_shape kit h4) mutation_kits) as Hshape4.
  { eapply Forall_impl; [exact Hshape|]. intros kit. apply kit_shape_app. }
  assert (kit_shape source_kit h4) as Hsrc4 by by apply kit_shape_app.
  destruct (Kit_init_default h) as [hdr0 Hinit].
  destruct (random_sample_spec (range 4) n_mutations g)
    as (muts & Hsample & Hmlen & Hmnd & Hmsub).
  { by vm_compute; repeat constructor; rewrite ?elem_of_cons, ?elem_of_nil;
      try lia. }
  { vm_compute. lia. }
  { change (length (range 4)) with 4. lia. }
  assert (Forall (λ i, 0 ≤ i < 4)%Z muts) as Hmrange.
  { rewrite Forall_forall. intros i Hi%Hmsub%range_elem_of. lia. }
  set (variation :=
         mkKit (header source_kit)
           [length h; S (length h); S (S (length h)); S (S (S (length h)))]).
  destruct (generate_random_kit_loop mutation_kits h4 muts Hne Hshape4
              (mkKit (header variation) (voices source_kit))
              (λ j, g (Z.to_nat n_mutations + j)) Hmrange Hmnd)
    as (k & Hloop & Hk & Hklen & Hkeep & Hpicked).
  { by destruct Hsrc as [? _]. }
  exists k, muts. split.
  { unfold generate_variation.
    erewrite bind_Return by (rewrite on_heap_eq, Hinit; reflexivity).
    cbn [fst snd voices].
    assert (with_local variation
              (bind (for_each (range 4)
                       (λ i, bind (lift (Kit_get_voice source_kit i))
                               (λ voice, with_kit (Kit_set_voice i voice))))
                 (λ _, bind (with_rng (random_sample (range 4) n_mutations))
                         (λ voices_to_mutate,
                            bind (for_each voices_to_mutate
                                    (generate_variation_body mutation_kits))
                              (λ _, ret voices_to_mutate))))
              (h4, g)
            = (Return (muts, k),
               (h4, λ j, g (Z.to_nat n_mutations + (length muts + j)))))
      as Hrun.
    { apply with_local_Return.
      erewrite bind_Return
        by (by apply (generate_variation_copy source_kit variation h4 g)).
      erewrite bind_Return by (rewrite with_rng_eq, Hsample; reflexivity).
      cbn [fst snd].
      erewrite bind_Return
        by (rewrite generate_variation_body_eq; exact Hloop).
      reflexivity. }
    erewrite bind_Return by exact Hrun. reflexivity. }
  split; [by rewrite Hk|]. split; [done|]. split; [done|]. split; [done|].
  intros i Hi. split.
  - intros Hni. by rewrite Hkeep.
  - intros [p Hp]%list_elem_of_lookup.
    destruct (Hpicked p _ Hp) as (kit & Hkit & Hv).
    exists kit. split; [by eapply list_elem_of_lookup_2|].
    by rewrite Nat2Z.id in Hv.
Qed.

Lemma generate_variation_shares_witness :
  ∃ k voices_to_mutate,
    generate_variation example_kit [mkKit [] [4; 1; 2; 5]] 2
      (example_store, λ i, i)
    = (Return (k, voices_to_mutate),
       (example_store
          ++ [standard_voice; standard_voice; standard_voice; extended_voice],
        λ j, Z.to_nat 2 + (length voices_to_mutate + j))) ∧
    header k = header example_kit ∧
    length voices_to_mutate = Z.to_nat 2 ∧
    NoDup voices_to_mutate ∧
    Forall (λ i, 0 ≤ i < 4)%Z voices_to_mutate ∧
    ∀ i, i < 4 →
      (Z.of_nat i ∉ voices_to_mutate →
       voices k !! i = voices example_kit !! i) ∧
      (Z.of_nat i ∈ voices_to_mutate →
       ∃ kit, kit ∈ [mkKit [] [4; 1; 2; 5]] ∧ voices k !! i = voices kit !! i).
Proof.
  apply (generate_variation_shares example_kit [mkKit [] [4; 1; 2; 5]] 2
           example_store (λ i, i)).
  - solve_kit_shape.
  - discriminate.
  - constructor; [solve_kit_shape|constructor].
  - lia.
Defined.

(** X24: on a well shaped source kit, [generate_variation] fails only
    after it has built the new kit and copied the four voices: a number of
    mutations outside 0..4 raises the [ValueError] of [random.sample], and
    an empty list of mutation kits with one to four mutations raises the
    [IndexError] of [random.choice] once the indices have been drawn.  With
    no mutation it returns the source kit's header and voice objects and an
    empty list, and draws nothing. *)
Theorem generate_variation_edge_cases
    (source_kit : Kit) (mutation_kits : list Kit) (n_mutations : Z)
    (h : heap) (g : rng) :
  kit_shape source_kit h →
  let h4 := h ++ [standard_voice; standard_voice; standard_voice;
                  extended_voice] in
  (¬ (0 ≤ n_mutations ≤ 4)%Z →
   generate_variation source_kit mutation_kits n_mutations (h, g)
   = (Raise (ValueError "Sample larger than population or is negative"),
      (h4, g))) ∧
  ((1 ≤ n_mutations ≤ 4)%Z → mutation_kits = [] →
   generate_variation source_kit mutation_kits n_mutations (h, g)
   = (Raise (IndexError "Cannot choose from an empty sequence"),
      (h4, λ j, g (Z.to_nat n_mutations + j)))) ∧
  (n_mutations = 0%Z →
   generate_variation source_kit mutation_kits n_mutations (h, g)
   = (Return (mkKit (header source_kit) (voices source_kit), []), (h4, g))).
Proof.
  intros Hsrc h4.
  assert (kit_shape source_kit h4) as Hsrc4 by by apply kit_shape_app.
  destruct (Kit_init_default h) as [hdr0 Hinit].
  set (variation :=
         mkKit (header source_kit)
           [length h; S (length h); S (S (length h)); S (S (S (length h)))]).
  pose proof (generate_variation_copy source_kit variation h4 g Hsrc4 eq_refl)
    as Hcopy.
  split; [|split].
  - intros Hn. unfold generate_variation.
    erewrite bind_Return by (rewrite on_heap_eq, Hinit; reflexivity).
    cbn [fst snd voices]. apply bind_Raise.
    apply (with_local_Raise _ _ _ _ (mkKit (header variation) (voices source_kit))).
    erewrite bind_Return by exact Hcopy.
    apply bind_Raise. rewrite with_rng_eq. unfold random_sample.
    rewrite bool_decide_false by (change (length (range 4)) with 4; lia).
    reflexivity.
  - intros Hn ->. unfold generate_variation.
    erewrite bind_Return by (rewrite on_heap_eq, Hinit; reflexivity).
    cbn [fst snd voices]. apply bind_Raise.
    destruct (random_sample_spec (range 4) n_mutations g)
      as (muts & Hsample & Hmlen & _ & _).
    { by vm_compute; repeat constructor; rewrite ?elem_of_cons, ?elem_of_nil;
        try lia. }
    { vm_compute. lia. }
    { change (length (range 4)) with 4. lia. }
    apply (with_local_Raise _ _ _ _ (mkKit (header variation) (voices source_kit))).
    erewrite bind_Return by exact Hcopy.
    erewrite bind_Return by (rewrite with_rng_eq, Hsample; reflexivity).
    cbn [fst snd]. apply bind_Raise.
    destruct muts as [|i muts]; [simpl in Hmlen; lia|].
    cbn [for_each]. apply bind_Raise.
    unfold generate_variation_body. apply bind_Raise.
    by rewrite with_rng_eq.
  - intros ->. unfold generate_variation.
    erewrite bind_Return by (rewrite on_heap_eq, Hinit; reflexivity).
    cbn [fst snd voices].
    rewrite (bind_Return _ _ _
               ([], mkKit (header variation) (voices source_kit)) (h4, g));
      [reflexivity|].
    apply with_local_Return.
    erewrite bind_Return by exact Hcopy.
    reflexivity.
Qed.

Lemma generate_variation_edge_cases_witness :
  let h4 := example_store ++ [standard_voice; standard_voice; standard_voice;
                              extended_voice] in
  generate_variation example_kit [] 5 (example_store, λ i, i)
  = (Raise (ValueError "Sample larger than population or is negative"),
     (h4, λ i, i)) ∧
  generate_variation example_kit [] 2 (example_store, λ i, i)
  = (Raise (IndexError "Cannot choose from an empty sequence"),
     (h4, λ j, Z.to_nat 2 + j)) ∧
  generate_variation example_kit [] 0 (example_store, λ i, i)
  = (Return (mkKit (header example_kit) (voices example_kit), []),
     (h4, λ i, i)).
Proof.
  assert (kit_shape example_kit example_store) as Hshape by solve_kit_shape.
  split; [|split].
  - apply (generate_variation_edge_cases example_kit [] 5 example_store
             (λ i, i) Hshape). lia.
  - apply (generate_variation_edge_cases example_kit [] 2 example_store
             (λ i, i) Hshape); [lia|done].
  - by apply (generate_variation_edge_cases example_kit [] 0 example_store
                (λ i, i) Hshape).
Defined.

(** ** The generators on arbitrary kits *)

Lemma with_rng_inv {A} (m : M rng A) k h g r k' h' g' :
  with_rng m (k, (h, g)) = (r, (k', (h', g'))) →
  m g = (r, g') ∧ k' = k ∧ h' = h.
Proof. rewrite with_rng_eq. destruct (m g). by intros [= <- <- <- <-]. Qed.

Lemma with_kit_inv {A} (m : M (Kit * heap) A) k h g r k' h' g' :
  with_kit m (k, (h, g)) = (r, (k', (h', g'))) →
  m (k, h) = (r, (k', h')) ∧ g' = g.
Proof.
  rewrite with_kit_eq. destruct (m (k, h)) as [r1 [k1 h1]].
  by intros [= <- <- <- <-].
Qed.

Lemma generate_random_kit_body_inv kits i k h g k' h' g' :
  generate_random_kit_body kits i (k, (h, g)) = (Return tt, (k', (h', g'))) →
  ∃ voice, Kit_set_voice i voice (k, h) = (Return tt, (k', h')).
Proof.
  unfold generate_random_kit_body.
  intros [(kit & [k1 [h1 g1]] & Hpick & Hrest)|(? & _ & ?)]%bind_inv; [|done].
  apply with_rng_inv in Hpick as (_ & -> & ->).
  apply bind_inv in Hrest as [(voice & [k2 [h2 g2]] & Hget & Hset)|(? & _ & ?)];
    [|done].
  unfold lift in Hget. injection Hget as _ <- <- <-.
  apply with_kit_inv in Hset as [Hset _]. eauto.
Qed.

Lemma generate_variation_copy_inv source_kit i k h g k' h' g' :
  bind (lift (Kit_get_voice source_kit i))
    (λ voice, with_kit (Kit_set_voice i voice)) (k, (h, g))
  = (Return tt, (k', (h', g'))) →
  ∃ voice, Kit_set_voice i voice (k, h) = (Return tt, (k', h')).
Proof.
  intros [(voice & [k2 [h2 g2]] & Hget & Hset)|(? & _ & ?)]%bind_inv; [|done].
  unfold lift in Hget. injection Hget as _ <- <- <-.
  apply with_kit_inv in Hset as [Hset _]. eauto.
Qed.

(** A loop whose rounds are calls of [Kit.set_voice] on the local kit keeps
    the kit well shaped and its header. *)
Lemma set_voice_loop_shape {X} (body : X → M (Kit * (heap * rng)) unit)
    (xs : list X) :
  (∀ x k h g k' h' g',
     body x (k, (h, g)) = (Return tt, (k', (h', g'))) →
     ∃ i voice, Kit_set_voice i voice (k, h) = (Return tt, (k', h'))) →
  ∀ k h g k' h' g',
    for_each xs body (k, (h, g)) = (Return tt, (k', (h', g'))) →
    kit_shape k h → kit_shape k' h' ∧ header k' = header k.
Proof.
  intros Hbody. induction xs as [|x xs IH]; intros k h g k' h' g'.
  - simpl. unfold ret. by intros [= <- <- <-].
  - intros ([k1 [h1 g1]] & Hstep & Hrest)%for_each_cons_inv Hshape.
    apply Hbody in Hstep as (i & voice & Hset).
    pose proof (Kit_set_voice_shape _ _ _ _ _ _ Hset) as [_ Hkeep].
    apply Kit_set_voice_success in Hset as (_ & _ & _ & l' & _ & Hk1 & _).
    destruct (IH _ _ _ _ _ _ Hrest (Hkeep Hshape)) as [Hs' Hh'].
    split; [done|]. by rewrite Hh', Hk1.
Qed.

(** X25: whatever kits they are given -- decoded kits may hold voices of
    any of the three lengths in any slot -- the kit [generate_random_kit]
    or [generate_variation] returns is well shaped in the store the call
    leaves: four voices of 26, 26, 26 and 30 or 32 bytes.  The variation
    has the header of the source kit. *)
Theorem generators_keep_shape :
  (∀ input_kits output_format template_header h g k h' g',
     generate_random_kit input_kits output_format template_header (h, g)
     = (Return k, (h', g')) →
     kit_shape k h') ∧
  (∀ source_kit mutation_kits n_mutations h g k voices_to_mutate h' g',
     generate_variation source_kit mutation_kits n_mutations (h, g)
     = (Return (k, voices_to_mutate), (h', g')) →
     kit_shape k h' ∧ header k = header source_kit).
Proof.
  split.
  - intros kits fmt tmpl h g k h' g'. unfold generate_random_kit.
    intros [(new_kit & [h1 g1] & Hnew & Hrun)|(? & _ & ?)]%bind_inv; [|done].
    apply bind_inv in Hrun as [([[] k1] & [h2 g2] & Hloop & Hret)|(? & _ & ?)];
      [|done].
    unfold ret in Hret. injection Hret as <- <- <-.
    apply with_local_inv in Hloop. cbn [fst snd] in Hloop.
    apply set_voice_loop_shape in Hloop as [Hshape _]; [done|..].
    + intros x k0 h0 g0 k0' h0' g0' Hb.
      apply generate_random_kit_body_inv in Hb as [voice Hset]. eauto.
    + destruct tmpl as [hdr|].
      * rewrite on_heap_eq, Kit_init_header in Hnew. simpl in Hnew.
        injection Hnew as <- <- <-. apply fresh_kit_shape.
      * destruct (Kit_init_default h) as [hdr0 Hinit].
        erewrite bind_Return in Hnew
          by (rewrite on_heap_eq, Hinit; reflexivity).
        apply bind_inv in Hnew as [(hdr & [h3 g3] & Hc & Hret)|(? & _ & ?)];
          [|done].
        unfold lift in Hc. injection Hc as _ <- <-.
        unfold ret in Hret. injection Hret as <- <- <-.
        apply fresh_kit_shape.
  - intros source_kit kits n h g k muts h' g'. unfold generate_variation.
    destruct (Kit_init_default h) as [hdr0 Hinit].
    erewrite bind_Return by (rewrite on_heap_eq, Hinit; reflexivity).
    cbn [fst snd voices].
    intros [([muts' k1] & [h2 g2] & Hloop & Hret)|(? & _ & ?)]%bind_inv;
      [|done].
    unfold ret in Hret. injection Hret as <- <- <- <-.
    apply with_local_inv in Hloop. cbn [fst snd] in Hloop.
    apply bind_inv in Hloop as [([] & [k3 [h3 g3]] & Hcopy & Hloop)|(? & _ & ?)];
      [|done].
    apply set_voice_loop_shape in Hcopy as [Hshape3 Hhdr3];
      [| |apply fresh_kit_shape].
    2:{ intros x k0 h0 g0 k0' h0' g0' Hb.
        apply generate_variation_copy_inv in Hb as [voice Hset]. eauto. }
    apply bind_inv in Hloop
      as [(muts'' & [k4 [h4 g4]] & Hsample & Hloop)|(? & _ & ?)]; [|done].
    apply with_rng_inv in Hsample as (_ & -> & ->).
    apply bind_inv in Hloop as [([] & [k5 [h5 g5]] & Hmut & Hret)|(? & _ & ?)];
      [|done].
    unfold ret in Hret. injection Hret as <- <- <- <-.
    apply set_voice_loop_shape in Hmut as [Hshape5 Hhdr5]; [|..|done].
    + split; [done|]. by rewrite Hhdr5, Hhdr3.
    + intros x k0 h0 g0 k0' h0' g0' Hb.
      apply generate_random_kit_body_inv in Hb as [voice Hset]. eauto.
Qed.

Lemma generators_keep_shape_witness :
  (∃ k h' g',
     generate_random_kit [mkKit [] [3; 5; 6; 0]] 2 None (example_store, λ i, i)
     = (Return k, (h', g')) ∧
     kit_shape k h') ∧
  (∃ k voices_to_mutate h' g',
     generate_variation (mkKit [] [3; 5; 6; 0]) [example_kit] 1
       (example_store, λ i, i)
     = (Return (k, voices_to_mutate), (h', g')) ∧
     kit_shape k h' ∧ header k = []).
Proof.
  split.
  - eexists _, _, _. split; [vm_compute; reflexivity|].
    eapply (proj1 generators_keep_shape [mkKit [] [3; 5; 6; 0]] 2%Z None
              example_store (λ i, i)).
    vm_compute. reflexivity.
  - eexists _, _, _, _. split; [vm_compute; reflexivity|].
    eapply (proj2 generators_keep_shape (mkKit [] [3; 5; 6; 0]) [example_kit]
              1%Z example_store (λ i, i)).
    vm_compute. reflexivity.
Defined.

(** ** select_header_for_format2 *)

Lemma format2_kits_keep (h : heap) (kit : Kit) :
  kit_in_store kit h →
  ∃ keep : bool,
    match voices kit !! 3 with
    | Some v4 =>
        bind (call v4 Voice_data) (λ d, ret (bool_decide (len d = 32%Z)))
    | None => raise (IndexError "list index out of range")
    end h = (Return keep, h) ∧
    (keep = true ↔ is_format2 h kit).
Proof.
  intros [Hlen Hin].
  destruct (lookup_lt_is_Some_2 (voices kit) 3) as [v4 Hv4]; [lia|].
  destruct (Hin v4) as [v Hv]; [by eapply list_elem_of_lookup_2|].
  exists (bool_decide (len (data v) = 32%Z)). rewrite Hv4.
  erewrite bind_Return by (by apply call_Voice_data).
  split; [done|]. rewrite bool_decide_eq_true. unfold is_format2, len. split.
  - intros Hl. exists v4, v. repeat split; [done..|lia].
  - intros (l & v' & Hl & Hv' & H32). simplify_eq. lia.
Qed.

Lemma format2_kits_spec (h : heap) (input_kits : list Kit) :
  Forall (λ kit, kit_in_store kit h) input_kits →
  ∃ selected,
    format2_kits input_kits h = (Return selected, h) ∧
    match selected with
    | [] => Forall (λ kit, ¬ is_format2 h kit) input_kits
    | template_kit :: _ =>
        ∃ i, input_kits !! i = Some template_kit ∧
             is_format2 h template_kit ∧
             ∀ j kit, j < i → input_kits !! j = Some kit → ¬ is_format2 h kit
    end.
Proof.
  induction input_kits as [|kit kits IH]; intros Hin.
  - exists []. by split.
  - apply Forall_cons in Hin as [Hkit Hin].
    destruct (IH Hin) as (rest & Hrest & Hspec).
    destruct (format2_kits_keep h kit Hkit) as (keep & Hkeep & Hiff).
    exists (if keep then kit :: rest else rest).
    cbn [format2_kits]. erewrite bind_Return by exact Hkeep.
    erewrite bind_Return by exact Hrest. split; [done|].
    destruct keep.
    + exists 0. split; [done|]. split; [by apply Hiff|]. intros j ? Hj. lia.
    + assert (¬ is_format2 h kit) as Hno by (intros ?%Hiff; done).
      destruct rest as [|template_kit rest].
      * by constructor.
      * destruct Hspec as (i & Hi & Hf & Hbefore). exists (S i).
        split; [done|]. split; [done|]. intros [|j] kit' Hj Hl.
        -- by injection Hl as <-.
        -- apply (Hbefore j); [lia|done].
Qed.

(** X26: for kits of four voices in the store,
    [select_header_for_format2] returns, without changing the store, the
    header of the first kit of the list whose slot-3 voice has 32 bytes;
    when no kit has one it returns the 57-byte header
    [Kit.create_header] builds for sub-format 2. *)
Theorem select_header_for_format2_spec (input_kits : list Kit) (h : heap) :
  Forall (λ kit, kit_in_store kit h) input_kits →
  ∃ hdr,
    select_header_for_format2 input_kits h = (Return hdr, h) ∧
    ((∃ i template_kit,
        input_kits !! i = Some template_kit ∧
        is_format2 h template_kit ∧
        (∀ j kit, j < i → input_kits !! j = Some kit → ¬ is_format2 h kit) ∧
        hdr = header template_kit) ∨
     (Forall (λ kit, ¬ is_format2 h kit) input_kits ∧
      Kit_create_header 57 2 = Return hdr ∧ length hdr = 57)).
Proof.
  intros Hin. destruct (format2_kits_spec h input_kits Hin)
    as (selected & Hsel & Hspec).
  unfold select_header_for_format2.
  destruct selected as [|template_kit rest].
  - assert (∃ hdr, Kit_create_header 57 2 = Return hdr ∧ length hdr = 57)
      as (hdr & Hc & Hl) by (eexists; split; vm_compute; reflexivity).
    exists hdr. erewrite bind_Return by exact Hsel.
    rewrite Hc. split; [done|]. by right.
  - destruct Hspec as (i & Hi & Hf & Hbefore).
    exists (header template_kit). erewrite bind_Return by exact Hsel.
    split; [done|]. left. eauto 6.
Qed.

Lemma select_header_for_format2_spec_witness :
  ∃ hdr,
    select_header_for_format2 [mkKit [] [4; 1; 2; 5]; example_kit]
      example_store = (Return hdr, example_store) ∧
    ((∃ i template_kit,
        [mkKit [] [4; 1; 2; 5]; example_kit] !! i = Some template_kit ∧
        is_format2 example_store template_kit ∧
        (∀ j kit, j < i →
           [mkKit [] [4; 1; 2; 5]; example_kit] !! j = Some kit →
           ¬ is_format2 example_store kit) ∧
        hdr = header template_kit) ∨
     (Forall (λ kit, ¬ is_format2 example_store kit)
        [mkKit [] [4; 1; 2; 5]; example_kit] ∧
      Kit_create_header 57 2 = Return hdr ∧ length hdr = 57)).
Proof.
  apply (select_header_for_format2_spec
           [mkKit [] [4; 1; 2; 5]; example_kit] example_store).
  constructor; [|constructor; [|constructor]];
    (split; [reflexivity|]); intros l Hl; apply lookup_lt_is_Some_2;
    simpl in *; rewrite !elem_of_cons, elem_of_nil in Hl; lia.
Defined.

(** ** The format of a generated kit *)

Lemma is_format2_app (h h' : heap) (kit : Kit) :
  kit_shape kit h → is_format2 (h ++ h') kit ↔ is_format2 h kit.
Proof.
  intros [Hlen Hs]. unfold is_format2. split.
  - intros (l & v & Hl & Hv & H32). destruct (Hs 3 l Hl) as (v' & Hv' & _).
    exists l, v'. rewrite (lookup_app_l_Some _ _ _ _ Hv') in Hv.
    by simplify_eq.
  - intros (l & v & Hl & Hv & H32). exists l, v.
    split; [done|]. split; [by apply lookup_app_l_Some|done].
Qed.

(** X27: the sub-format of the kit [generate_random_kit] returns is that of
    the input kit picked in the last round, whatever the template header or
    the output format say: on well shaped input kits, the slot-3 voice of
    the new kit has 32 bytes exactly when the slot-3 voice of the kit picked
    for slot 3 has, and the kit encodes to its header followed by 110 bytes
    in that case and by 108 bytes otherwise. *)
Theorem generate_random_kit_format
    (input_kits : list Kit) (output_format : Z)
    (template_header : option bytes) (h : heap) (g : rng)
    (k : Kit) (h' : heap) (g' : rng) (picked : Kit) :
  Forall (λ kit, kit_shape kit h) input_kits →
  (template_header = None → output_format = 1 ∨ output_format = 2)%Z →
  input_kits !! (g 3 mod length input_kits) = Some picked →
  generate_random_kit input_kits output_format template_header (h, g)
  = (Return k, (h', g')) →
  (is_format2 h' k ↔ is_format2 h picked) ∧
  ∃ file,
    encode k h' = (Return file, h') ∧
    (is_format2 h picked → length file = length (header k) + 110) ∧
    (¬ is_format2 h picked → length file = length (header k) + 108).
Proof.
  intros Hshape Hfmt Hpicked Hrun.
  assert (input_kits ≠ []) as Hne by (by intros ->).
  destruct (generate_random_kit_run input_kits output_format template_header
              h g Hne Hshape Hfmt) as (k0 & Hrun0 & _ & Hlen & Hslots).
  rewrite Hrun0 in Hrun. injection Hrun as -> <- <-.
  set (h4 := h ++ [standard_voice; standard_voice; standard_voice;
                   extended_voice]).
  assert (kit_shape k h4) as Hk.
  { split; [done|]. intros i l Hl.
    assert (i < 4) as Hi by (apply lookup_lt_Some in Hl; lia).
    destruct (Hslots i Hi) as (kit & Hkit & Hv).
    rewrite Forall_forall in Hshape.
    destruct (Hshape kit) as [_ Hs]; [by eapply list_elem_of_lookup_2|].
    rewrite Hv in Hl. destruct (Hs i l Hl) as (v & Hv' & Hok).
    exists v. split; [by apply lookup_app_l_Some|done]. }
  assert (kit_shape picked h) as Hp.
  { rewrite Forall_forall in Hshape. apply Hshape.
    by eapply list_elem_of_lookup_2. }
  destruct (Hslots 3) as (kit & Hkit & Hv3); [lia|].
  rewrite Hpicked in Hkit. injection Hkit as <-.
  assert (is_format2 h4 k ↔ is_format2 h picked) as Hiff.
  { rewrite <- (is_format2_app h
                  [standard_voice; standard_voice; standard_voice;
                   extended_voice] picked Hp).
    unfold is_format2. by rewrite Hv3. }
  split; [done|].
  destruct (Kit_to_bytes_lengths k h4) as (ds & Hds & Henc & Hl & _).
  { intros l [i Hl]%list_elem_of_lookup. destruct Hk as [_ Hs].
    destruct (Hs i l Hl) as (v & Hv & _). eauto. }
  exists (header k ++ concat ds). split; [done|]. rewrite Hl.
  destruct Hk as [_ Hs].
  destruct (voices k) as [|l0 [|l1 [|l2 [|l3 [|]]]]] eqn:Hvs; try done.
  apply Forall2_cons_inv_l in Hds as (d0 & ds0 & H0 & Hds & ->).
  apply Forall2_cons_inv_l in Hds as (d1 & ds1 & H1 & Hds & ->).
  apply Forall2_cons_inv_l in Hds as (d2 & ds2 & H2 & Hds & ->).
  apply Forall2_cons_inv_l in Hds as (d3 & ds3 & H3 & Hds & ->).
  apply Forall2_nil_inv_l in Hds as ->.
  destruct (Hs 0 l0 eq_refl) as (v0 & Hv0 & Hok0).
  destruct (Hs 1 l1 eq_refl) as (v1 & Hv1 & Hok1).
  destruct (Hs 2 l2 eq_refl) as (v2 & Hv2 & Hok2).
  destruct (Hs 3 l3 eq_refl) as (v3 & Hv3' & Hok3).
  unfold voice_bytes in H0, H1, H2, H3.
  rewrite Hv0 in H0. rewrite Hv1 in H1. rewrite Hv2 in H2. rewrite Hv3' in H3.
  simpl in H0, H1, H2, H3. simplify_eq.
  unfold slot_length_ok in Hok0, Hok1, Hok2, Hok3. simpl in *.
  assert (is_format2 h4 k ↔ length (data v3) = 32) as H32.
  { unfold is_format2. rewrite Hvs. simpl. split.
    - intros (l & v & [= <-] & Hv & ?). by simplify_eq.
    - intros ?. eauto. }
  rewrite Hok0, Hok1, Hok2. split.
  - intros Hf%Hiff%H32. lia.
  - intros Hnf. destruct Hok3 as [H30|H32']; [lia|].
    exfalso. apply Hnf, Hiff, H32. done.
Qed.

Lemma generate_random_kit_format_witness :
  ∃ k h' g',
    generate_random_kit [example_kit; mkKit [] [4; 1; 2; 5]] 2 None
      (example_store, λ i, i) = (Return k, (h', g')) ∧
    (is_format2 h' k ↔ is_format2 example_store (mkKit [] [4; 1; 2; 5])) ∧
    ∃ file,
      encode k h' = (Return file, h') ∧
      (is_format2 example_store (mkKit [] [4; 1; 2; 5]) →
       length file = length (header k) + 110) ∧
      (¬ is_format2 example_store (mkKit [] [4; 1; 2; 5]) →
       length file = length (header k) + 108).
Proof.
  eexists _, _, _. split; [vm_compute; reflexivity|].
  eapply (generate_random_kit_format
            [example_kit; mkKit [] [4; 1; 2; 5]] 2%Z None example_store
            (λ i, i)).
  - constructor; [solve_kit_shape|].
    constructor; [solve_kit_shape|constructor].
  - intros _. by right.
  - reflexivity.
  - vm_compute. reflexivity.
Defined.

(** ** clean_source_bank *)

Lemma range2_elem_of (lo hi x : Z) : x ∈ range2 lo hi ↔ (lo ≤ x < hi)%Z.
Proof.
  unfold range2. rewrite list_elem_of_fmap. split.
  - intros (i & -> & [_ Hi]%elem_of_seq). lia.
  - intros Hx. exists (Z.to_nat (x - lo)). split; [lia|].
    apply elem_of_seq. lia.
Qed.

Lemma range2_NoDup (lo hi : Z) : NoDup (range2 lo hi).
Proof.
  unfold range2. apply NoDup_fmap_2; [|apply NoDup_seq].
  intros i j Hij. lia.
Qed.

(** The directory, the count and the errors after the loop. *)
Lemma clean_source_bank_loop (failure : string → option string)
    (kit_nums : list Z) :
  NoDup kit_nums →
  ∀ (d : directory) (deleted_count : Z) (errors : list string),
    ∃ d' errors',
      foldl (clean_source_bank_step failure) (d, deleted_count, errors)
        kit_nums
      = (d',
         (deleted_count
          + Z.of_nat
              (length
                 (filter (λ k, d (format_kit_filename k) = true ∧
                               failure (format_kit_filename k) = None)
                    kit_nums)))%Z,
         errors') ∧
      (∀ name,
         d' name
         = if decide (name ∈ format_kit_filename <$> kit_nums ∧
                      failure name = None)
           then false else d name) ∧
      ((∀ k, k ∈ kit_nums → d (format_kit_filename k) = true →
             failure (format_kit_filename k) = None) →
       errors' = errors).
Proof.
  induction kit_nums as [|k ks IH]; intros Hnd d n errors.
  - exists d, errors. cbn [foldl filter list_filter length].
    split; [f_equal; f_equal; lia|].
    split; [|done]. intros name. rewrite fmap_nil.
    destruct (decide (name ∈ [] ∧ failure name = None)) as [H|]; [|done].
    destruct H as [H _]. by apply elem_of_nil in H.
  - apply NoDup_cons in Hnd as [Hk Hnd]. cbn [foldl].
    set (name_k := format_kit_filename k).
    assert (∃ d1 n1 errors1,
      clean_source_bank_step failure (d, n, errors) k = (d1, n1, errors1) ∧
      (∀ name, d1 name
               = if decide (name = name_k ∧ failure name = None)
                 then false else d name) ∧
      n1 = (n + if decide (d name_k = true ∧ failure name_k = None)
                then 1 else 0)%Z ∧
      ((d name_k = true → failure name_k = None) → errors1 = errors))
      as (d1 & n1 & errors1 & -> & Hd1 & -> & He1).
    { unfold clean_source_bank_step.
      change (format_02d k +:+ ".KIT") with name_k.
      destruct (d name_k) eqn:Hdk.
      - destruct (failure name_k) as [e|] eqn:Hf.
        + eexists _, _, _. split; [done|]. split; [|split].
          * intros name. case_decide as H; [|done].
            destruct H as [-> H]. congruence.
          * case_decide as H; [destruct H; congruence|lia].
          * intros H. by specialize (H eq_refl).
        + eexists _, _, _. split; [done|]. split; [|split; [|done]].
          * intros name. unfold unlink.
            destruct (String.eqb_spec name name_k) as [->|Hne].
            -- by rewrite decide_True.
            -- rewrite decide_False; [done|]. by intros [? _].
          * by rewrite decide_True.
      - eexists _, _, _. split; [done|]. split; [|split; [|done]].
        + intros name. case_decide as H; [|done].
          destruct H as [-> _]. done.
        + rewrite decide_False; [lia|]. by intros [? _]. }
    destruct (IH Hnd d1 (n + if decide (d name_k = true ∧ failure name_k = None)
                             then 1 else 0)%Z errors1)
      as (d' & errors' & Hrun & Hd' & He').
    assert (∀ k', k' ∈ ks → format_kit_filename k' ≠ name_k) as Hdistinct.
    { intros k' Hk' Heq. apply format_kit_filename_injective in Heq.
      by subst. }
    exists d', errors'. split; [|split].
    + rewrite Hrun. f_equal. f_equal. rewrite filter_cons.
      rewrite (filter_ext_in
                 (λ k0, d1 (format_kit_filename k0) = true ∧
                        failure (format_kit_filename k0) = None)
                 (λ k0, d (format_kit_filename k0) = true ∧
                        failure (format_kit_filename k0) = None) ks).
      * fold name_k. case_decide; simpl; lia.
      * intros k' Hk'. rewrite Hd1. rewrite decide_False; [done|].
        intros [? _]. by apply (Hdistinct k').
    + intros name. rewrite Hd', Hd1. rewrite fmap_cons. fold name_k.
      destruct (decide (name ∈ format_kit_filename <$> ks ∧
                        failure name = None)) as [[Hin Hf]|Hn1].
      { rewrite decide_True; [done|]. split; [by right|done]. }
      destruct (decide (name = name_k ∧ failure name = None))
        as [[-> Hf]|Hn2].
      { rewrite decide_True; [done|]. split; [by left|done]. }
      rewrite decide_False; [done|]. intros [Hin Hf].
      apply elem_of_cons in Hin as [->|Hin]; [by apply Hn2|by apply Hn1].
    + intros Hok. rewrite He'.
      * apply He1. apply Hok. by left.
      * intros k' Hk' Hpresent. apply Hok; [by right|].
        rewrite Hd1 in Hpresent. by case_decide.
Qed.

(** X28: on bank 01 and on bank 02 alike, [clean_source_bank] removes from
    an existing [KITS] directory the files 32.KIT to 63.KIT (each one whose
    removal does not fail) and nothing else: the files 00.KIT to 31.KIT and
    every other name are as they were.  The count returned is the number of
    files removed.  When no removal fails the call reports success, and the
    message names the kits 32-63 for bank 01 and the kits 00-31 for bank
    02. *)
Theorem clean_source_bank_spec
    (failure : string → option string) (d : directory) (bank_id : string) :
  bank_id = "01" ∨ bank_id = "02" →
  ∃ ok msg d',
    clean_source_bank failure (Some d) bank_id
    = ((ok, msg,
        Z.of_nat
          (length
             (filter (λ k, d (format_kit_filename k) = true ∧
                           failure (format_kit_filename k) = None)
                (range2 32 64)))),
       Some d') ∧
    (∀ k, (32 ≤ k < 64)%Z → failure (format_kit_filename k) = None →
          d' (format_kit_filename k) = false) ∧
    (∀ k, (0 ≤ k < 32)%Z →
          d' (format_kit_filename k) = d (format_kit_filename k)) ∧
    (∀ name, (∀ k, (32 ≤ k < 64)%Z → name ≠ format_kit_filename k) →
             d' name = d name) ∧
    (∀ name, failure name ≠ None → d' name = d name) ∧
    ((∀ k, (32 ≤ k < 64)%Z → d (format_kit_filename k) = true →
           failure (format_kit_filename k) = None) →
     ok = true ∧
     msg = "Successfully cleaned bank " +:+ bank_id +:+ " ("
             +:+ (if String.eqb bank_id "01" then "kits 32-63"
                  else "kits 00-31") +:+ " removed)").
Proof.
  intros Hbank.
  destruct (clean_source_bank_loop failure (range2 32 64)
              (range2_NoDup 32 64) d 0 [])
    as (d' & errors' & Hrun & Hd' & Herr).
  assert (∀ name, (∀ k, (32 ≤ k < 64)%Z → name ≠ format_kit_filename k) →
                  d' name = d name) as Hother.
  { intros name Hname. rewrite Hd'. rewrite decide_False; [done|].
    intros [(k & -> & Hk%range2_elem_of)%list_elem_of_fmap _].
    by apply (Hname k). }
  assert (∃ description,
    get_kit_ranges_for_cleaning bank_id
    = Some (range2 0 32, range2 32 64, description) ∧
    description = (if String.eqb bank_id "01" then "kits 32-63"
                   else "kits 00-31")) as (description & Hranges & Hdesc).
  { destruct Hbank as [-> | ->]; eexists; split; reflexivity. }
  unfold clean_source_bank. rewrite Hranges, Hrun.
  rewrite Z.add_0_l.
  exists (match errors' with [] => true | _ => false end).
  exists (match errors' with
          | [] => "Successfully cleaned bank " +:+ bank_id +:+ " ("
                    +:+ description +:+ " removed)"
          | _ => "Partial clean - some errors occurred:" +:+ newline +:+ "  "
                   +:+ String.concat (newline +:+ "  ") errors'
          end).
  exists d'. split; [by destruct errors'|].
  split; [|split; [|split; [done|split]]].
  - intros k Hk Hf. rewrite Hd'. rewrite decide_True; [done|].
    split; [|done]. apply list_elem_of_fmap. exists k.
    split; [done|]. by apply range2_elem_of.
  - intros k Hk. apply Hother. intros k' Hk' Heq.
    apply format_kit_filename_injective in Heq. lia.
  - intros name Hf. rewrite Hd'. rewrite decide_False; [done|].
    by intros [_ ?].
  - intros Hok. rewrite Herr.
    + by rewrite Hdesc.
    + intros k Hk%range2_elem_of. by apply Hok.
Qed.

Lemma clean_source_bank_spec_witness :
  ∃ ok msg d',
    clean_source_bank (λ _, None) (Some (λ _, true)) "02"
    = ((ok, msg,
        Z.of_nat
          (length
             (filter (λ k, true = true ∧ @None string = None)
                (range2 32 64)))),
       Some d') ∧
    (∀ k, (32 ≤ k < 64)%Z → @None string = None →
          d' (format_kit_filename k) = false) ∧
    (∀ k, (0 ≤ k < 32)%Z → d' (format_kit_filename k) = true) ∧
    (∀ name, (∀ k, (32 ≤ k < 64)%Z → name ≠ format_kit_filename k) →
             d' name = true) ∧
    (∀ name, @None string ≠ None → d' name = true) ∧
    ((∀ k, (32 ≤ k < 64)%Z → true = true → @None string = None) →
     ok = true ∧
     msg = "Successfully cleaned bank 02 (kits 00-31 removed)").
Proof.
  apply (clean_source_bank_spec (λ _, None) (λ _, true) "02"). by right.
Defined.
